(* ===== verification/_CoqProject ===== *)
-Q . S2P
Prelude.v
Tile.v
Grid.v
Score.v
Storage.v
Merge.v
MergeSpec.v
Hints.v
Undo.v
Session.v
Invariant.v
Contracts.v
Errors.v
Liveness.v
Sounds.v
Display.v
Shell.v
