(* ===== verification/Prelude.v ===== *)
(** * Just Divide (kid mode): a verification development of its rules engine

    The program ([src/main.js], a Phaser 3 game) keeps its whole session in
    module-level variables (lines 70-82: [grid], [queue], [undoStack],
    [score], [bestScore], [level], [trashCount], [keepTileData],
    [hintsActive], [difficulty], [isGameOver], [isMerging]) and changes them
    from input handlers (the [dragend] handler of [create], the keyboard
    bindings) and from tween callbacks that run when an animation ends.
    The development models that state and every handler that changes it;
    the drawing calls, sounds and tweens themselves are not modelled, but
    the callbacks the tweens run later are, because they change the state.

    How the parts interact.  An input reaches a handler of [Session]; a
    drop on the board goes through [tryDropOnGrid] to [createGridTile]
    ([Merge]), which places the tile, runs the cascade [checkMerges] and
    [checkLevelUp] ([Score]); the cascade schedules animations whose
    callbacks later add the points of a match and clear [isMerging].
    Every mutating handler first calls [saveState] ([Undo]); the hand is
    refilled by [spawnNextTile] from the queue that [replenishQueue]
    ([Tile]) fills with random tiles.

    Files, in dependency order (each opens with its own summary):
    - [Prelude]   (this file) notations [jd_scope] for the JavaScript
      operators the code uses, the hint database [jd], tactics, and the
      generic lemmas on lists of optional cells shared by the components.
    - [Tile]      the tile data ([{value, texture}]), the five textures,
      [Math.random] as the type class [RandomSource] with its law, the tile
      factory and the queue ([replenishQueue], [queue.shift()]).
    - [Grid]      the 16-cell board: the row-major geometry of
      [checkMerges] and [checkIfMergePossible] (neighbours up, down, left,
      right), slot coordinates and the pointer tests of [isValidDrop] and
      [tryDropOnGrid], the fullness test of [checkGameOver].
    - [Score]     [addScore] (with the persisted best score) and
      [checkLevelUp] (level from score, trash refill capped at 10).
    - [Storage]   the string layer under the persisted best score:
      [String(n)] as written by [localStorage.setItem], JavaScript's
      [parseInt] (white space, sign, [0x], longest digit prefix, [NaN]),
      the read of [startNewGame] and the best-score branch of [addScore]
      on JavaScript numbers.
    - [Merge]     [checkMerges]: one call of its body is [mergeStep], the
      recursion is the fuelled [checkMerges] and the relation [resolves];
      [createGridTile]; the merge animations as [ResolutionEvent]s and their
      callback [animationDone]; [checkIfMergePossible].
    - [MergeSpec] the spec's Match and Divide rules as a rewrite system
      [astep] on (board, score), the abstraction [abs] that credits each
      pending match animation with its 10 points, and the refinement of
      the cascade into that system.
    - [Hints]     [showHintsFor]: which slots are highlighted.
    - [Undo]      the record [Game] of all globals, [Snapshot],
      [saveState] and [undo], the history as a bounded FIFO.
    - [Session]   every handler: [startNewGame], [spawnNextTile],
      [checkGameOver], [handleTrashDrop], [handleHandToKeep],
      [handleKeepDragEnd], [tryDropOnGrid], the [dragend] dispatcher for
      the hand and the keep container, [toggleHints], [setDifficulty], and
      the tween callbacks, as one [step] per [Input]; [boot] (the globals
      before the first game), [steps] and [reachable].
    - [Invariant] the invariant [session_ok] of reachable states and one
      preservation lemma per handler; how a step moves the score, the
      level and the best score ([scores_grow], [history_from]) and the
      bound [level_ok] of the level by the score.
    - [Contracts] [placeTile], [moveHandToKeep] and [discardHand] of the
      spec against the three branches of the [dragend] handler.
    - [Errors]    the rejection branches against the spec's error kinds.
    - [Liveness]  pending callbacks always complete; a full board is
      always eventually declared over.
    - [Sounds]    the audio trace of every handler: each [playSound] and
      each [bgm] call, in program order, computed on the handler's own
      intermediate states ([createGridTileT], [checkMergesT],
      [checkGameOverT], ..., [stepT] per input).
    - [Display]   what the page shows ([View]: the score, level and
      trash texts, the grey queue tiles of [updateStackVisuals], the keep
      container of [updateKeepVisuals], the game-over panel) and the
      display trace of every handler, in program order.
    - [Shell]     the page around the engine: [create], the start popup
      whose button ([once]) fades it and calls [startNewGame], the
      [dragstart] handler, and the audio state ([setupAudio],
      [playSound], [toggleSoundGlobal] and [isMuted]) on which the traces
      of [Sounds] run, as a record [App] of game, audio, view and popup
      with one [appStep] per input of the page.

    Theorems, by group:
    - the cascade: termination (16 units of fuel suffice, the fuelled
      function computes the relation, which is deterministic), conservation
      of tiles and synchronous score, match and divide on every branch,
      the first-partner tie-break (the partner is exactly the first
      neighbour that matches or divides), preservation of the settled
      board;
    - refinement: a placement is a sequence of the spec's rewrite rules
      ending in a normal form, with deferred match points credited; the
      callbacks pay exactly that credit (in [Liveness]);
    - the session: the invariant of every reachable state (board,
      trash, history, tiles, game over, [isMerging], and score <= best
      score <= the best score in storage); the contracts
      of the three hand moves; the undo round trip for up to 10
      operations and the history as a bounded FIFO; the hints are exactly
      the cells where a drop starts a merge; rejected actions change
      nothing; pending animations can always complete and a full board is
      always declared over eventually; no step lowers the best score and
      only undo and restart lower the score or the level; the level is
      never ahead of the score; the board of the spec's Scenario C is
      never reached;
    - the page: a placement plays [drop] and one [merge] per animation
      it schedules; the music is muted exactly when [isMuted] is set
      and, once a game has started, plays exactly while it is not over;
      the mute toggle silences the music only; the texts, the queue
      preview, the keep slot and the game-over panel always show the
      current state;
    - persistence: every best score the game writes reads back as the
      same integer, never [NaN], so the [nat] model of [Score] is exact;
      any stored string whose first non-blank character is neither a
      sign nor a digit makes the best score [NaN], and it is then never
      written again;
    - score and factory bounds: level never decreases, trash never exceeds
      10, generated values lie in [2, maxVal];
    - races between input and tween callbacks: a pending match callback
      pays its 10 points after undo (to the restored snapshot) and after a
      restart (to the new game); dropping the kept tile never ends the
      game, even on the last empty cell; the spec's Scenario D.

    Modelling choices.  Tile values, scores and levels are [nat]: the code
    only ever produces integers >= 0 that stay far below 2^53, so the
    JavaScript doubles are exact (the one value that can be [NaN], the
    stored best score read back, is modelled in [Storage]).  [Math.random()*n] floored is the
    abstract draw [random_below r n < n] of [RandomSource]: the theorems
    hold for every source satisfying the law, and the witnesses use a
    linear congruential instance or a scripted one.  JavaScript's [%] by
    zero gives [NaN] (never [=== 0]); the model writes that test out in
    [js_divides].  Arrays are stdpp lists read with [!!] and written with
    [<[i:=x]>]; the code only writes indices in [0,16), where both agree.
    The recursion of [checkMerges] is not structural; it is a [Fixpoint]
    on fuel, and 16 is proved enough (each recursive call follows a
    divide, which removes one of at most 16 tiles).  A tween is modelled
    by its callback only: [MergeTweenEnd] runs the oldest pending merge
    callback and [TrashTweenEnd] a trash callback, at any point between
    inputs, which covers every timing the real delays allow.  The model
    keeps one hand tile: after [undo] during the trash tween the code has
    two draggable hand tiles on the page (see [Session.trashAnimDone]),
    and the model keeps the newer one.  Pointer
    positions are integers; distances are compared squared.

    Not modelled: the drawing itself ([setupUI]'s graphics, the [draw*]
    functions, [createQueueTile], [createTileContainer],
    [updateTileVisuals], the start popup's graphics, the hint
    rectangles of [showHintsFor], whose cell choice is modelled), the
    board's sprites (they are destroyed by the merge animations'
    callbacks, so they follow the animations rather than the grid), the
    motion of sprites ([returnToStack], the [drag] handler, tween
    easing: a tween is its callback, see above), the Phaser
    configuration and the layout constants, which only position
    sprites, and [console.log]. *)

From stdpp Require Export base list.
From Stdlib Require Export Lia.

(** JavaScript operators on the non-negative integers the game uses. *)
Declare Scope jd_scope.
Delimit Scope jd_scope with jd.
Notation "a === b" := (Nat.eqb a b) (at level 70, no associativity) : jd_scope.
Notation "a %% b" := (Nat.modulo a b) (at level 40, left associativity) : jd_scope.
Open Scope jd_scope.

Create HintDb jd.
#[export] Hint Constants Transparent : jd.
Create Rewrite HintDb jd_rw.

(** Turn the boolean comparisons of the code into propositions. *)
Ltac jd_bool :=
  repeat match goal with
  | H : (_ =? _) = true |- _ => apply Nat.eqb_eq in H
  | H : (_ =? _) = false |- _ => apply Nat.eqb_neq in H
  | H : (_ <? _) = true |- _ => apply Nat.ltb_lt in H
  | H : (_ <? _) = false |- _ => apply Nat.ltb_ge in H
  | H : (_ <=? _) = true |- _ => apply Nat.leb_le in H
  | H : (_ <=? _) = false |- _ => apply Nat.leb_gt in H
  | H : (_ && _) = true |- _ => apply andb_prop in H as [? ?]
  | H : negb _ = true |- _ => apply negb_true_iff in H
  | H : negb _ = false |- _ => apply negb_false_iff in H
  end.

Ltac invc H := inversion H; subst; clear H.

(** ** Lists of optional cells *)

Section Cells.
Context {A : Type}.

(** Number of occupied entries of an array of cells. *)
Fixpoint count_some (l : list (option A)) : nat :=
  match l with
  | [] => 0
  | Some _ :: l' => S (count_some l')
  | None :: l' => count_some l'
  end.

Lemma count_some_le_length (l : list (option A)) : count_some l <= length l.
Proof. induction l as [|[?|] ? IH]; simpl; lia. Qed.

Lemma count_some_clear (l : list (option A)) i x :
  l !! i = Some (Some x) -> S (count_some (<[i:=None]> l)) = count_some l.
Proof.
  revert i; induction l as [|o l IH]; intros [|i] H; simpl in *; try done.
  - by simplify_eq.
  - rewrite <- (IH i H). by destruct o.
Qed.

Lemma count_some_clear_lt (l : list (option A)) i x :
  l !! i = Some (Some x) -> count_some (<[i:=None]> l) < count_some l.
Proof. intros H. rewrite <- (count_some_clear l i x H). lia. Qed.

Lemma count_some_fill (l : list (option A)) i x :
  l !! i = Some None -> count_some (<[i:=Some x]> l) = S (count_some l).
Proof.
  revert i; induction l as [|o l IH]; intros [|i] H; simpl in *; try done.
  - by simplify_eq.
  - rewrite (IH i H). by destruct o.
Qed.

Lemma count_some_replace (l : list (option A)) i x y :
  l !! i = Some (Some y) -> count_some (<[i:=Some x]> l) = count_some l.
Proof.
  revert i; induction l as [|o l IH]; intros [|i] H; simpl in *; try done.
  - by simplify_eq.
  - rewrite (IH i H). by destruct o.
Qed.

(** Every occupied entry satisfies [P]. *)
Definition cells_ok (P : A -> Prop) (l : list (option A)) : Prop :=
  forall i x, l !! i = Some (Some x) -> P x.

Lemma cells_ok_insert (P : A -> Prop) l i o :
  cells_ok P l -> (forall x, o = Some x -> P x) -> cells_ok P (<[i:=o]> l).
Proof.
  intros Hl Ho j x Hj. destruct (decide (i = j)) as [->|Hne].
  - apply list_lookup_insert_Some in Hj as [[_ [Heq _]]|[Hne _]]; [by eauto|done].
  - rewrite list_lookup_insert_ne in Hj; eauto.
Qed.
End Cells.

#[export] Hint Resolve count_some_le_length cells_ok_insert : jd.

Section Enum.
(** A property of the 16 cell indices, checked one index at a time. *)
Lemma forall_seq (P : nat -> Prop) n :
  Forall P (seq 0 n) -> forall i, i < n -> P i.
Proof.
  intros HF i Hi. rewrite Forall_forall in HF. apply HF.
  apply list_elem_of_In, in_seq. lia.
Qed.

Context {A : Type}.

Lemma count_some_full (l : list (option A)) :
  count_some l = length l <-> Forall (fun o => is_Some o) l.
Proof.
  induction l as [|[x|] l IH]; simpl.
  - split; constructor || done.
  - rewrite Forall_cons. split; [intros [=]; split; [by eexists|by apply IH]|].
    intros [_ H]. f_equal. by apply IH.
  - rewrite Forall_cons. pose proof (count_some_le_length l).
    split; [lia|]. intros [[? [=]] _].
Qed.
End Enum.

Lemma removelast_prefix {A} (l : list A) : exists t, l = removelast l ++ t.
Proof.
  induction l as [|x l _] using rev_ind; [by exists []|].
  exists [x]. by rewrite removelast_last.
Qed.
