(* ===== verification/Tile.v ===== *)
(** * Tiles, the tile factory and the queue

    A tile of [src/main.js] is the object [{ value, texture }] pushed by
    [replenishQueue] (lines 610-620), copied into [keepTileData], into the
    snapshots of [saveState] and, with its sprite, into [grid].  The texture
    is one of the five keys of the [colors] array.  [Math.random] is the
    type class [RandomSource]: [random_below r n] is
    [Math.floor(Math.random() * n)], a number below [n], with the new state
    of the source.  [replenishQueue] is the [while] loop of line 615; it is
    a recursion on the five iterations it can take at most. *)

From S2P Require Import Prelude.
From Stdlib Require Import NArith.

(** The texture keys of line 611. *)
Inductive Texture := tile_blue | tile_orange | tile_pink | tile_purple | tile_red.

#[export] Instance Texture_eq_dec : EqDecision Texture.
Proof. solve_decision. Defined.

(** [{ value: randomVal, texture: randomColor }]. *)
Record TileData := mkTile { value : nat; texture : Texture }.

#[export] Instance TileData_eq_dec : EqDecision TileData.
Proof. solve_decision. Defined.

Definition colors : list Texture :=
  [tile_blue; tile_orange; tile_pink; tile_purple; tile_red].

(** [Math.floor(Math.random() * n)] and the next state of the generator. *)
Class RandomSource (R : Type) := {
  random_below : R -> nat -> nat * R;
  random_below_lt : forall r n, 0 < n -> (random_below r n).1 < n
}.

Section Factory.
Context {R : Type} `{RandomSource R}.

(** Lines 612-614: the base of the value range and [maxVal]. *)
Definition baseMax (difficulty : nat) : nat :=
  let b := 20 in
  let b := if difficulty === 1 then 15 else b in
  if difficulty === 3 then 30 else b.

Definition maxVal (difficulty level : nat) : nat :=
  baseMax difficulty + level * 2.

(** Lines 616-618: one tile, value first, then color. *)
Definition randomTile (maxv : nat) (r : R) : TileData * R :=
  let '(k, r1) := random_below r (maxv - 1) in
  let '(c, r2) := random_below r1 (length colors) in
  (mkTile (k + 2) (nth c colors tile_blue), r2).

(** The loop [while (queue.length < 5) queue.push(...)], given the number
    of iterations it may still take. *)
Fixpoint fillQueue (fuel maxv : nat) (q : list TileData) (r : R)
    : list TileData * R :=
  match fuel with
  | 0 => (q, r)
  | S fuel' =>
      if length q <? 5 then
        let '(t, r') := randomTile maxv r in fillQueue fuel' maxv (q ++ [t]) r'
      else (q, r)
  end.

(** [replenishQueue()] on the globals [difficulty], [level], [queue]. *)
Definition replenishQueue (difficulty level : nat) (q : list TileData) (r : R)
    : list TileData * R :=
  fillQueue 5 (maxVal difficulty level) q r.

(** [queue.shift()]: [undefined] on an empty queue. *)
Definition queueShift (q : list TileData) : option TileData * list TileData :=
  match q with
  | [] => (None, [])
  | t :: q' => (Some t, q')
  end.
End Factory.

(** A linear congruential source, used to evaluate the model. *)
Definition lcg_next (s : N) : N := (s * 75 + 74) mod 65537.

#[export, refine] Instance lcg_source : RandomSource N := {
  random_below s n := (N.to_nat (lcg_next s mod N.of_nat n), lcg_next s)
}.
Proof.
  intros s n Hn. simpl.
  pose proof (N.mod_lt (lcg_next s) (N.of_nat n)) as Hlt. lia.
Defined.

(** ** Properties of the factory and the queue *)

Section FactoryProofs.
Context {R : Type} `{RandomSource R}.

Lemma baseMax_ge d : 15 <= baseMax d.
Proof.
  unfold baseMax. destruct (d === 1), (d === 3); lia.
Qed.

Lemma maxVal_ge d l : 15 <= maxVal d l.
Proof. unfold maxVal. pose proof (baseMax_ge d). lia. Qed.

Lemma randomTile_value maxv r :
  2 <= maxv -> 2 <= value (randomTile maxv r).1 <= maxv.
Proof.
  intros Hm. unfold randomTile.
  pose proof (random_below_lt r (maxv - 1) ltac:(lia)) as Hk.
  destruct (random_below r (maxv - 1)) as [k r1]; simpl in *.
  destruct (random_below r1 _) as [c r2]; simpl in *. lia.
Qed.

Lemma randomTile_texture maxv r : texture (randomTile maxv r).1 ∈ colors.
Proof.
  unfold randomTile. destruct (random_below r (maxv - 1)) as [k r1].
  pose proof (random_below_lt r1 (length colors) ltac:(simpl; lia)) as Hc.
  destruct (random_below r1 (length colors)) as [c r2]; cbn [fst texture] in *.
  apply list_elem_of_In, nth_In, Hc.
Qed.

(** The loop appends tiles of the range; with enough iterations left it
    stops only when the queue holds 5 tiles. *)
Lemma fillQueue_spec fuel maxv q r :
  2 <= maxv -> 5 - length q <= fuel ->
  exists fresh, (fillQueue fuel maxv q r).1 = q ++ fresh /\
    length (q ++ fresh) = Nat.max 5 (length q) /\
    Forall (fun t => 2 <= value t <= maxv /\ texture t ∈ colors) fresh.
Proof.
  intros Hm. revert q r. induction fuel as [|fuel IH]; intros q r Hf; simpl.
  - exists []. rewrite app_nil_r. split; [done|]. split; [lia|constructor].
  - destruct (length q <? 5) eqn:Hlt; jd_bool.
    + pose proof (randomTile_value maxv r Hm).
      pose proof (randomTile_texture maxv r).
      destruct (randomTile maxv r) as [t r'] eqn:Et; simpl in *.
      destruct (IH (q ++ [t]) r') as (fresh & Heq & Hlen & Hall).
      { rewrite length_app; simpl; lia. }
      exists (t :: fresh). rewrite Heq, <- app_assoc.
      rewrite <- app_assoc in Hlen. simpl in Hlen.
      split; [done|]. split; [rewrite Hlen, length_app; simpl; lia|].
      by constructor.
    + exists []. rewrite app_nil_r. split; [done|]. split; [lia|constructor].
Qed.
End FactoryProofs.

(** A source whose every draw is the largest one allowed
    ([Math.random()] close to 1). *)
#[refine] Definition top_source : RandomSource unit := {|
  random_below _ n := (n - 1, tt)
|}.
Proof. intros _ n Hn. simpl. lia. Defined.

(** C27: [replenishQueue] keeps the queue in order, appends fresh tiles at
    its back until it holds 5 of them (or leaves a longer queue alone), and
    every fresh tile has a value in [2, maxVal] and one of the five
    textures, for every random source that obeys its law. *)
Theorem replenishQueue_spec {R} `{RandomSource R} difficulty level q (r : R) :
  exists fresh,
    (replenishQueue difficulty level q r).1 = q ++ fresh /\
    length (q ++ fresh) = Nat.max 5 (length q) /\
    Forall (fun t => 2 <= value t <= maxVal difficulty level /\ texture t ∈ colors)
      fresh.
Proof.
  apply fillQueue_spec; [pose proof (maxVal_ge difficulty level); lia | lia].
Qed.

(** C32: the largest value the factory produces is [maxVal] itself (the
    draw [Math.floor(r * (maxVal - 1))] reaches [maxVal - 2], plus 2): with
    a source that always draws its maximum, an empty queue is refilled with
    tiles of value [maxVal]. *)
Theorem replenishQueue_reaches_maxVal difficulty level :
  Forall (fun t => value t = maxVal difficulty level)
    (@replenishQueue unit top_source difficulty level [] tt).1.
Proof.
  pose proof (maxVal_ge difficulty level).
  unfold replenishQueue. simpl.
  repeat constructor; simpl; lia.
Qed.
