(* ===== verification/Grid.v ===== *)
(** * The board

    [grid] of [src/main.js] is [Array(16).fill(null)] (lines 70, 287), a
    row-major 4x4 board whose cells are [null] or a tile.  This file holds
    its geometry: the neighbour positions of [checkMerges] (lines 480-485)
    and [checkIfMergePossible] (lines 828-831), in the order up, down,
    left, right, with the bounds test of the code; the slot centres of
    [restoreGridTile] (lines 465-469) and the pointer tests of
    [isValidDrop] (lines 679-690) and [tryDropOnGrid] (lines 692-708); the
    fullness test of [checkGameOver] (lines 330-332); and the board
    invariant (16 cells, every value at least 2). *)

From S2P Require Import Prelude Tile.
From Stdlib Require Import ZArith.

Abbreviation Grid := (list (option TileData)).

(** [Array(16).fill(null)]. *)
Definition empty_grid : Grid := replicate 16 None.

(** [grid[i] === null]: an index past the end reads [undefined], which is
    not [=== null]. *)
Definition isEmpty (g : Grid) (i : nat) : bool :=
  match g !! i with Some None => true | _ => false end.

Definition count_occupied (g : Grid) : nat := count_some g.

(** ** Neighbours *)

(** [{ r: row - 1, c: col }, { r: row + 1, c: col }, { r: row, c: col - 1 },
    { r: row, c: col + 1 }] with [row = Math.floor(index / 4)] and
    [col = index % 4]. *)
Definition neighborPositions (index : nat) : list (Z * Z) :=
  let row := Z.of_nat (index / 4) in
  let col := Z.of_nat (index mod 4) in
  [((row - 1)%Z, col); ((row + 1)%Z, col); (row, (col - 1)%Z); (row, (col + 1)%Z)].

(** [pos.r >= 0 && pos.r < 4 && pos.c >= 0 && pos.c < 4]. *)
Definition inBounds (p : Z * Z) : bool :=
  (0 <=? p.1)%Z && (p.1 <? 4)%Z && (0 <=? p.2)%Z && (p.2 <? 4)%Z.

(** [nIndex = pos.r * 4 + pos.c]. *)
Definition posIndex (p : Z * Z) : nat := Z.to_nat (p.1 * 4 + p.2).

(** The in-bounds neighbours, in the order the loops visit them. *)
Definition neighborsOf (index : nat) : list nat :=
  List.map posIndex (List.filter inBounds (neighborPositions index)).

(** ** Slots and the pointer *)

(** Slot centre of cell [i]: [startX + col * gap], [startY + row * gap]. *)
Definition slotX (i : nat) : Z := 380 + Z.of_nat (i mod 4) * 125.
Definition slotY (i : nat) : Z := 505 + Z.of_nat (i / 4) * 125.

(** [Phaser.Math.Distance.Between(x, y, sx, sy) < radius], squared. *)
Definition near (x y sx sy radius : Z) : bool :=
  ((x - sx) * (x - sx) + (y - sy) * (y - sy) <? radius * radius)%Z.

Definition nearSlot (x y : Z) (i : nat) : bool := near x y (slotX i) (slotY i) 60.

(** [tileObj.getData('value')] is truthy: set and not 0. *)
Definition valueTruthy (v : option nat) : bool :=
  match v with Some n => negb (n === 0) | None => false end.

(** [isValidDrop]: some slot under the pointer is empty. *)
Definition isValidDrop (v : option nat) (g : Grid) (x y : Z) : bool :=
  valueTruthy v && existsb (fun i => nearSlot x y i && isEmpty g i) (seq 0 16).

(** The cell [tryDropOnGrid] fills: the first slot under the pointer that
    is empty. *)
Fixpoint firstDrop (g : Grid) (x y : Z) (idxs : list nat) : option nat :=
  match idxs with
  | [] => None
  | i :: idxs' => if nearSlot x y i && isEmpty g i then Some i else firstDrop g x y idxs'
  end.

Definition dropTarget (v : option nat) (g : Grid) (x y : Z) : option nat :=
  if valueTruthy v then firstDrop g x y (seq 0 16) else None.

(** The loop of [checkGameOver]: no cell is [null]. *)
Definition gridFull (g : Grid) : bool :=
  forallb (fun i => negb (isEmpty g i)) (seq 0 16).

(** ** The board invariant *)

Definition grid_wf (g : Grid) : Prop :=
  length g = 16 /\ cells_ok (fun t => 2 <= value t) g.

(** ** Lemmas on the board *)

Lemma neighborsOf_spec i :
  i < 16 -> forall j, j ∈ neighborsOf i -> j < 16 /\ j <> i /\ i ∈ neighborsOf j.
Proof.
  revert i. refine (forall_seq _ 16 _). simpl.
  repeat (apply List.Forall_cons; [
    intros j Hj; apply list_elem_of_In in Hj; vm_compute in Hj;
    repeat destruct Hj as [<-|Hj]; try contradiction;
    (split; [lia|split; [lia|apply list_elem_of_In; vm_compute; tauto]])|]).
  apply List.Forall_nil.
Qed.

Lemma near_bound x y sx sy :
  near x y sx sy 60 = true -> (-60 < x - sx < 60 /\ -60 < y - sy < 60)%Z.
Proof.
  unfold near. rewrite Z.ltb_lt. intros H.
  set (a := (x - sx)%Z) in *. set (b := (y - sy)%Z) in *.
  assert (0 <= a * a /\ 0 <= b * b)%Z as [Ha Hb] by nia.
  split; split; nia.
Qed.

(** Slots are 125 apart and the drop radius is 60: the pointer is over at
    most one slot. *)
Lemma nearSlot_unique x y i j :
  i < 16 -> j < 16 -> nearSlot x y i = true -> nearSlot x y j = true -> i = j.
Proof.
  unfold nearSlot, slotX, slotY. intros Hi Hj Ni Nj.
  apply near_bound in Ni, Nj.
  assert (Z.of_nat (i mod 4) = Z.of_nat (j mod 4)) as Hc by lia.
  assert (Z.of_nat (i / 4) = Z.of_nat (j / 4)) as Hr by lia.
  apply Nat2Z.inj in Hc, Hr.
  rewrite (Nat.div_mod_eq i 4), (Nat.div_mod_eq j 4). lia.
Qed.

Lemma firstDrop_Some g x y idxs i :
  firstDrop g x y idxs = Some i ->
  i ∈ idxs /\ nearSlot x y i = true /\ isEmpty g i = true.
Proof.
  induction idxs as [|k idxs IH]; simpl; [done|].
  destruct (nearSlot x y k && isEmpty g k) eqn:E.
  - intros [= ->]. jd_bool. split; [constructor|done].
  - intros H. destruct (IH H) as (? & ? & ?). split; [by constructor|done].
Qed.

Lemma firstDrop_existsb g x y idxs :
  existsb (fun i => nearSlot x y i && isEmpty g i) idxs = true <->
  is_Some (firstDrop g x y idxs).
Proof.
  induction idxs as [|k idxs IH]; simpl.
  - split; [done|]. by intros [? ?].
  - destruct (nearSlot x y k && isEmpty g k); simpl; [split; eauto|done].
Qed.

Lemma isEmpty_lookup g i : isEmpty g i = true <-> g !! i = Some None.
Proof. unfold isEmpty. destruct (g !! i) as [[?|]|]; split; congruence. Qed.

Lemma gridFull_count g :
  length g = 16 -> gridFull g = true <-> count_occupied g = 16.
Proof.
  intros Hl. unfold gridFull, count_occupied.
  rewrite <- Hl at 2. rewrite count_some_full, forallb_forall, Forall_lookup.
  split.
  - intros H i o Ho. pose proof (lookup_lt_Some _ _ _ Ho).
    specialize (H i ltac:(apply in_seq; lia)). unfold isEmpty in H.
    rewrite Ho in H. destruct o; [by eexists|done].
  - intros H i Hi%in_seq. destruct (lookup_lt_is_Some_2 g i) as [o Ho]; [lia|].
    unfold isEmpty. rewrite Ho. destruct (H i o Ho) as [? ->]. done.
Qed.

#[export] Hint Resolve neighborsOf_spec nearSlot_unique : jd.

(** C28: a drop is accepted by [isValidDrop] exactly when [tryDropOnGrid]
    finds a cell; that cell is the one empty slot under the pointer, and
    no other slot is under it.  (So the [undoStack.pop()] branch of the
    [dragend] handler never runs.) *)
Theorem dropTarget_spec v g x y :
  (isValidDrop v g x y = true <-> is_Some (dropTarget v g x y)) /\
  (forall i, dropTarget v g x y = Some i ->
     i < 16 /\ g !! i = Some None /\ nearSlot x y i = true /\
     forall j, j < 16 -> nearSlot x y j = true -> j = i).
Proof.
  unfold isValidDrop, dropTarget. split.
  - destruct (valueTruthy v); cbn [andb]; [apply firstDrop_existsb|split; [done|by intros [? ?]]].
  - intros i. destruct (valueTruthy v); [|done].
    intros (Hin & Hn & He)%firstDrop_Some.
    apply list_elem_of_In, in_seq in Hin.
    split; [lia|]. split; [by apply isEmpty_lookup|]. split; [done|].
    intros j Hj Hnj. eapply nearSlot_unique; eauto; lia.
Qed.
