(* ===== verification/Score.v ===== *)
(** * Score, level and trash allowance

    The globals [score], [bestScore], [level], [trashCount] of
    [src/main.js] (lines 73-76) and the persisted value
    [localStorage['justDivide_bestScore']] form the record [ScoreState].
    [addScore] is lines 318-325, [checkLevelUp] lines 710-720, and the
    read of the persisted best score at the start of [startNewGame] is
    lines 283-284.  The text updates ([scoreText.setText], ...) are
    drawing and are not modelled. *)

From S2P Require Import Prelude.

Record ScoreState := mkScore {
  score : nat;
  bestScore : nat;
  level : nat;
  trashCount : nat;
  stored : option nat   (** [localStorage.getItem('justDivide_bestScore')] *)
}.

(** [addScore(points)]: the best score follows the score and is written to
    storage whenever it is beaten. *)
Definition addScore (points : nat) (s : ScoreState) : ScoreState :=
  let sc := score s + points in
  if bestScore s <? sc then
    mkScore sc sc (level s) (trashCount s) (Some sc)
  else
    mkScore sc (bestScore s) (level s) (trashCount s) (stored s).

(** [checkLevelUp()]: [calculatedLevel = Math.floor(score / 10) + 1]; on a
    level gain, one trash per level gained, capped at 10. *)
Definition checkLevelUp (s : ScoreState) : ScoreState :=
  let calculatedLevel := score s / 10 + 1 in
  if level s <? calculatedLevel then
    let levelsGained := calculatedLevel - level s in
    let addedTrash := 1 * levelsGained in
    mkScore (score s) (bestScore s) calculatedLevel
      (Nat.min 10 (trashCount s + addedTrash)) (stored s)
  else s.

(** [savedBest ? parseInt(savedBest) : 0] (lines 283-284). *)
Definition storedBest (s : ScoreState) : nat :=
  match stored s with Some b => b | None => 0 end.

(** Lines 283-292 of [startNewGame]: [bestScore] read back from storage,
    the rest reset. *)
Definition resetScore (s : ScoreState) : ScoreState :=
  mkScore 0 (storedBest s) 1 10 (stored s).

(** The level the spec derives from the score. *)
Definition levelOf (sc : nat) : nat := sc / 10 + 1.

(** Invariant of the scoring globals. *)
Definition score_wf (s : ScoreState) : Prop :=
  trashCount s <= 10 /\ score s <= bestScore s /\ 1 <= level s.

(** The score is at most the best score, which is at most the stored one. *)
Definition best_ok (s : ScoreState) : Prop := score s <= bestScore s <= storedBest s.

(** ** Lemmas *)

Lemma addScore_score p s : score (addScore p s) = score s + p.
Proof. unfold addScore. by destruct (_ <? _). Qed.

Lemma addScore_level p s : level (addScore p s) = level s.
Proof. unfold addScore. by destruct (_ <? _). Qed.

Lemma addScore_trash p s : trashCount (addScore p s) = trashCount s.
Proof. unfold addScore. by destruct (_ <? _). Qed.

Lemma addScore_best p s :
  bestScore (addScore p s) = Nat.max (bestScore s) (score s + p).
Proof. unfold addScore. destruct (_ <? _) eqn:E; jd_bool; cbn [level score trashCount bestScore stored]; lia. Qed.

Lemma checkLevelUp_score s : score (checkLevelUp s) = score s.
Proof. unfold checkLevelUp. by destruct (_ <? _). Qed.

Lemma checkLevelUp_best s : bestScore (checkLevelUp s) = bestScore s.
Proof. unfold checkLevelUp. by destruct (_ <? _). Qed.

Lemma checkLevelUp_level s :
  level (checkLevelUp s) = Nat.max (level s) (levelOf (score s)).
Proof. unfold checkLevelUp, levelOf. destruct (_ <? _) eqn:E; jd_bool; cbn [level score trashCount bestScore stored]; lia. Qed.

Lemma checkLevelUp_stored s : stored (checkLevelUp s) = stored s.
Proof. unfold checkLevelUp. by destruct (_ <? _). Qed.

Lemma addScore_best_ok p s :
  best_ok s -> best_ok (addScore p s) /\ bestScore s <= bestScore (addScore p s).
Proof.
  unfold best_ok, storedBest, addScore. intros Hb.
  destruct (_ <? _) eqn:E; jd_bool; cbn [score bestScore stored]; lia.
Qed.

Lemma checkLevelUp_best_ok s : best_ok s -> best_ok (checkLevelUp s).
Proof. unfold best_ok, storedBest. by rewrite checkLevelUp_score, checkLevelUp_best, checkLevelUp_stored. Qed.

#[export] Hint Rewrite addScore_score addScore_level addScore_trash addScore_best
  checkLevelUp_score checkLevelUp_best checkLevelUp_level : jd_rw.

(** C24: [checkLevelUp] sets the level to [max(level, floor(score/10)+1)]
    (so it never decreases), leaves the score alone, keeps the trash count
    at most 10, never lowers it, and changes it only when the level
    changes. *)
Theorem checkLevelUp_spec s :
  trashCount s <= 10 ->
  let s' := checkLevelUp s in
  level s' = Nat.max (level s) (levelOf (score s)) /\ score s' = score s /\
  trashCount s <= trashCount s' <= 10 /\
  (level s' = level s -> trashCount s' = trashCount s).
Proof.
  intros Ht. unfold checkLevelUp, levelOf.
  destruct (_ <? _) eqn:E; jd_bool; cbn [level score trashCount bestScore stored]; lia.
Qed.

Lemma checkLevelUp_spec_witness :
  trashCount (mkScore 35 35 1 9 None) <= 10 /\
  level (checkLevelUp (mkScore 35 35 1 9 None)) = 4 /\
  trashCount (checkLevelUp (mkScore 35 35 1 9 None)) = 10.
Proof.
  pose proof (checkLevelUp_spec (mkScore 35 35 1 9 None) ltac:(simpl; lia)).
  split; [simpl; lia|]. split; reflexivity.
Defined.

(** C25: [addScore] adds exactly the points, keeps the best score at least
    the score and writes the new best to storage when it is beaten, and
    preserves the scoring invariant. *)
Theorem addScore_spec p s :
  score_wf s ->
  let s' := addScore p s in
  score s' = score s + p /\ bestScore s' = Nat.max (bestScore s) (score s + p) /\
  (bestScore s < score s + p -> stored s' = Some (score s + p)) /\
  score_wf s'.
Proof.
  intros (Ht & Hb & Hl). unfold addScore, score_wf.
  destruct (_ <? _) eqn:E; jd_bool; cbn [level score trashCount bestScore stored]; repeat split; lia.
Qed.

Lemma addScore_spec_witness :
  score_wf (mkScore 5 8 1 10 (Some 8)) /\
  addScore 20 (mkScore 5 8 1 10 (Some 8)) = mkScore 25 25 1 10 (Some 25).
Proof.
  pose proof (addScore_spec 20 (mkScore 5 8 1 10 (Some 8))).
  split; [unfold score_wf; simpl; lia|reflexivity].
Defined.
