(* ===== verification/Storage.v ===== *)
(** * The best score in [localStorage]

    [addScore] (lines 318-325 of [src/main.js]) stores a beaten best score
    with [localStorage.setItem('justDivide_bestScore', bestScore)], which
    converts the number to its decimal string; [startNewGame] reads it back
    with [savedBest ? parseInt(savedBest) : 0] (lines 283-284).  [Score]
    models the stored value as an [option nat] ([stored], [storedBest]);
    this file models the string layer underneath: [String(n)] for a
    non-negative integer ([showNat]), JavaScript's [parseInt] with no radix
    ([parseInt], after ECMAScript's definition: leading white space, a
    sign, a [0x] prefix for hexadecimal, then the longest prefix of
    digits, [NaN] when there is none), and the JavaScript numbers a read
    can produce ([JSNum]: an integer or [NaN]).

    The theorems show that the abstraction of [Score] is exact for every
    string the game writes (the read gives back the number, never [NaN]),
    and what the code does with a stored string it did not write: a [NaN]
    best score, which no score ever beats.  Strings are byte strings; the
    white space [parseInt] skips is the ASCII part of JavaScript's. *)

From S2P Require Import Prelude Score.
From Stdlib Require Import ZArith Ascii String DecimalString DecimalNat.

(** A number as JavaScript holds the result of [parseInt]. *)
Inductive JSNum := JInt (z : Z) | JNaN.

#[export] Instance JSNum_eq_dec : EqDecision JSNum.
Proof. solve_decision. Defined.

(** [String(n)]: the decimal digits of [n], ["0"] for zero. *)
Definition showNat (n : nat) : string := NilZero.string_of_uint (Nat.to_uint n).

(** ASCII white space of [StrWhiteSpaceChar]: tab, line feed, vertical
    tab, form feed, carriage return, space. *)
Definition isWhite (c : ascii) : bool :=
  match nat_of_ascii c with 9 | 10 | 11 | 12 | 13 | 32 => true | _ => false end.

Fixpoint trimStart (s : string) : string :=
  match s with
  | String c s' => if isWhite c then trimStart s' else s
  | EmptyString => s
  end.

(** The value of a digit in radix up to 36: [0-9], then [a-z] or [A-Z]. *)
Definition digitValue (c : ascii) : option nat :=
  let n := nat_of_ascii c in
  if (48 <=? n) && (n <=? 57) then Some (n - 48)
  else if (97 <=? n) && (n <=? 122) then Some (n - 87)
  else if (65 <=? n) && (n <=? 90) then Some (n - 55)
  else None.

(** The longest prefix of digits below [radix], accumulated into [acc];
    [None] when no digit was read at all. *)
Fixpoint digitsGo (radix : nat) (s : string) (acc : nat) (seen : bool) : option nat :=
  match s with
  | String c s' =>
      match digitValue c with
      | Some k => if k <? radix then digitsGo radix s' (acc * radix + k) true
                  else if seen then Some acc else None
      | None => if seen then Some acc else None
      end
  | EmptyString => if seen then Some acc else None
  end.

(** [parseInt(string)] with no radix argument. *)
Definition parseInt (s : string) : JSNum :=
  let s1 := trimStart s in
  let '(neg, s2) :=
    match s1 with
    | String c r => if Ascii.eqb c "-"%char then (true, r)
                    else if Ascii.eqb c "+"%char then (false, r) else (false, s1)
    | EmptyString => (false, s1)
    end in
  let '(radix, s3) :=
    match s2 with
    | String z (String x r) =>
        if Ascii.eqb z "0"%char && (Ascii.eqb x "x"%char || Ascii.eqb x "X"%char)
        then (16, r) else (10, s2)
    | _ => (10, s2)
    end in
  match digitsGo radix s3 0 false with
  | Some v => JInt (if neg then - Z.of_nat v else Z.of_nat v)%Z
  | None => JNaN
  end.

(** [savedBest ? parseInt(savedBest) : 0]: a missing item ([null]) and the
    empty string are falsy. *)
Definition readBest (saved : option string) : JSNum :=
  match saved with
  | None | Some EmptyString => JInt 0
  | Some s => parseInt s
  end.

(** [localStorage.setItem(key, bestScore)]: the number as a string. *)
Definition writeBest (n : nat) : string := showNat n.

(** [score > bestScore] on JavaScript numbers: false against [NaN]. *)
Definition jsGt (a b : JSNum) : bool :=
  match a, b with JInt x, JInt y => (y <? x)%Z | _, _ => false end.

(** The best-score branch of [addScore] (lines 321-324) on the numbers the
    code can hold: the new best score and the string written, if any. *)
Definition bestUpdate (sc : nat) (best : JSNum) : JSNum * option string :=
  if jsGt (JInt (Z.of_nat sc)) best then (JInt (Z.of_nat sc), Some (writeBest sc))
  else (best, None).

(** [localStorage.getItem('justDivide_bestScore')] (line 283) when the
    item was last written by [addScore]: the string of [stored]. *)
Definition storedString (s : ScoreState) : option string := option_map writeBest (stored s).

(** Successive calls of [addScore] reaching the scores [scs], on the
    JavaScript best score: the final best score and the strings written to
    [localStorage], in order. *)
Fixpoint bestUpdates (scs : list nat) (best : JSNum) : JSNum * list string :=
  match scs with
  | [] => (best, [])
  | sc :: scs' =>
      let '(best', w) := bestUpdate sc best in
      let '(best'', ws) := bestUpdates scs' best' in
      (best'', option_list w ++ ws)
  end.

(** ** Lemmas *)

(** Evaluate [digitValue] on a literal character of the goal. *)
Ltac reduce_digitValue :=
  lazymatch goal with
  | |- context [digitValue ?c] => let v := eval vm_compute in (digitValue c) in change (digitValue c) with v
  end.

Lemma to_uint_nonnil n : Nat.to_uint n <> Decimal.Nil.
Proof.
  intros E. pose proof (Unsigned.of_to n) as H. rewrite E in H. simpl in H. subst n. discriminate.
Qed.

Lemma digitsGo_uint d acc :
  digitsGo 10 (NilEmpty.string_of_uint d) acc true = Some (Nat.of_uint_acc d acc).
Proof.
  revert acc. induction d; intros acc; [done|..]; cbn [NilEmpty.string_of_uint digitsGo Nat.of_uint_acc];
    rewrite ?Nat.tail_mul_spec; reduce_digitValue; simpl; rewrite IHd; do 2 f_equal; lia.
Qed.

Lemma digitsGo_uint_first d acc b :
  d <> Decimal.Nil -> digitsGo 10 (NilEmpty.string_of_uint d) acc b = Some (Nat.of_uint_acc d acc).
Proof.
  intros Hd. destruct b; [apply digitsGo_uint|].
  destruct d; [done|..]; cbn [NilEmpty.string_of_uint digitsGo Nat.of_uint_acc];
    rewrite ?Nat.tail_mul_spec; reduce_digitValue; simpl; rewrite digitsGo_uint; do 2 f_equal; lia.
Qed.

(** [parseInt] reads a nonempty digit string back: its first character is
    a digit, neither white space, a sign nor the start of [0x]. *)
Lemma parseInt_uint d :
  d <> Decimal.Nil -> parseInt (NilEmpty.string_of_uint d) = JInt (Z.of_nat (Nat.of_uint d)).
Proof.
  intros Hd. transitivity (match digitsGo 10 (NilEmpty.string_of_uint d) 0 false with
                           | Some v => JInt (Z.of_nat v) | None => JNaN end).
  - destruct d; [done|..]; destruct d; reflexivity.
  - by rewrite digitsGo_uint_first.
Qed.

(** [parseInt] reads [String(n)] back. *)
Lemma parseInt_showNat n : parseInt (showNat n) = JInt (Z.of_nat n).
Proof.
  unfold showNat, NilZero.string_of_uint. pose proof (to_uint_nonnil n) as Hn.
  rewrite <- (Unsigned.of_to n) at 2. destruct (Nat.to_uint n); [done|..]; by apply parseInt_uint.
Qed.

Lemma showNat_nonempty n : showNat n <> EmptyString.
Proof.
  unfold showNat, NilZero.string_of_uint. pose proof (to_uint_nonnil n).
  by destruct (Nat.to_uint n).
Qed.

(** A nonempty string is truthy: [readBest] parses it. *)
Lemma readBest_nonempty str : str <> EmptyString -> readBest (Some str) = parseInt str.
Proof. by destruct str. Qed.

Lemma jsGt_int (x y : nat) : jsGt (JInt (Z.of_nat x)) (JInt (Z.of_nat y)) = (y <? x).
Proof. simpl. destruct (Nat.ltb_spec y x); apply Z.ltb_lt || apply Z.ltb_ge; lia. Qed.

(** C26: [bestScore] is always an integer, never [NaN], for the strings the
    game writes.  Whatever the stored best score, reading it back gives
    the number [storedBest] of [Score]; and on an integer best score the
    JavaScript comparison and write of [addScore] compute exactly the new
    [bestScore] of [Score.addScore], writing the string of its stored value
    when, and only when, the best is beaten. *)
Theorem bestScore_is_integer s p :
  readBest (storedString s) = JInt (Z.of_nat (storedBest s)) /\
  bestUpdate (score s + p) (JInt (Z.of_nat (bestScore s))) =
    (JInt (Z.of_nat (bestScore (addScore p s))),
     if bestScore s <? score s + p then storedString (addScore p s) else None).
Proof.
  split.
  - unfold storedString, storedBest. destruct (stored s) as [b|]; [|done]. cbn [option_map].
    unfold writeBest. rewrite readBest_nonempty by apply showNat_nonempty. apply parseInt_showNat.
  - unfold bestUpdate, addScore, storedString. rewrite jsGt_int. by destruct (_ <? _).
Qed.

(** No score beats [NaN]: from a [NaN] best score, [addScore] neither
    changes it nor writes it. *)
Lemma bestUpdates_NaN scs : bestUpdates scs JNaN = (JNaN, []).
Proof. induction scs as [|sc scs IH]; [done|]. by cbn [bestUpdates bestUpdate jsGt]; rewrite IH. Qed.

(** A string whose first character after the white space is no sign and
    no decimal digit parses to [NaN]. *)
Lemma parseInt_no_digit s c rest :
  trimStart s = String c rest -> c <> "+"%char -> c <> "-"%char ->
  (forall k, digitValue c = Some k -> 10 <= k) -> parseInt s = JNaN.
Proof.
  intros Ht Hp Hm Hd. unfold parseInt. rewrite Ht.
  rewrite (proj2 (Ascii.eqb_neq _ _) Hm), (proj2 (Ascii.eqb_neq _ _) Hp).
  assert (c <> "0"%char) as H0 by (intros ->; specialize (Hd 0 eq_refl); lia).
  destruct rest as [|x r]; [|rewrite (proj2 (Ascii.eqb_neq _ _) H0)]; cbn [andb digitsGo];
    (destruct (digitValue c) as [k|] eqn:E; [|done]);
    specialize (Hd k eq_refl); by rewrite (proj2 (Nat.ltb_ge k 10)) by lia.
Qed.

Lemma trimStart_nonempty s c rest : trimStart s = String c rest -> s <> EmptyString.
Proof. by destruct s. Qed.

(** C35: a stored string the game did not write.  [startNewGame] trusts
    the item: any string whose first character after the leading white
    space is neither a sign nor a decimal digit (["abc"], ["  x1"], ["."])
    makes [bestScore] [NaN].  Then no score beats it: whatever scores the
    game reaches, successive [addScore] calls leave the best score [NaN]
    and never write it again, so the item stays corrupted for good. *)
Theorem corrupted_best_never_saved s c rest scs :
  trimStart s = String c rest -> c <> "+"%char -> c <> "-"%char ->
  (forall k, digitValue c = Some k -> 10 <= k) ->
  readBest (Some s) = JNaN /\ bestUpdates scs (readBest (Some s)) = (JNaN, []).
Proof.
  intros Ht Hp Hm Hd.
  assert (readBest (Some s) = JNaN) as Hr.
  { rewrite readBest_nonempty by exact (trimStart_nonempty s c rest Ht).
    exact (parseInt_no_digit s c rest Ht Hp Hm Hd). }
  rewrite Hr. split; [done|]. apply bestUpdates_NaN.
Qed.

Lemma corrupted_best_never_saved_witness :
  trimStart " abc"%string = String "a" "bc" /\
  readBest (Some " abc"%string) = JNaN /\
  bestUpdates [10; 40; 90] (readBest (Some " abc"%string)) = (JNaN, []).
Proof.
  split; [reflexivity|].
  apply (corrupted_best_never_saved " abc"%string "a"%char "bc"%string [10; 40; 90]);
    [reflexivity|discriminate|discriminate|].
  intros k Hk. vm_compute in Hk. injection Hk as <-. lia.
Defined.
