(* ===== verification/Merge.v ===== *)
(** * The match/divide cascade

    [checkMerges(index, scene)] of [src/main.js] (lines 476-571) looks at
    the neighbours of [index] in the order up, down, left, right and acts
    on the first occupied one that matches (equal values) or divides (the
    larger value is a multiple of the smaller one):
    - a match clears both cells (lines 502-516);
    - a divide clears the smaller tile's cell, writes the quotient into the
      larger tile's cell, adds 20 points at once and calls [checkMerges] on
      the surviving cell (lines 518-565).
    The 10 points of a match are added by the callback of its animation
    (lines 507-514), after [checkMerges] returns; so is the reset of
    [isMerging].  The model records each scheduled animation as a
    [ResolutionEvent]; [animationDone] is the callback it runs.

    The body of one call is [mergeStep]; it either stops or asks for the
    recursive call on the survivor.  [checkMerges] runs it on fuel and
    [resolves] is the unbounded recursion as a relation.  [createGridTile]
    (lines 457-462, with [restoreGridTile] of lines 464-474) places a tile
    and settles it; [checkIfMergePossible] (lines 827-843) is the hint
    predicate. *)

From S2P Require Import Prelude Tile Grid Score.
From Stdlib Require Import ZArith.

(** The animations [checkMerges] starts, one per resolution. *)
Inductive ResolutionEvent :=
  | MatchEvent (indexA indexB : nat)
  | DivideEvent (removedIndex survivorIndex newValue : nat).

#[export] Instance ResolutionEvent_eq_dec : EqDecision ResolutionEvent.
Proof. solve_decision. Defined.

(** The globals [checkMerges] reads and writes, and the animations it has
    started whose callbacks have not run yet. *)
Record MState := mkMS {
  ms_grid : Grid;
  ms_score : ScoreState;
  ms_merging : bool;      (** [isMerging] *)
  ms_events : list ResolutionEvent
}.

(** [big % small === 0]; [x % 0] is [NaN] in JavaScript, never [=== 0]. *)
Definition js_divides (big small : nat) : bool :=
  negb (small === 0) && (big %% small === 0).

(** Lines 489-496: [match] and [divide] for the current tile and a
    neighbour. *)
Definition qualify (cur nb : TileData) : bool * bool :=
  let m := value nb === value cur in
  let big := Nat.max (value cur) (value nb) in
  let small := Nat.min (value cur) (value nb) in
  (m, negb m && js_divides big small).

(** [match || divide]. *)
Definition qualifies (cur nb : TileData) : bool :=
  let '(m, d) := qualify cur nb in m || d.
Arguments qualifies : simpl never.

(** The [for (let pos of neighbors)] loop up to its first [match || divide]. *)
Fixpoint findPartner (cur : TileData) (g : Grid) (ps : list (Z * Z))
    : option (nat * TileData) :=
  match ps with
  | [] => None
  | p :: ps' =>
      if inBounds p then
        match g !! posIndex p with
        | Some (Some nb) =>
            if qualifies cur nb then Some (posIndex p, nb) else findPartner cur g ps'
        | _ => findPartner cur g ps'
        end
      else findPartner cur g ps'
  end.

Inductive MergeStep :=
  | Stop (s : MState)
  | Continue (survivorIndex : nat) (s : MState).

(** One call of [checkMerges], without its recursive call. *)
Definition mergeStep (index : nat) (s : MState) : MergeStep :=
  let g := ms_grid s in
  match g !! index with
  | Some (Some cur) =>
      match findPartner cur g (neighborPositions index) with
      | None => Stop s
      | Some (nIndex, nb) =>
          let '(m, d) := qualify cur nb in
          let big := Nat.max (value cur) (value nb) in
          let small := Nat.min (value cur) (value nb) in
          if m || (d && (big / small === 1)) then
            Stop (mkMS (<[nIndex:=None]> (<[index:=None]> g)) (ms_score s) true
                    (ms_events s ++ [MatchEvent index nIndex]))
          else if d then
            let result := big / small in
            if value cur === small then
              Continue nIndex
                (mkMS (<[nIndex:=Some (mkTile result (texture nb))]> (<[index:=None]> g))
                   (addScore 20 (ms_score s)) true
                   (ms_events s ++ [DivideEvent index nIndex result]))
            else
              Continue index
                (mkMS (<[index:=Some (mkTile result (texture cur))]> (<[nIndex:=None]> g))
                   (addScore 20 (ms_score s)) true
                   (ms_events s ++ [DivideEvent nIndex index result]))
          else Stop (mkMS g (ms_score s) true (ms_events s))
      end
  | _ => Stop s
  end.

(** [checkMerges] with a bound on its recursion depth. *)
Fixpoint checkMerges (fuel index : nat) (s : MState) : MState :=
  match fuel with
  | 0 => s
  | S fuel' =>
      match mergeStep index s with
      | Stop s' => s'
      | Continue j s' => checkMerges fuel' j s'
      end
  end.

(** [checkMerges] as written: the recursion, with no bound. *)
Inductive resolves : nat -> MState -> MState -> Prop :=
  | resolves_stop i s s' :
      mergeStep i s = Stop s' -> resolves i s s'
  | resolves_continue i j s s' s'' :
      mergeStep i s = Continue j s' -> resolves j s' s'' -> resolves i s s''.

(** [createGridTile]: [grid[index] = { value, obj }], then [checkMerges],
    then [checkLevelUp].  Sixteen calls bound the recursion on a 16-cell
    board ([checkMerges_resolves] below). *)
Definition createGridTile (index : nat) (t : TileData) (s : MState) : MState :=
  let s1 := mkMS (<[index:=Some t]> (ms_grid s)) (ms_score s) (ms_merging s) (ms_events s) in
  let s2 := checkMerges 16 index s1 in
  mkMS (ms_grid s2) (checkLevelUp (ms_score s2)) (ms_merging s2) (ms_events s2).

(** The callback of the oldest pending merge animation: [addScore(10)] for
    a match, and [isMerging = false] for both kinds. *)
Definition animationDone (s : MState) : MState :=
  match ms_events s with
  | [] => s
  | MatchEvent _ _ :: evs => mkMS (ms_grid s) (addScore 10 (ms_score s)) false evs
  | DivideEvent _ _ _ :: evs => mkMS (ms_grid s) (ms_score s) false evs
  end.

(** All pending merge animations complete, oldest first. *)
Fixpoint animationsDone (n : nat) (s : MState) : MState :=
  match n with 0 => s | S n' => animationsDone n' (animationDone s) end.

(** [checkIfMergePossible(index, incomingValue)]. *)
Fixpoint hintScan (g : Grid) (v : nat) (ps : list (Z * Z)) : bool :=
  match ps with
  | [] => false
  | p :: ps' =>
      if inBounds p then
        match g !! posIndex p with
        | Some (Some nb) =>
            if value nb === v then true
            else
              let big := Nat.max (value nb) v in
              let small := Nat.min (value nb) v in
              if js_divides big small then true else hintScan g v ps'
        | _ => hintScan g v ps'
        end
      else hintScan g v ps'
  end.

Definition checkIfMergePossible (g : Grid) (index v : nat) : bool :=
  hintScan g v (neighborPositions index).

(** Net effect of a list of resolutions on the tile count and the score. *)
Definition removedBy (e : ResolutionEvent) : nat :=
  match e with MatchEvent _ _ => 2 | DivideEvent _ _ _ => 1 end.

Definition dividePoints (e : ResolutionEvent) : nat :=
  match e with MatchEvent _ _ => 0 | DivideEvent _ _ _ => 20 end.

Definition sum_by (f : ResolutionEvent -> nat) (evs : list ResolutionEvent) : nat :=
  foldr (fun e acc => f e + acc) 0 evs.

(** ** The neighbour search *)

Lemma qualifies_sym x y : qualifies x y = qualifies y x.
Proof.
  unfold qualifies, qualify, js_divides.
  rewrite (Nat.eqb_sym (value y)), Nat.max_comm, Nat.min_comm. done.
Qed.

(** [qualifies] as arithmetic: equal values, or the smaller (non-zero)
    value divides the larger. *)
Lemma qualifies_spec x y :
  qualifies x y = true <->
  value x = value y \/
  (value x <> value y /\ Nat.min (value x) (value y) <> 0 /\
   Nat.max (value x) (value y) mod Nat.min (value x) (value y) = 0).
Proof.
  unfold qualifies, qualify, js_divides.
  destruct (value y =? value x) eqn:E; jd_bool; simpl.
  - split; [lia|done].
  - rewrite andb_true_iff, negb_true_iff, !Nat.eqb_eq, Nat.eqb_neq. lia.
Qed.

Lemma findPartner_Some cur g ps j nb :
  findPartner cur g ps = Some (j, nb) ->
  exists p, p ∈ ps /\ inBounds p = true /\ j = posIndex p /\
    g !! j = Some (Some nb) /\ qualifies cur nb = true.
Proof.
  induction ps as [|p ps IH]; simpl; [done|].
  destruct (inBounds p) eqn:Hb; [|intros (p' & ? & ?)%IH; exists p'; split; [by right|done]].
  destruct (g !! posIndex p) as [[nb'|]|] eqn:Hg;
    try (intros (p' & ? & ?)%IH; exists p'; split; [by right|done]).
  destruct (qualifies cur nb') eqn:Hq.
  - intros H; simplify_eq. exists p. repeat split; [by left|done..].
  - intros (p' & ? & ?)%IH; exists p'; split; [by right|done].
Qed.

(** Neighbours that cannot be partners are skipped by the search. *)
Lemma findPartner_skip cur g pre ps :
  (forall p', p' ∈ pre -> inBounds p' = true ->
     forall nb', g !! posIndex p' = Some (Some nb') -> qualifies cur nb' = false) ->
  findPartner cur g (pre ++ ps) = findPartner cur g ps.
Proof.
  induction pre as [|p pre IH]; intros Hpre; [done|]. cbn [app findPartner].
  rewrite IH by (intros p' Hp'; apply Hpre; by right).
  destruct (inBounds p) eqn:Hb; [|done].
  destruct (g !! posIndex p) as [[nb'|]|] eqn:Hg; [|done..].
  by rewrite (Hpre p ltac:(left) Hb nb' Hg).
Qed.

(** C6: the tie-break of [checkMerges].  The neighbour search returns
    [(j, nb)] exactly when, in the order up, down, left, right, the
    position of [j] is the first one that is in bounds and holds a tile
    [nb] that matches or divides the current tile: [j] itself is in
    bounds, holds [nb], and [nb] qualifies, and every position before it
    is out of bounds, empty, or holds a tile that neither matches nor
    divides. *)
Theorem findPartner_first cur g ps j nb :
  findPartner cur g ps = Some (j, nb) <->
  exists pre p post, ps = pre ++ p :: post /\ inBounds p = true /\ j = posIndex p /\
    g !! j = Some (Some nb) /\ qualifies cur nb = true /\
    forall p', p' ∈ pre -> inBounds p' = true ->
      forall nb', g !! posIndex p' = Some (Some nb') -> qualifies cur nb' = false.
Proof.
  split.
  - induction ps as [|p ps IH]; [done|].
    assert (Hnext : (inBounds p = true -> forall nb', g !! posIndex p = Some (Some nb') ->
                       qualifies cur nb' = false) ->
      findPartner cur g ps = Some (j, nb) ->
      exists pre p0 post, p :: ps = pre ++ p0 :: post /\ inBounds p0 = true /\
        j = posIndex p0 /\ g !! j = Some (Some nb) /\ qualifies cur nb = true /\
        forall p', p' ∈ pre -> inBounds p' = true ->
          forall nb', g !! posIndex p' = Some (Some nb') -> qualifies cur nb' = false).
    { intros Hp (pre & p0 & post & -> & Hrest)%IH.
      exists (p :: pre), p0, post. split; [done|].
      destruct Hrest as (Hb0 & Hj & Hg & Hq & Hpre). repeat split; [done..|].
      intros p' [->|Hin]%elem_of_cons; eauto. }
    cbn [findPartner]. destruct (inBounds p) eqn:Hb; [|apply Hnext; congruence].
    destruct (g !! posIndex p) as [[nb'|]|] eqn:Hg; [|apply Hnext; intros _ ? [=]..].
    destruct (qualifies cur nb') eqn:Hq.
    + intros [= <- <-]. exists [], p, ps. repeat split; [done..|].
      intros p' Hp'. inversion Hp'.
    + apply Hnext. intros _ nb'' Hg'. congruence.
  - intros (pre & p & post & -> & Hb & -> & Hg & Hq & Hpre).
    rewrite findPartner_skip by done. cbn [findPartner]. by rewrite Hb, Hg, Hq.
Qed.

Lemma findPartner_None cur g ps :
  findPartner cur g ps = None <->
  forall p, p ∈ ps -> inBounds p = true ->
    forall nb, g !! posIndex p = Some (Some nb) -> qualifies cur nb = false.
Proof.
  induction ps as [|p ps IH]; simpl.
  - split; [intros _ p Hp; inversion Hp|done].
  - setoid_rewrite elem_of_cons.
    destruct (inBounds p) eqn:Hb.
    + destruct (g !! posIndex p) as [[nb'|]|] eqn:Hg.
      * destruct (qualifies cur nb') eqn:Hq.
        -- split; [done|]. intros H. exfalso.
           assert (qualifies cur nb' = false) as Hf by (eapply H; eauto).
           congruence.
        -- rewrite IH. split; [|eauto].
           intros H p' [->|Hin] Hb' nb Hnb; [|eauto].
           rewrite Hg in Hnb. by injection Hnb as <-.
      * rewrite IH. split; [|eauto]. intros H p' [->|Hin] ? nb Hnb; [congruence|eauto].
      * rewrite IH. split; [|eauto]. intros H p' [->|Hin] ? nb Hnb; [congruence|eauto].
    + rewrite IH. split; [|eauto]. intros H p' [->|Hin] ? nb Hnb; [congruence|eauto].
Qed.

(** An in-bounds neighbour position is a neighbour of the cell, and never
    the cell itself. *)
Lemma neighborPosition_index i p :
  p ∈ neighborPositions i -> inBounds p = true ->
  posIndex p ∈ neighborsOf i /\ posIndex p <> i.
Proof.
  intros Hp Hb. split.
  - unfold neighborsOf. apply list_elem_of_In, in_map, filter_In.
    split; [by apply list_elem_of_In|done].
  - unfold neighborPositions, inBounds, posIndex in *.
    pose proof (Nat.div_mod_eq i 4). pose proof (Nat.mod_upper_bound i 4).
    repeat rewrite elem_of_cons in Hp. rewrite elem_of_nil in Hp.
    rewrite !andb_true_iff, !Z.leb_le, !Z.ltb_lt in Hb.
    destruct Hp as [->|[->|[->|[->|[]]]]]; simpl in *; lia.
Qed.

(** ** One step of the cascade *)

Lemma quotient_ge_2 big small :
  small <> 0 -> small < big -> big mod small = 0 -> 2 <= big / small.
Proof.
  intros Hs Hlt Hm. pose proof (Nat.div_mod_eq big small) as Hd.
  rewrite Hm, Nat.add_0_r in Hd.
  destruct (big / small) as [|[|k]]; lia.
Qed.

(** The four outcomes of one call of [checkMerges]. *)
Lemma mergeStep_cases i s :
  let g := ms_grid s in
  (mergeStep i s = Stop s /\
     forall cur, g !! i = Some (Some cur) -> findPartner cur g (neighborPositions i) = None) \/
  (exists cur j nb, g !! i = Some (Some cur) /\
     findPartner cur g (neighborPositions i) = Some (j, nb) /\ value nb = value cur /\
     mergeStep i s = Stop (mkMS (<[j:=None]> (<[i:=None]> g)) (ms_score s) true
                            (ms_events s ++ [MatchEvent i j]))) \/
  (exists cur j nb, g !! i = Some (Some cur) /\
     findPartner cur g (neighborPositions i) = Some (j, nb) /\
     value cur < value nb /\ value cur <> 0 /\ value nb mod value cur = 0 /\
     mergeStep i s = Continue j
       (mkMS (<[j:=Some (mkTile (value nb / value cur) (texture nb))]> (<[i:=None]> g))
          (addScore 20 (ms_score s)) true
          (ms_events s ++ [DivideEvent i j (value nb / value cur)]))) \/
  (exists cur j nb, g !! i = Some (Some cur) /\
     findPartner cur g (neighborPositions i) = Some (j, nb) /\
     value nb < value cur /\ value nb <> 0 /\ value cur mod value nb = 0 /\
     mergeStep i s = Continue i
       (mkMS (<[i:=Some (mkTile (value cur / value nb) (texture cur))]> (<[j:=None]> g))
          (addScore 20 (ms_score s)) true
          (ms_events s ++ [DivideEvent j i (value cur / value nb)]))).
Proof.
  cbn zeta. unfold mergeStep.
  destruct (ms_grid s !! i) as [[cur|]|] eqn:Hi; [|left; split; [done|congruence]..].
  destruct (findPartner cur _ _) as [[j nb]|] eqn:Hf;
    [|left; split; [done|intros ? [= <-]; done]].
  pose proof Hf as (_ & _ & _ & _ & _ & Hq)%findPartner_Some.
  apply qualifies_spec in Hq.
  unfold qualify, js_divides.
  destruct (value nb =? value cur) eqn:Em; jd_bool; cbn [orb andb negb].
  - right; left. by exists cur, j, nb.
  - destruct Hq as [Hq|(Hne & Hs & Hm)]; [lia|].
    destruct (Nat.lt_ge_cases (value cur) (value nb)) as [Hlt|Hge].
    + rewrite Nat.max_r, Nat.min_l in * by lia.
      pose proof (quotient_ge_2 (value nb) (value cur) Hs Hlt Hm).
      rewrite (proj2 (Nat.eqb_neq (value nb / value cur) 1)) by lia.
      rewrite (proj2 (Nat.eqb_eq (value nb mod value cur) 0)), Nat.eqb_refl by done.
      rewrite (proj2 (Nat.eqb_neq (value cur) 0)) by done. cbn.
      right; right; left. by exists cur, j, nb.
    + rewrite Nat.max_l, Nat.min_r in * by lia.
      pose proof (quotient_ge_2 (value cur) (value nb) Hs ltac:(lia) Hm).
      rewrite (proj2 (Nat.eqb_neq (value cur / value nb) 1)) by lia.
      rewrite (proj2 (Nat.eqb_eq (value cur mod value nb) 0)) by done.
      rewrite (proj2 (Nat.eqb_neq (value nb) 0)) by done.
      rewrite (proj2 (Nat.eqb_neq (value cur) (value nb))) by lia. cbn.
      right; right; right. exists cur, j, nb. repeat split; lia || done.
Qed.

Lemma partner_spec cur g i j nb :
  findPartner cur g (neighborPositions i) = Some (j, nb) ->
  g !! j = Some (Some nb) /\ j <> i /\ j ∈ neighborsOf i /\ qualifies cur nb = true.
Proof.
  intros (p & Hp & Hb & -> & Hg & Hq)%findPartner_Some.
  destruct (neighborPosition_index i p Hp Hb). done.
Qed.

Definition stepState (r : MergeStep) : MState :=
  match r with Stop s => s | Continue _ s => s end.

Lemma mergeStep_unoccupied i s :
  (forall cur, ms_grid s !! i <> Some (Some cur)) -> mergeStep i s = Stop s.
Proof.
  intros H. unfold mergeStep. destruct (ms_grid s !! i) as [[cur|]|]; [|done..].
  by destruct (H cur).
Qed.

(** One call removes one tile per divide and two per match, adds 20
    points per divide, and records what it did. *)
Lemma mergeStep_effect i s :
  let s' := stepState (mergeStep i s) in
  exists ev, ms_events s' = ms_events s ++ ev /\
    count_occupied (ms_grid s) = count_occupied (ms_grid s') + sum_by removedBy ev /\
    score (ms_score s') = score (ms_score s) + sum_by dividePoints ev /\
    length (ms_grid s') = length (ms_grid s) /\
    (forall j s'', mergeStep i s = Continue j s'' -> exists a b v, ev = [DivideEvent a b v]).
Proof.
  cbn zeta. unfold count_occupied.
  destruct (mergeStep_cases i s) as
    [[-> _]|[(cur & j & nb & Hi & Hf & Hv & ->)|[(cur & j & nb & Hi & Hf & Hlt & Hz & Hm & ->)|
      (cur & j & nb & Hi & Hf & Hlt & Hz & Hm & ->)]]];
    [exists []; rewrite app_nil_r; split; [done|]; split; [simpl; lia|];
      split; [simpl; lia|]; split; [done|intros ? ? [=]]|..];
    destruct (partner_spec _ _ _ _ _ Hf) as (Hj & Hne & _ & _); simpl.
  - exists [MatchEvent i j]. split; [done|]. split; [|split; [simpl; lia|split; [rewrite !length_insert; lia|intros ? ? [=]]]].
    rewrite <- (count_some_clear _ i cur Hi).
    rewrite <- (count_some_clear _ j nb) by (rewrite list_lookup_insert_ne; auto).
    simpl; lia.
  - exists [DivideEvent i j (value nb / value cur)].
    rewrite addScore_score. split; [done|]. split; [|split; [simpl; lia|split; [rewrite !length_insert; lia|by eauto]]].
    rewrite count_some_replace with (y := nb) by (rewrite list_lookup_insert_ne; auto).
    rewrite <- (count_some_clear _ i cur Hi). simpl; lia.
  - exists [DivideEvent j i (value cur / value nb)].
    rewrite addScore_score. split; [done|]. split; [|split; [simpl; lia|split; [rewrite !length_insert; lia|by eauto]]].
    rewrite count_some_replace with (y := cur) by (rewrite list_lookup_insert_ne; auto).
    rewrite <- (count_some_clear _ j nb Hj). simpl; lia.
Qed.

Lemma mergeStep_continue_count i j s s' :
  mergeStep i s = Continue j s' ->
  S (count_occupied (ms_grid s')) = count_occupied (ms_grid s).
Proof.
  intros E. destruct (mergeStep_effect i s) as (ev & _ & Hc & _ & _ & Hd).
  rewrite E in Hc. destruct (Hd j s' E) as (a & b & v & ->). simpl in Hc. lia.
Qed.

(** With as much fuel as there are tiles, [checkMerges] computes the
    unbounded recursion. *)
Lemma checkMerges_resolves fuel i s :
  count_occupied (ms_grid s) <= fuel -> resolves i s (checkMerges fuel i s).
Proof.
  revert i s. induction fuel as [|fuel IH]; intros i s Hc; simpl.
  - constructor. apply mergeStep_unoccupied. intros cur Hi.
    pose proof (count_some_clear_lt _ _ _ Hi). unfold count_occupied in Hc. lia.
  - destruct (mergeStep i s) as [s'|j s'] eqn:E; [by constructor|].
    econstructor; [done|]. apply IH.
    pose proof (mergeStep_continue_count _ _ _ _ E). lia.
Qed.

Lemma resolves_det i s s1 s2 : resolves i s s1 -> resolves i s s2 -> s1 = s2.
Proof.
  intros H1. revert s2. induction H1 as [i s s1 E|i j s s' s1 E H1 IH];
    intros s2 H2; inversion H2; subst; congruence || (rewrite E in *; simplify_eq; eauto).
Qed.

Lemma sum_by_app f l1 l2 : sum_by f (l1 ++ l2) = sum_by f l1 + sum_by f l2.
Proof. induction l1 as [|e l1 IH]; simpl; lia. Qed.

(** ** The whole cascade *)

Lemma resolves_effect i s s' :
  resolves i s s' ->
  exists ev, ms_events s' = ms_events s ++ ev /\
    count_occupied (ms_grid s) = count_occupied (ms_grid s') + sum_by removedBy ev /\
    score (ms_score s') = score (ms_score s) + sum_by dividePoints ev /\
    length (ms_grid s') = length (ms_grid s).
Proof.
  induction 1 as [i s s' E|i j s s' s'' E _ IH].
  - destruct (mergeStep_effect i s) as (ev & ? & ? & ? & ? & _).
    rewrite E in *. by exists ev.
  - destruct (mergeStep_effect i s) as (ev1 & He1 & Hc1 & Hs1 & Hl1 & _).
    rewrite E in *; simpl in *.
    destruct IH as (ev2 & He2 & Hc2 & Hs2 & Hl2).
    exists (ev1 ++ ev2). rewrite He2, He1, <- app_assoc, !sum_by_app.
    split; [done|]. lia.
Qed.

Definition values_ok (g : Grid) : Prop := cells_ok (fun t => 2 <= value t) g.

Lemma mergeStep_values i s :
  values_ok (ms_grid s) -> values_ok (ms_grid (stepState (mergeStep i s))).
Proof.
  intros Hv. unfold values_ok in *.
  destruct (mergeStep_cases i s) as
    [[-> _]|[(cur & j & nb & Hi & Hf & _ & ->)|[(cur & j & nb & Hi & Hf & Hlt & Hz & Hm & ->)|
      (cur & j & nb & Hi & Hf & Hlt & Hz & Hm & ->)]]]; simpl; [done|..];
    repeat apply cells_ok_insert; try done; intros x [= <-]; simpl;
    apply quotient_ge_2; lia.
Qed.

Lemma resolves_values i s s' :
  resolves i s s' -> values_ok (ms_grid s) -> values_ok (ms_grid s').
Proof.
  induction 1 as [i s s' E|i j s s' s'' E _ IH]; intros Hv;
    pose proof (mergeStep_values i s Hv) as Hv'; rewrite E in Hv'; auto.
Qed.

(** ** Settled boards: no two neighbours match or divide *)

Definition pairOk (g : Grid) (a b : nat) : Prop :=
  forall x y, g !! a = Some (Some x) -> g !! b = Some (Some y) -> qualifies x y = false.

(** Every neighbouring pair is inert, except possibly pairs involving the
    cell [k]. *)
Definition settled_except (g : Grid) (k : option nat) : Prop :=
  forall a b, b ∈ neighborsOf a -> Some a <> k -> Some b <> k -> pairOk g a b.

Definition settled (g : Grid) : Prop := settled_except g None.

Lemma settled_transfer g g' i k :
  settled_except g (Some i) ->
  (forall c, Some c <> k ->
     (g' !! c = g !! c /\ c <> i) \/ (forall x, g' !! c <> Some (Some x))) ->
  settled_except g' k.
Proof.
  intros Hs Hc a b Hab Ha Hb x y Hx Hy.
  destruct (Hc a Ha) as [[Ea Na]|Ea]; [|by destruct (Ea x)].
  destruct (Hc b Hb) as [[Eb Nb]|Eb]; [|by destruct (Eb y)].
  rewrite Ea in Hx. rewrite Eb in Hy.
  apply (Hs a b Hab); congruence.
Qed.

Lemma neighborsOf_pos a b :
  b ∈ neighborsOf a -> exists p, p ∈ neighborPositions a /\ inBounds p = true /\ b = posIndex p.
Proof.
  unfold neighborsOf. intros Hb. apply list_elem_of_In, in_map_iff in Hb as (p & <- & Hp).
  apply filter_In in Hp as [Hp Hb]. exists p. split; [by apply list_elem_of_In|done].
Qed.

(** The cell [i] has no qualifying neighbour: with the rest settled, the
    whole board is settled. *)
Lemma settled_close g i :
  length g = 16 -> settled_except g (Some i) ->
  (forall cur, g !! i = Some (Some cur) ->
     findPartner cur g (neighborPositions i) = None) ->
  settled g.
Proof.
  intros Hl Hs Hn a b Hab _ _ x y Hx Hy.
  destruct (decide (a = i)) as [->|Ha].
  - destruct (neighborsOf_pos _ _ Hab) as (p & Hp & Hb & ->).
    eapply findPartner_None; [apply (Hn x Hx)|done..].
  - destruct (decide (b = i)) as [->|Hb]; [|eapply Hs; eauto; congruence].
    pose proof (lookup_lt_Some _ _ _ Hx) as Ha16.
    destruct (neighborsOf_spec a ltac:(lia) i Hab) as (_ & _ & Hia).
    destruct (neighborsOf_pos _ _ Hia) as (p & Hp & Hb & Hpa).
    rewrite qualifies_sym. rewrite Hpa in Hx.
    eapply findPartner_None; [apply (Hn y Hy)|done..].
Qed.

(** Case analysis of a cell after two writes. *)
Ltac cell_cases c :=
  repeat match goal with
  | |- context [<[?k:=_]> _ !! c] =>
      destruct (decide (k = c)) as [<-|?];
      [rewrite list_lookup_insert_eq by (rewrite ?length_insert; eapply lookup_lt_Some; eauto)
      |rewrite list_lookup_insert_ne by done]
  end.

Lemma mergeStep_settled i s :
  length (ms_grid s) = 16 -> settled_except (ms_grid s) (Some i) ->
  match mergeStep i s with
  | Stop s' => settled (ms_grid s')
  | Continue k s' => settled_except (ms_grid s') (Some k)
  end.
Proof.
  intros Hl Hs.
  destruct (mergeStep_cases i s) as
    [[-> Hn]|[(cur & j & nb & Hi & Hf & _ & ->)|[(cur & j & nb & Hi & Hf & Hlt & Hz & Hm & ->)|
      (cur & j & nb & Hi & Hf & Hlt & Hz & Hm & ->)]]];
    [by eapply settled_close|..];
    destruct (partner_spec _ _ _ _ _ Hf) as (Hj & Hne & _ & _);
    apply (settled_transfer _ _ _ _ Hs); intros c Hc; simpl; cell_cases c;
    first [right; congruence | left; split; [done|congruence]].
Qed.

Lemma resolves_settled i s s' :
  resolves i s s' -> length (ms_grid s) = 16 ->
  settled_except (ms_grid s) (Some i) -> settled (ms_grid s').
Proof.
  induction 1 as [i s s' E|i j s s' s'' E _ IH]; intros Hl Hs;
    pose proof (mergeStep_settled i s Hl Hs) as H; rewrite E in H; [done|].
  apply IH; [|done].
  destruct (mergeStep_effect i s) as (_ & _ & _ & _ & Hl' & _). rewrite E in Hl'. simpl in Hl'. lia.
Qed.

Lemma hintScan_findPartner g v t ps :
  hintScan g v ps =
  match findPartner (mkTile v t) g ps with Some _ => true | None => false end.
Proof.
  induction ps as [|p ps IH]; simpl; [done|].
  destruct (inBounds p); [|done].
  destruct (g !! posIndex p) as [[nb|]|]; [|done..].
  unfold qualifies, qualify; simpl.
  rewrite (Nat.max_comm v), (Nat.min_comm v).
  destruct (value nb =? v); simpl; [done|].
  by destruct (js_divides _ _).
Qed.

Lemma findPartner_insert_other cur g ps i o :
  (forall p, p ∈ ps -> inBounds p = true -> posIndex p <> i) ->
  findPartner cur (<[i:=o]> g) ps = findPartner cur g ps.
Proof.
  induction ps as [|p ps IH]; intros Hne; simpl; [done|].
  rewrite IH by (intros; apply Hne; [by right|done]).
  destruct (inBounds p) eqn:Hb; [|done].
  rewrite list_lookup_insert_ne by (symmetry; apply Hne; [by left|done]). done.
Qed.

Lemma createGridTile_resolves i t s :
  length (ms_grid s) = 16 ->
  let s1 := mkMS (<[i:=Some t]> (ms_grid s)) (ms_score s) (ms_merging s) (ms_events s) in
  resolves i s1 (checkMerges 16 i s1).
Proof.
  intros Hl. apply checkMerges_resolves. simpl.
  pose proof (count_some_le_length (<[i:=Some t]> (ms_grid s))).
  rewrite length_insert in *. unfold count_occupied. lia.
Qed.

(** C1: termination of the cascade.  On a 16-cell board the recursion of
    [checkMerges] always ends: the fuelled [checkMerges 16] is a result of
    the unbounded recursion [resolves], it is the only one, and more fuel
    changes nothing.  (Each recursive call follows a divide, which removes
    one of at most 16 tiles.) *)
Theorem checkMerges_terminates i s :
  length (ms_grid s) = 16 ->
  resolves i s (checkMerges 16 i s) /\
  (forall s', resolves i s s' -> s' = checkMerges 16 i s) /\
  (forall fuel, 16 <= fuel -> checkMerges fuel i s = checkMerges 16 i s).
Proof.
  intros Hl.
  assert (count_occupied (ms_grid s) <= 16) as Hc.
  { unfold count_occupied. rewrite <- Hl. apply count_some_le_length. }
  pose proof (checkMerges_resolves 16 i s Hc) as H16.
  split; [done|]. split.
  - intros s' H. eapply resolves_det; eauto.
  - intros fuel Hf. eapply resolves_det; [|done]. apply checkMerges_resolves. lia.
Qed.

Definition scenario_start : MState :=
  mkMS empty_grid (mkScore 0 0 1 10 None) false [].

Lemma checkMerges_terminates_witness :
  length (ms_grid scenario_start) = 16 /\
  resolves 5 scenario_start (checkMerges 16 5 scenario_start).
Proof.
  split; [reflexivity|]. apply (checkMerges_terminates 5 scenario_start). reflexivity.
Defined.

Lemma settled_weaken g k : settled g -> settled_except g k.
Proof. intros Hs a b Hab _ _. apply Hs; congruence. Qed.

(** Writing the placed tile leaves every pair away from it inert. *)
Lemma settled_place g i t :
  settled g -> settled_except (<[i:=Some t]> g) (Some i).
Proof.
  intros Hs. apply (settled_transfer g _ i); [by apply settled_weaken|].
  intros c Hc. left. rewrite list_lookup_insert_ne by congruence. split; congruence.
Qed.

(** The board invariant of a settled game: 16 cells, values at least 2,
    no neighbouring pair that matches or divides. *)
Definition board_ok (g : Grid) : Prop := grid_wf g /\ settled g.

Lemma createGridTile_keeps_board i t s :
  board_ok (ms_grid s) -> ms_grid s !! i = Some None -> 2 <= value t ->
  board_ok (ms_grid (createGridTile i t s)).
Proof.
  intros [[Hl Hv] Hs] Hi Ht.
  pose proof (createGridTile_resolves i t s Hl) as Hr. simpl in Hr.
  destruct (resolves_effect _ _ _ Hr) as (_ & _ & _ & _ & Hl'). simpl in Hl'.
  rewrite length_insert in Hl'.
  split; [split|]; simpl.
  - lia.
  - eapply resolves_values; [done|]. simpl. apply cells_ok_insert; [done|by intros ? [= <-]].
  - eapply resolves_settled; [done|simpl; by rewrite length_insert|]. by apply settled_place.
Qed.

(** C2: placing a tile of value at least 2 on an empty cell of a board
    that satisfies the invariant, and settling it with [createGridTile],
    gives a board that satisfies it again: in particular no two
    neighbouring tiles are left that match or divide. *)
Theorem createGridTile_board_ok i t s :
  board_ok (ms_grid s) -> ms_grid s !! i = Some None -> 2 <= value t ->
  board_ok (ms_grid (createGridTile i t s)).
Proof. apply createGridTile_keeps_board. Qed.

Lemma empty_board_ok : board_ok empty_grid.
Proof.
  split; [split; [done|]|].
  - intros i x Hx. apply lookup_replicate in Hx as [[=] _].
  - intros a b _ _ _ x y Hx. apply lookup_replicate in Hx as [[=] _].
Qed.

Lemma createGridTile_board_ok_witness :
  board_ok (ms_grid scenario_start) /\ ms_grid scenario_start !! 5 = Some None /\
  2 <= value (mkTile 6 tile_blue) /\
  board_ok (ms_grid (createGridTile 5 (mkTile 6 tile_blue) scenario_start)).
Proof.
  split; [apply empty_board_ok|]. split; [reflexivity|]. split; [simpl; lia|].
  apply createGridTile_board_ok; [apply empty_board_ok|reflexivity|simpl; lia].
Defined.

Lemma resolves_level i s s' :
  resolves i s s' ->
  level (ms_score s') = level (ms_score s) /\ trashCount (ms_score s') = trashCount (ms_score s).
Proof.
  induction 1 as [i s s' E|i j s s' s'' E _ IH];
    destruct (mergeStep_cases i s) as
      [[E' _]|[(? & ? & ? & _ & _ & _ & E')|[(? & ? & ? & _ & _ & _ & _ & _ & E')|
        (? & ? & ? & _ & _ & _ & _ & _ & E')]]];
    rewrite E' in E; simplify_eq; simpl in *;
    rewrite ?(proj1 IH), ?(proj2 IH), ?addScore_level, ?addScore_trash; done.
Qed.

Lemma createGridTile_trash i t s :
  length (ms_grid s) = 16 -> trashCount (ms_score s) <= 10 ->
  trashCount (ms_score (createGridTile i t s)) <= 10.
Proof.
  intros Hl Ht. pose proof (createGridTile_resolves i t s Hl) as Hr.
  destruct (resolves_level _ _ _ Hr) as [_ Htr]. cbn [ms_score] in Htr.
  unfold createGridTile. cbn zeta. cbn [ms_score].
  unfold checkLevelUp. destruct (_ <? _); cbn [trashCount]; lia.
Qed.

(** A placement never lowers the score and brings the level up to the
    score it reaches. *)
Lemma createGridTile_scoring i t s :
  length (ms_grid s) = 16 ->
  let s' := createGridTile i t s in
  score (ms_score s) <= score (ms_score s') /\
  level (ms_score s') = Nat.max (level (ms_score s)) (levelOf (score (ms_score s'))).
Proof.
  intros Hl. pose proof (createGridTile_resolves i t s Hl) as Hr.
  destruct (resolves_level _ _ _ Hr) as [Hlv _].
  destruct (resolves_effect _ _ _ Hr) as (ev & _ & _ & Hs & _). simpl in *.
  rewrite checkLevelUp_level, checkLevelUp_score, Hlv. split; [lia|done].
Qed.

(** C3: conservation.  Placing a tile on an empty cell and settling it
    records the resolutions it performed; the occupied-cell count goes up
    by one and down by one per divide and two per match, so it never grows
    by more than one; the score grows by 20 per divide (the 10 points of a
    match come later, in [animationDone]); the level is brought up to the
    score. *)
Theorem createGridTile_conservation i t s :
  length (ms_grid s) = 16 -> ms_grid s !! i = Some None ->
  let s' := createGridTile i t s in
  exists ev, ms_events s' = ms_events s ++ ev /\
    count_occupied (ms_grid s') + sum_by removedBy ev = S (count_occupied (ms_grid s)) /\
    score (ms_score s') = score (ms_score s) + sum_by dividePoints ev /\
    level (ms_score s') = Nat.max (level (ms_score s)) (levelOf (score (ms_score s'))).
Proof.
  intros Hl Hi. pose proof (createGridTile_resolves i t s Hl) as Hr.
  destruct (resolves_level _ _ _ Hr) as [Hlv _].
  destruct (resolves_effect _ _ _ Hr) as (ev & He & Hc & Hs & _). simpl in *.
  exists ev. unfold count_occupied in *. rewrite count_some_fill in Hc by done.
  rewrite checkLevelUp_level, checkLevelUp_score, Hlv.
  split; [done|]. split; [lia|]. split; [lia|done].
Qed.

Lemma createGridTile_conservation_witness :
  length (ms_grid scenario_start) = 16 /\ ms_grid scenario_start !! 3 = Some None /\
  exists ev, ms_events (createGridTile 3 (mkTile 4 tile_pink) scenario_start) =
             ms_events scenario_start ++ ev.
Proof.
  split; [reflexivity|]. split; [reflexivity|].
  destruct (createGridTile_conservation 3 (mkTile 4 tile_pink) scenario_start
    ltac:(reflexivity) ltac:(reflexivity)) as (ev & He & _).
  by exists ev.
Defined.

(** C4: a match.  When the first qualifying neighbour [j] of the tile at
    [i] holds an equal value, [checkMerges] clears both cells, stops, and
    leaves the score alone; the 10 points arrive when the animation's
    callback [animationDone] runs. *)
Theorem checkMerges_match fuel i s cur j nb :
  ms_grid s !! i = Some (Some cur) ->
  findPartner cur (ms_grid s) (neighborPositions i) = Some (j, nb) ->
  value nb = value cur ->
  let s' := checkMerges (S fuel) i s in
  s' = mkMS (<[j:=None]> (<[i:=None]> (ms_grid s))) (ms_score s) true
          (ms_events s ++ [MatchEvent i j]) /\
  (ms_events s = [] ->
   score (ms_score (animationDone s')) = score (ms_score s) + 10 /\
   ms_merging (animationDone s') = false).
Proof.
  intros Hi Hf Hv. simpl.
  destruct (mergeStep_cases i s) as
    [[_ Hn]|[(cur' & j' & nb' & Hi' & Hf' & _ & ->)|[(cur' & j' & nb' & Hi' & Hf' & Hlt & _)|
      (cur' & j' & nb' & Hi' & Hf' & Hlt & _)]]];
    [by rewrite (Hn cur Hi) in Hf|..]; rewrite Hi in Hi'; injection Hi' as <-;
    rewrite Hf in Hf'; injection Hf' as <- <-; [|lia..].
  split; [done|]. intros ->. simpl. by rewrite addScore_score.
Qed.

Definition match_demo : MState :=
  mkMS (<[5:=Some (mkTile 5 tile_red)]> (<[1:=Some (mkTile 5 tile_blue)]> empty_grid))
    (mkScore 0 0 1 10 None) false [].

Lemma checkMerges_match_witness :
  ms_grid match_demo !! 1 = Some (Some (mkTile 5 tile_blue)) /\
  findPartner (mkTile 5 tile_blue) (ms_grid match_demo) (neighborPositions 1) =
    Some (5, mkTile 5 tile_red) /\
  checkMerges 16 1 match_demo = mkMS empty_grid (mkScore 0 0 1 10 None) true [MatchEvent 1 5].
Proof.
  split; [reflexivity|]. split; [reflexivity|].
  rewrite (proj1 (checkMerges_match 15 1 match_demo (mkTile 5 tile_blue) 5 (mkTile 5 tile_red)
    ltac:(reflexivity) ltac:(reflexivity) ltac:(reflexivity))).
  reflexivity.
Defined.

(** C5: a divide.  When the first qualifying neighbour [j] of the tile at
    [i] holds a different value, the smaller value divides the larger; the
    smaller tile's cell is cleared, the larger tile's cell keeps its
    texture and takes the quotient (at least 2), 20 points are added at
    once, and the cascade goes on from the surviving cell. *)
Theorem checkMerges_divide fuel i s cur j nb :
  ms_grid s !! i = Some (Some cur) ->
  findPartner cur (ms_grid s) (neighborPositions i) = Some (j, nb) ->
  value nb <> value cur ->
  let big := Nat.max (value cur) (value nb) in
  let small := Nat.min (value cur) (value nb) in
  let '(removed, survivor, kept) :=
    if value cur <? value nb then (i, j, nb) else (j, i, cur) in
  big mod small = 0 /\ 2 <= big / small /\
  checkMerges (S fuel) i s =
  checkMerges fuel survivor
    (mkMS (<[survivor:=Some (mkTile (big / small) (texture kept))]> (<[removed:=None]> (ms_grid s)))
       (addScore 20 (ms_score s)) true
       (ms_events s ++ [DivideEvent removed survivor (big / small)])).
Proof.
  intros Hi Hf Hv. simpl.
  destruct (mergeStep_cases i s) as
    [[_ Hn]|[(cur' & j' & nb' & Hi' & Hf' & Hv' & _)|[(cur' & j' & nb' & Hi' & Hf' & Hlt & Hz & Hm & ->)|
      (cur' & j' & nb' & Hi' & Hf' & Hlt & Hz & Hm & ->)]]];
    [by rewrite (Hn cur Hi) in Hf|..]; rewrite Hi in Hi'; injection Hi' as <-;
    rewrite Hf in Hf'; injection Hf' as <- <-; [lia| |].
  - rewrite (proj2 (Nat.ltb_lt _ _) Hlt), Nat.max_r, Nat.min_l by lia.
    split; [done|]. split; [apply quotient_ge_2; lia|done].
  - rewrite (proj2 (Nat.ltb_ge _ _)), Nat.max_l, Nat.min_r by lia.
    split; [done|]. split; [apply quotient_ge_2; lia|done].
Qed.

Definition divide_demo : MState :=
  mkMS (<[5:=Some (mkTile 6 tile_red)]> (<[1:=Some (mkTile 3 tile_blue)]> empty_grid))
    (mkScore 0 0 1 10 None) false [].

Lemma checkMerges_divide_witness :
  ms_grid divide_demo !! 1 = Some (Some (mkTile 3 tile_blue)) /\
  findPartner (mkTile 3 tile_blue) (ms_grid divide_demo) (neighborPositions 1) =
    Some (5, mkTile 6 tile_red) /\
  checkMerges 16 1 divide_demo =
  checkMerges 15 5 (mkMS (<[5:=Some (mkTile 2 tile_red)]> (<[1:=None]> (ms_grid divide_demo)))
    (addScore 20 (ms_score divide_demo)) true [DivideEvent 1 5 2]).
Proof.
  split; [reflexivity|]. split; [reflexivity|].
  destruct (checkMerges_divide 15 1 divide_demo (mkTile 3 tile_blue) 5 (mkTile 6 tile_red)
    ltac:(reflexivity) ltac:(reflexivity) ltac:(simpl; lia)) as (_ & _ & E).
  exact E.
Defined.

(** C12: the hint predicate [checkIfMergePossible] is exactly the test the
    cascade runs on a tile just placed: for any texture, it holds at cell
    [i] for value [v] iff the neighbour search of [checkMerges], run on the
    board with that tile written at [i], finds a partner. *)
Theorem checkIfMergePossible_spec g i v t :
  checkIfMergePossible g i v = true <->
  is_Some (findPartner (mkTile v t) (<[i:=Some (mkTile v t)]> g) (neighborPositions i)).
Proof.
  unfold checkIfMergePossible. rewrite (hintScan_findPartner g v t).
  rewrite findPartner_insert_other
    by (intros p Hp Hb; exact (proj2 (neighborPosition_index i p Hp Hb))).
  destruct (findPartner _ _ _); split; [by eexists|done|done|by intros [? ?]].
Qed.

Lemma findPartner_first_witness :
  exists pre p post, neighborPositions 1 = pre ++ p :: post /\ inBounds p = true /\
    5 = posIndex p /\ ms_grid divide_demo !! 5 = Some (Some (mkTile 6 tile_red)) /\
    qualifies (mkTile 3 tile_blue) (mkTile 6 tile_red) = true /\
    forall p', p' ∈ pre -> inBounds p' = true ->
      forall nb', ms_grid divide_demo !! posIndex p' = Some (Some nb') ->
        qualifies (mkTile 3 tile_blue) nb' = false.
Proof.
  exact (proj1 (findPartner_first (mkTile 3 tile_blue) (ms_grid divide_demo) (neighborPositions 1)
    5 (mkTile 6 tile_red)) eq_refl).
Defined.
