(* ===== verification/MergeSpec.v ===== *)
(** * The merge rules of the spec as an abstract rewrite system

    The spec (sections 4.4 and the glossary) describes a cascade by local
    rules on the board: two orthogonally adjacent tiles with equal values
    both disappear and earn 10 points (Match); two adjacent tiles whose
    values differ, the larger a multiple of the smaller, leave the quotient
    in the larger tile's cell and earn 20 points (Divide).  [astep] is that
    rewrite system on a board and a score, with adjacency computed from
    rows and columns rather than from the code's neighbour list.

    [checkMerges] of [src/main.js] (lines 476-571) is a deterministic
    strategy for it, except that the 10 points of a match are paid later,
    by the tween callback (lines 507-514).  The abstraction [abs] credits
    each pending match animation with its 10 points; under it every call of
    the cascade body is zero or one [astep], every tween callback is a
    stuttering step, and a placement on a settled board ends in a normal
    form of the rewrite system. *)

From S2P Require Import Prelude Tile Grid Score Merge.
From stdpp Require Import relations.

(** Cells [a] and [b] of the 4x4 board share a side. *)
Definition adjacent (a b : nat) : bool :=
  (a <? 16) && (b <? 16) &&
  ((a / 4 =? b / 4) && ((S (a mod 4) =? b mod 4) || (S (b mod 4) =? a mod 4)) ||
   (a mod 4 =? b mod 4) && ((S (a / 4) =? b / 4) || (S (b / 4) =? a / 4))).

(** A board and the score the spec's rules have earned on it. *)
Abbreviation AState := (Grid * nat)%type.

Inductive astep : AState -> AState -> Prop :=
  | astep_match g sc a b x y :
      adjacent a b = true -> g !! a = Some (Some x) -> g !! b = Some (Some y) ->
      value x = value y ->
      astep (g, sc) (<[b:=None]> (<[a:=None]> g), sc + 10)
  | astep_divide g sc a b x y :
      adjacent a b = true -> g !! a = Some (Some x) -> g !! b = Some (Some y) ->
      0 < value x < value y -> value y mod value x = 0 ->
      astep (g, sc) (<[b:=Some (mkTile (value y / value x) (texture y))]> (<[a:=None]> g), sc + 20).

(** Points a resolution owes when its animation ends. *)
Definition matchCredit (e : ResolutionEvent) : nat :=
  match e with MatchEvent _ _ => 10 | DivideEvent _ _ _ => 0 end.

(** The board and the score once every pending callback has run. *)
Definition abs (s : MState) : AState :=
  (ms_grid s, score (ms_score s) + sum_by matchCredit (ms_events s)).

(** A settled board admits no rule. *)
Definition anormal (a : AState) : Prop := forall a', ~ astep a a'.

(** ** Adjacency is the code's neighbour relation *)

Lemma adjacent_table :
  forallb (fun a => forallb (fun b =>
    Bool.eqb (bool_decide (b ∈ neighborsOf a)) (adjacent a b)) (seq 0 16)) (seq 0 16) = true.
Proof. vm_compute. reflexivity. Qed.

Lemma neighborsOf_adjacent a b :
  a < 16 -> b ∈ neighborsOf a <-> adjacent a b = true.
Proof.
  intros Ha. destruct (decide (b < 16)) as [Hb|Hb].
  - pose proof adjacent_table as T. rewrite forallb_forall in T.
    specialize (T a ltac:(apply in_seq; lia)). rewrite forallb_forall in T.
    specialize (T b ltac:(apply in_seq; lia)). apply Bool.eqb_prop in T.
    rewrite <- T. symmetry. apply bool_decide_eq_true.
  - split; [intros Hn; destruct (neighborsOf_spec a Ha b Hn); lia|].
    unfold adjacent. intros H. apply andb_prop in H as [[_ H]%andb_prop _].
    apply Nat.ltb_lt in H. lia.
Qed.

(** ** One call of the cascade body is at most one rule *)

Lemma sum_by_snoc f evs e : sum_by f (evs ++ [e]) = sum_by f evs + f e.
Proof. rewrite sum_by_app. simpl. lia. Qed.

(** Bring the score of a rule's target into the form [sc + k]. *)
Ltac rewrite_score k :=
  match goal with |- astep (_, ?a) (_, ?b) => replace b with (a + k) by lia end.

Lemma mergeStep_refines i s :
  length (ms_grid s) = 16 -> rtc astep (abs s) (abs (stepState (mergeStep i s))).
Proof.
  intros Hl. unfold abs.
  destruct (mergeStep_cases i s) as
    [[-> _]|[(cur & j & nb & Hi & Hf & Hv & ->)|[(cur & j & nb & Hi & Hf & Hlt & Hz & Hm & ->)|
      (cur & j & nb & Hi & Hf & Hlt & Hz & Hm & ->)]]]; [reflexivity|..];
    apply rtc_once; cbn [stepState ms_grid ms_score ms_events];
    rewrite sum_by_snoc; cbn [matchCredit]; rewrite ?addScore_score;
    destruct (partner_spec _ _ _ _ _ Hf) as (Hj & _ & Hn & _);
    assert (i < 16) as Hi16 by (rewrite <- Hl; eapply lookup_lt_Some; eauto).
  - rewrite_score 10. eapply astep_match; [by apply neighborsOf_adjacent|done..].
  - rewrite_score 20. eapply astep_divide; [by apply neighborsOf_adjacent|done|done|lia|done].
  - rewrite_score 20. destruct (neighborsOf_spec i Hi16 j Hn) as (Hj16 & _ & Hij).
    eapply astep_divide; [by apply neighborsOf_adjacent|done|done|lia|done].
Qed.

Lemma resolves_refines i s s' :
  resolves i s s' -> length (ms_grid s) = 16 -> rtc astep (abs s) (abs s').
Proof.
  induction 1 as [i s s' E|i j s s' s'' E _ IH]; intros Hl;
    pose proof (mergeStep_refines i s Hl) as H; rewrite E in H; [done|].
  etrans; [exact H|]. apply IH.
  destruct (mergeStep_effect i s) as (_ & _ & _ & _ & Hl' & _). rewrite E in Hl'. simpl in Hl'. lia.
Qed.

(** A tween callback changes nothing the spec can see. *)
Lemma animationDone_abs s : abs (animationDone s) = abs s.
Proof.
  unfold abs, animationDone. destruct (ms_events s) as [|[] evs] eqn:E; [by rewrite E|..];
    cbn [ms_grid ms_score ms_events]; rewrite ?addScore_score; unfold sum_by; cbn [foldr matchCredit];
    f_equal; lia.
Qed.

Lemma settled_anormal g sc :
  length g = 16 -> settled g -> anormal (g, sc).
Proof.
  intros Hl Hs a' Hst. inversion Hst as [? ? a b x y Hab Hx Hy Hv|? ? a b x y Hab Hx Hy Hlt Hm]; subst.
  all: assert (a < 16) as Ha by (rewrite <- Hl; eapply lookup_lt_Some; eauto).
  all: apply (neighborsOf_adjacent a b Ha) in Hab.
  all: assert (Some a <> None) as Na by done; assert (Some b <> None) as Nb by done.
  all: pose proof (Hs a b Hab Na Nb x y Hx Hy) as Hq.
  all: assert (qualifies x y = true) as Hq' by (apply qualifies_spec; rewrite ?Nat.min_l, ?Nat.max_r by lia; lia).
  all: congruence.
Qed.

(** The state [createGridTile] starts from: the tile written into the cell. *)
Definition placed (i : nat) (t : TileData) (s : MState) : MState :=
  mkMS (<[i:=Some t]> (ms_grid s)) (ms_score s) (ms_merging s) (ms_events s).

Lemma createGridTile_abs i t s :
  length (ms_grid s) = 16 -> rtc astep (abs (placed i t s)) (abs (createGridTile i t s)).
Proof.
  intros Hl. pose proof (createGridTile_resolves i t s Hl) as Hr. cbn zeta in Hr.
  apply resolves_refines in Hr; [|cbn [ms_grid]; by rewrite length_insert].
  unfold createGridTile. cbn zeta. unfold abs in *. cbn [ms_grid ms_score ms_events] in *.
  by rewrite checkLevelUp_score.
Qed.

(** ** The callbacks pay exactly the credit *)

Lemma animationsDone_abs n s : abs (animationsDone n s) = abs s.
Proof.
  revert s. induction n as [|n IH]; intros s; [done|]. cbn [animationsDone].
  by rewrite IH, animationDone_abs.
Qed.

Lemma animationsDone_events n s :
  ms_events (animationsDone n s) = drop n (ms_events s).
Proof.
  revert s. induction n as [|n IH]; intros s; [done|]. cbn [animationsDone]. rewrite IH.
  unfold animationDone. destruct (ms_events s) as [|[] evs] eqn:E; cbn [ms_events];
    [by rewrite E, drop_nil|done|done].
Qed.

(** C7: refinement of the spec's merge rules.  Writing a tile of value at
    least 2 into an empty cell of a settled board and running
    [createGridTile] is a sequence of the spec's Match and Divide rules
    from the board with the tile written in, with the score the rules earn
    counting the 10 points each pending match animation still owes; and
    the resulting board admits no further rule. *)
Theorem createGridTile_refines i t s :
  board_ok (ms_grid s) -> ms_grid s !! i = Some None -> 2 <= value t ->
  rtc astep (abs (placed i t s)) (abs (createGridTile i t s)) /\
  anormal (abs (createGridTile i t s)).
Proof.
  intros Hb Hi Ht. pose proof Hb as [[Hl _] _]. split; [by apply createGridTile_abs|].
  destruct (createGridTile_keeps_board i t s Hb Hi Ht) as [[Hl' _] Hs].
  by apply settled_anormal.
Qed.

(** After Scenario A's first tile (6 at cell 5), the second (3 at cell 1)
    divides it: the rules take the board to 2 at cell 5 and 20 points. *)
Definition refine_demo : MState := createGridTile 5 (mkTile 6 tile_blue) scenario_start.

Lemma createGridTile_refines_witness :
  board_ok (ms_grid refine_demo) /\ ms_grid refine_demo !! 1 = Some None /\
  2 <= value (mkTile 3 tile_red) /\
  rtc astep (abs (placed 1 (mkTile 3 tile_red) refine_demo))
    (abs (createGridTile 1 (mkTile 3 tile_red) refine_demo)).
Proof.
  assert (board_ok (ms_grid refine_demo)) as Hb
    by (apply createGridTile_keeps_board; [apply empty_board_ok|reflexivity|simpl; lia]).
  split; [exact Hb|]. split; [reflexivity|]. split; [simpl; lia|].
  apply (createGridTile_refines 1 (mkTile 3 tile_red) refine_demo Hb); [reflexivity|simpl; lia].
Defined.
