(* ===== verification/Hints.v ===== *)
(** * The placement hints

    [showHintsFor(value)] of [src/main.js] (lines 810-825) returns at once
    when hints are off; otherwise it clears the highlight layer and
    highlights every empty slot [i] for which [checkIfMergePossible(i,
    value)] holds.  [showHintsFor] below returns [None] for the early
    return (the layer is left as it was) and [Some cells] for the slots it
    highlights, in increasing order.  The tests [slotImages[i]] and
    [hintGraphics.scene] only check that the board has been drawn, which it
    is from the first [startNewGame] on.

    The spec's [eligiblePlacements(value)] asks for the empty cells where
    placing the value would match or divide with a neighbour.  The theorem
    of this file states it of the code end to end: a slot is highlighted
    exactly when dropping the tile there makes [createGridTile] start at
    least one merge animation. *)

From S2P Require Import Prelude Tile Grid Score Merge.

Definition showHintsFor (hintsActive : bool) (g : Grid) (v : nat) : option (list nat) :=
  if hintsActive
  then Some (List.filter (fun i => isEmpty g i && checkIfMergePossible g i v) (seq 0 16))
  else None.

(** ** Lemmas *)

Lemma app_cons_neq {A} (l l' : list A) e : l ++ e :: l' <> l.
Proof. intros Heq. apply (f_equal length) in Heq. rewrite length_app in Heq. simpl in Heq. lia. Qed.

Lemma resolves_events_grow i s s' :
  resolves i s s' -> exists ev, ms_events s' = ms_events s ++ ev.
Proof. intros Hr. destruct (resolves_effect _ _ _ Hr) as (ev & He & _). by exists ev. Qed.

(** The cascade records an animation exactly when the placed tile has a
    partner. *)
Lemma resolves_events_partner i s s' cur :
  resolves i s s' -> ms_grid s !! i = Some (Some cur) ->
  ms_events s' = ms_events s <-> findPartner cur (ms_grid s) (neighborPositions i) = None.
Proof.
  intros Hr Hi.
  destruct (mergeStep_cases i s) as
    [[Hst Hn]|[(c & j & nb & Hc & Hf & _ & Hst)|[(c & j & nb & Hc & Hf & _ & _ & _ & Hst)|
      (c & j & nb & Hc & Hf & _ & _ & _ & Hst)]]];
    [|rewrite Hi in Hc; injection Hc as <-..].
  - rewrite (resolves_det _ _ _ _ Hr (resolves_stop _ _ _ Hst)). split; [intros _; by apply Hn|done].
  - rewrite (resolves_det _ _ _ _ Hr (resolves_stop _ _ _ Hst)), Hf. cbn [ms_events].
    split; [intros H; by apply app_cons_neq in H|done].
  - inversion Hr as [? ? ? E|? ? ? ? ? E Hr']; subst; rewrite Hst in E; [done|]. injection E as <- <-.
    destruct (resolves_events_grow _ _ _ Hr') as (ev & ->). cbn [ms_events]. rewrite Hf, <- app_assoc.
    split; [intros H; by apply app_cons_neq in H|done].
  - inversion Hr as [? ? ? E|? ? ? ? ? E Hr']; subst; rewrite Hst in E; [done|]. injection E as <- <-.
    destruct (resolves_events_grow _ _ _ Hr') as (ev & ->). cbn [ms_events]. rewrite Hf, <- app_assoc.
    split; [intros H; by apply app_cons_neq in H|done].
Qed.

(** [checkIfMergePossible] is the partner search of the cascade run on the
    board with the tile written in. *)
Lemma checkIfMergePossible_partner g i v t :
  checkIfMergePossible g i v =
  match findPartner (mkTile v t) (<[i:=Some (mkTile v t)]> g) (neighborPositions i) with
  | Some _ => true | None => false end.
Proof.
  unfold checkIfMergePossible. rewrite (hintScan_findPartner g v t).
  by rewrite findPartner_insert_other
    by (intros p Hp Hb; exact (proj2 (neighborPosition_index i p Hp Hb))).
Qed.

Lemma createGridTile_events i t s :
  length (ms_grid s) = 16 -> ms_grid s !! i = Some None ->
  ms_events (createGridTile i t s) = ms_events s <->
  findPartner t (<[i:=Some t]> (ms_grid s)) (neighborPositions i) = None.
Proof.
  intros Hl Hi. pose proof (createGridTile_resolves i t s Hl) as Hr. cbn zeta in Hr.
  unfold createGridTile. cbn zeta. cbn [ms_events].
  apply (resolves_events_partner _ _ _ t Hr). cbn [ms_grid].
  apply list_lookup_insert_eq. eapply lookup_lt_Some. exact Hi.
Qed.

(** C11: the hints are the spec's eligible placements.  With hints off,
    [showHintsFor] draws nothing.  With hints on, on a 16-cell board, it
    highlights cell [i] exactly when [i] is a cell of the board, [i] is
    empty, and dropping a tile of that value there makes [createGridTile]
    start at least one merge animation (whatever the tile's texture). *)
Theorem showHintsFor_spec hintsActive s v t :
  length (ms_grid s) = 16 ->
  match showHintsFor hintsActive (ms_grid s) v with
  | None => hintsActive = false
  | Some cells => hintsActive = true /\
      forall i, i ∈ cells <->
        i < 16 /\ ms_grid s !! i = Some None /\
        ms_events (createGridTile i (mkTile v t) s) <> ms_events s
  end.
Proof.
  intros Hl. destruct hintsActive; [|done]. split; [done|]. intros i. unfold showHintsFor.
  rewrite list_elem_of_In, filter_In, in_seq, andb_true_iff, isEmpty_lookup,
    (checkIfMergePossible_partner _ _ _ t).
  split.
  - intros [[_ Hi] [He Hm]]. split; [lia|]. split; [done|].
    rewrite createGridTile_events by done. by destruct (findPartner _ _ _).
  - intros (Hi & He & Hm). rewrite createGridTile_events in Hm by done.
    split; [lia|]. split; [done|]. destruct (findPartner _ _ _); [done|by destruct Hm].
Qed.

(** With 6 at cell 5, a 3 in hand is hinted at the four neighbours of
    cell 5. *)
Definition hint_demo : MState := createGridTile 5 (mkTile 6 tile_blue) scenario_start.

Lemma showHintsFor_spec_witness :
  length (ms_grid hint_demo) = 16 /\
  showHintsFor true (ms_grid hint_demo) 3 = Some [1; 4; 6; 9] /\
  (1 ∈ [1; 4; 6; 9] <-> 1 < 16 /\ ms_grid hint_demo !! 1 = Some None /\
     ms_events (createGridTile 1 (mkTile 3 tile_red) hint_demo) <> ms_events hint_demo).
Proof.
  assert (length (ms_grid hint_demo) = 16) as Hl by reflexivity.
  split; [exact Hl|]. split; [vm_compute; reflexivity|].
  pose proof (showHintsFor_spec true hint_demo 3 tile_red Hl) as H.
  change (showHintsFor true (ms_grid hint_demo) 3) with (Some [1; 4; 6; 9]) in H.
  exact (proj2 H 1).
Defined.
