(* ===== verification/Undo.v ===== *)
(** * The session state and the undo history

    The record [Game] holds the module-level variables of [src/main.js]
    that the rules read or write (lines 70-82): the merge state of [Merge]
    ([grid], [score], [bestScore], [level], [trashCount], [isMerging] and
    the merge animations in flight), [queue], [undoStack], [keepTileData],
    the data of [currentDraggable] (the hand) and whether it can be
    dragged, [hintsActive], [difficulty], [isGameOver], the trash
    animations in flight, and the state of [Math.random].

    [saveState] (lines 740-753) pushes a [Snapshot] (a deep copy: the
    snapshot is a value, never shared with the live state) and evicts the
    oldest one when 10 are held; [undo] (lines 755-797) pops the newest and
    writes its fields back.  The theorems show the history stays at most
    10 deep and that up to 10 operations that each start with [saveState]
    are undone exactly, in reverse. *)

From S2P Require Import Prelude Tile Grid Score Merge.

(** The object [saveState] pushes. *)
Record Snapshot := mkSnap {
  snap_grid : Grid;
  snap_queue : list TileData;
  snap_score : nat;
  snap_level : nat;
  snap_trash : nat;
  snap_keep : option TileData;
  snap_hand : option TileData;
  snap_over : bool
}.

Record Game (R : Type) := mkGame {
  board : MState;                  (** grid, scores, isMerging, merge tweens *)
  queue : list TileData;
  undoStack : list Snapshot;       (** oldest first, [push]/[pop] at the end *)
  keepTileData : option TileData;
  hand : option TileData;          (** [currentDraggable]'s value and texture *)
  handInteractive : bool;
  hintsActive : bool;
  difficulty : nat;
  isGameOver : bool;
  trashAnims : nat;                (** trash tweens whose [onComplete] is pending *)
  rng : R
}.
Arguments mkGame {R}.
Arguments board {R}. Arguments queue {R}. Arguments undoStack {R}.
Arguments keepTileData {R}. Arguments hand {R}. Arguments handInteractive {R}.
Arguments hintsActive {R}. Arguments difficulty {R}. Arguments isGameOver {R}.
Arguments trashAnims {R}. Arguments rng {R}.

Section Undo.
Context {R : Type}.
Implicit Types g : Game R.

Definition gscore g : ScoreState := ms_score (board g).
Definition ggrid g : Grid := ms_grid (board g).

(** The copy [saveState] takes. *)
Definition snapshotOf g : Snapshot :=
  mkSnap (ggrid g) (queue g) (score (gscore g)) (level (gscore g))
    (trashCount (gscore g)) (keepTileData g) (hand g) (isGameOver g).

Definition set_undoStack (u : list Snapshot) g : Game R :=
  mkGame (board g) (queue g) u (keepTileData g) (hand g) (handInteractive g)
    (hintsActive g) (difficulty g) (isGameOver g) (trashAnims g) (rng g).

(** [if (undoStack.length >= 10) undoStack.shift(); undoStack.push(snapshot)]. *)
Definition saveState g : Game R :=
  let u := undoStack g in
  let u' := if 10 <=? length u then tail u else u in
  set_undoStack (u' ++ [snapshotOf g]) g.

(** [undo(scene)]: nothing on an empty history; otherwise the game-over
    flag is cleared (the branch of lines 761-766; [gameOverContainer]
    exists once a game has started), the newest snapshot is popped and
    its fields are written back.  The best score, the difficulty, the
    hints flag, [isMerging] and the animations in flight are not part of
    the snapshot and are kept.  The hand tile is recreated, interactive,
    when the snapshot has one. *)
Definition undo g : Game R :=
  match last (undoStack g) with
  | None => g
  | Some st =>
      let sc := gscore g in
      mkGame
        (mkMS (snap_grid st)
           (mkScore (snap_score st) (bestScore sc) (snap_level st) (snap_trash st) (stored sc))
           (ms_merging (board g)) (ms_events (board g)))
        (snap_queue st) (removelast (undoStack g)) (snap_keep st) (snap_hand st)
        (match snap_hand st with Some _ => true | None => false end)
        (hintsActive g) (difficulty g) false (trashAnims g) (rng g)
  end.

(** The fields a snapshot records, read from the live state, with the
    game-over flag as [undo] leaves it. *)
Definition view g : Snapshot := snapshotOf g.

(** An operation that does not touch the history. *)
Definition keeps_history (f : Game R -> Game R) : Prop :=
  forall g, undoStack (f g) = undoStack g.

(** Run operations, each preceded by [saveState]. *)
Fixpoint runSaved (ops : list (Game R -> Game R)) g : Game R :=
  match ops with
  | [] => g
  | f :: ops' => runSaved ops' (f (saveState g))
  end.

Fixpoint undoN (n : nat) g : Game R :=
  match n with 0 => g | S n' => undoN n' (undo g) end.
End Undo.

(** ** Lemmas on the history *)

Section UndoProofs.
Context {R : Type}.
Implicit Types g : Game R.

Definition overCleared (s : Snapshot) : Snapshot :=
  mkSnap (snap_grid s) (snap_queue s) (snap_score s) (snap_level s) (snap_trash s)
    (snap_keep s) (snap_hand s) false.

Lemma saveState_bounded g :
  length (undoStack g) <= 10 -> length (undoStack (saveState g)) <= 10.
Proof.
  intros Hl. unfold saveState, set_undoStack. cbn [undoStack].
  destruct (10 <=? length (undoStack g)) eqn:E; jd_bool;
    rewrite length_app; cbn [length]; [|lia].
  destruct (undoStack g); cbn [length tail] in *; lia.
Qed.

(** The newest entries survive a push, the oldest one being evicted. *)
Lemma saveState_suffix g pre post :
  length (undoStack g) <= 10 -> length post <= 9 -> undoStack g = pre ++ post ->
  exists d pre', pre = d ++ pre' /\ undoStack (saveState g) = pre' ++ post ++ [snapshotOf g].
Proof.
  intros Hl Hp Hu. unfold saveState, set_undoStack. cbn [undoStack]. rewrite Hu.
  destruct (10 <=? length (pre ++ post)) eqn:E; jd_bool.
  - destruct pre as [|s pre]; [simpl in E; lia|]. exists [s], pre. split; [done|]. simpl. by rewrite <- app_assoc.
  - exists [], pre. split; [done|]. by rewrite <- app_assoc.
Qed.

(** The states whose snapshots [runSaved] pushes. *)
Fixpoint savedStates (ops : list (Game R -> Game R)) g : list (Game R) :=
  match ops with
  | [] => []
  | f :: ops' => g :: savedStates ops' (f (saveState g))
  end.

Lemma savedStates_length ops g : length (savedStates ops g) = length ops.
Proof. revert g; induction ops; simpl; auto. Qed.

Lemma runSaved_stack ops g pre post :
  Forall keeps_history ops -> length (undoStack g) <= 10 ->
  length post + length ops <= 10 -> undoStack g = pre ++ post ->
  exists d pre', pre = d ++ pre' /\
    undoStack (runSaved ops g) = pre' ++ post ++ map snapshotOf (savedStates ops g).
Proof.
  revert g pre post. induction ops as [|f ops IH]; intros g pre post Hk Hl Hn Hu; simpl.
  - exists [], pre. by rewrite app_nil_r.
  - apply Forall_cons in Hk as [Hf Hk]. simpl in Hn.
    destruct (saveState_suffix g pre post Hl ltac:(lia) Hu) as (d1 & pre1 & -> & Hs).
    destruct (IH (f (saveState g)) pre1 (post ++ [snapshotOf g]) Hk)
      as (d2 & pre' & -> & Hr).
    + rewrite Hf. by apply saveState_bounded.
    + rewrite length_app. simpl. lia.
    + by rewrite Hf, Hs, app_assoc.
    + exists (d1 ++ d2), pre'. rewrite Hr, <- !app_assoc. done.
Qed.

Lemma undo_pop g pre s :
  undoStack g = pre ++ [s] ->
  view (undo g) = overCleared s /\ undoStack (undo g) = pre.
Proof.
  intros Hu. unfold undo. rewrite Hu, last_snoc. simpl.
  rewrite removelast_last. by destruct s.
Qed.

Lemma undoN_pops snaps g pre :
  snaps <> [] -> undoStack g = pre ++ snaps ->
  exists s rest, snaps = s :: rest /\
    view (undoN (length snaps) g) = overCleared s /\
    undoStack (undoN (length snaps) g) = pre.
Proof.
  revert g. induction snaps as [|s snaps IH] using rev_ind; intros g Hne Hu; [done|].
  rewrite length_app, Nat.add_comm. simpl.
  rewrite app_assoc in Hu. destruct (undo_pop g _ _ Hu) as [Hv Hs].
  destruct (decide (snaps = [])) as [->|Hn].
  - exists s, []. simpl. rewrite app_nil_r in Hs. by split.
  - destruct (IH (undo g) Hn Hs) as (s' & rest & -> & Hv' & Hs').
    exists s', (rest ++ [s]). simpl in *. by split.
Qed.
End UndoProofs.

(** C9: the undo round trip.  From a state that is not game over and a
    history of at most 10 snapshots, any sequence of at most 10 operations
    that each start with [saveState] and leave the history alone is undone
    exactly by as many [undo]s: grid, queue, score, level, trash count,
    keep slot, hand and game-over flag all come back, and the history is
    what it was, less the oldest entries the pushes evicted. *)
Theorem undo_roundtrip {R} (ops : list (Game R -> Game R)) (g : Game R) :
  isGameOver g = false -> length (undoStack g) <= 10 ->
  Forall keeps_history ops -> ops <> [] -> length ops <= 10 ->
  view (undoN (length ops) (runSaved ops g)) = view g /\
  exists evicted, undoStack g = evicted ++ undoStack (undoN (length ops) (runSaved ops g)).
Proof.
  intros Ho Hl Hk Hne Hn.
  destruct (runSaved_stack ops g (undoStack g) [] Hk Hl ltac:(simpl; lia)
    ltac:(by rewrite app_nil_r)) as (d & pre' & Hd & Hr).
  rewrite app_nil_l in Hr.
  assert (map snapshotOf (savedStates ops g) <> []) as Hne'.
  { destruct ops; [done|]. simpl. done. }
  destruct (undoN_pops _ _ _ Hne' Hr) as (s & rest & Heq & Hv & Hs).
  rewrite length_map, savedStates_length in Hv, Hs.
  destruct ops as [|f ops]; [done|]. simpl in Heq. injection Heq as <- _.
  split.
  - rewrite Hv. unfold view, snapshotOf, overCleared. simpl. by rewrite Ho.
  - exists d. by rewrite Hs.
Qed.

(** ** The history as the spec's bounded FIFO *)

(** The newest [n] entries of a list. *)
Definition lastn {A} (n : nat) (l : list A) : list A := drop (length l - n) l.

(** C10: the history is a bounded FIFO.  From a history of at most 10
    snapshots, [saveState] leaves exactly the newest 10 of the old history
    followed by the new snapshot: the oldest is evicted only when 10 are
    held, and nothing else is lost or reordered. *)
Theorem saveState_bounded_fifo {R} (g : Game R) :
  length (undoStack g) <= 10 ->
  undoStack (saveState g) = lastn 10 (undoStack g ++ [snapshotOf g]).
Proof.
  intros Hl. unfold saveState, set_undoStack, lastn. cbn [undoStack].
  rewrite length_app. cbn [length].
  destruct (10 <=? length (undoStack g)) eqn:E; jd_bool.
  - destruct (undoStack g) as [|s u] eqn:Eu; cbn [length] in *; [lia|].
    replace (S (length u) + 1 - 10) with 1 by lia. done.
  - replace (length (undoStack g) + 1 - 10) with 0 by lia. done.
Qed.

(** A full history of ten copies of the first state: one more save evicts
    the oldest. *)
Definition full_history_game : Game unit :=
  let g0 := mkGame (mkMS empty_grid (mkScore 0 0 1 10 None) false []) [] [] None None false
              false 1 false 0 tt in
  set_undoStack (repeat (snapshotOf g0) 10) g0.

Lemma saveState_bounded_fifo_witness :
  length (undoStack full_history_game) <= 10 /\
  length (undoStack (saveState full_history_game)) = 10 /\
  undoStack (saveState full_history_game) =
    lastn 10 (undoStack full_history_game ++ [snapshotOf full_history_game]).
Proof.
  split; [simpl; lia|]. split; [reflexivity|].
  apply saveState_bounded_fifo. simpl; lia.
Defined.
