(* ===== verification/Session.v ===== *)
(** * The session: handlers, callbacks and the step relation

    The operations of [src/main.js] that change the game, on the record
    [Game] of [Undo]:
    - [startNewGame] (lines 273-316), [spawnNextTile] (358-389),
      [checkGameOver] and [triggerGameOver] (327-356);
    - the [dragend] handler (lines 138-173) with [handleKeepDragEnd]
      (391-409), [handleTrashDrop] (411-436) and [handleHandToKeep]
      (438-455); [tryDropOnGrid] places through [createGridTile] of [Merge];
    - the keyboard bindings (lines 175-182): [undo], [startNewGame],
      [toggleHints] (799-804), [setDifficulty] (733-738);
    - the tween callbacks that change state: the merge animations
      ([animationDone] of [Merge]) and the trash animation's [onComplete]
      (lines 427-430), which runs [spawnNextTile].
    [step] is one input or one callback; [reachable] closes it from the
    state before the first game.  Pointer positions are integer
    coordinates; the distance tests are those of [Grid]. *)

From S2P Require Import Prelude Tile Grid Score Merge Undo.
From Stdlib Require Import ZArith NArith.

Section Session.
Context {R : Type} `{RandomSource R}.
Implicit Types g : Game R.

(** ** Field updates *)
Definition set_board b g : Game R :=
  mkGame b (queue g) (undoStack g) (keepTileData g) (hand g) (handInteractive g)
    (hintsActive g) (difficulty g) (isGameOver g) (trashAnims g) (rng g).
Definition set_queue q g : Game R :=
  mkGame (board g) q (undoStack g) (keepTileData g) (hand g) (handInteractive g)
    (hintsActive g) (difficulty g) (isGameOver g) (trashAnims g) (rng g).
Definition set_rng r g : Game R :=
  mkGame (board g) (queue g) (undoStack g) (keepTileData g) (hand g) (handInteractive g)
    (hintsActive g) (difficulty g) (isGameOver g) (trashAnims g) r.
Definition set_hand h (interactive : bool) g : Game R :=
  mkGame (board g) (queue g) (undoStack g) (keepTileData g) h interactive
    (hintsActive g) (difficulty g) (isGameOver g) (trashAnims g) (rng g).
Definition set_keep k g : Game R :=
  mkGame (board g) (queue g) (undoStack g) k (hand g) (handInteractive g)
    (hintsActive g) (difficulty g) (isGameOver g) (trashAnims g) (rng g).
Definition set_trashAnims n g : Game R :=
  mkGame (board g) (queue g) (undoStack g) (keepTileData g) (hand g) (handInteractive g)
    (hintsActive g) (difficulty g) (isGameOver g) n (rng g).

Definition set_trashCount n g : Game R :=
  let b := board g in let sc := ms_score b in
  set_board (mkMS (ms_grid b)
    (mkScore (score sc) (bestScore sc) (level sc) n (stored sc))
    (ms_merging b) (ms_events b)) g.

(** ** Operations *)

(** [replenishQueue()] on the globals. *)
Definition replenish g : Game R :=
  let '(q, r) := replenishQueue (difficulty g) (level (gscore g)) (queue g) (rng g) in
  set_rng r (set_queue q g).

(** [checkGameOver] with [triggerGameOver]: skipped while a merge is
    animating; otherwise a full board ends the game (and disables the
    hand tile). *)
Definition checkGameOver g : Game R :=
  if ms_merging (board g) then g
  else if gridFull (ggrid g) then
    if isGameOver g then g
    else mkGame (board g) (queue g) (undoStack g) (keepTileData g) (hand g) false
           (hintsActive g) (difficulty g) true (trashAnims g) (rng g)
  else g.

(** [spawnNextTile]: replenish, [queue.shift()] into a new interactive
    hand tile, then [checkGameOver].  On an empty queue the code throws
    at [data.texture] after the shift; [spawnNextTile_draws] shows the
    queue is never empty there. *)
Definition spawnNextTile g : Game R :=
  let g1 := replenish g in
  match queueShift (queue g1) with
  | (Some t, q) => checkGameOver (set_hand (Some t) true (set_queue q g1))
  | (None, q) => set_queue q g1
  end.

(** [startNewGame]: the best score is read back from storage, every
    other global is reset ([resetGame], lines 283-300), then the queue is
    filled and a tile drawn (lines 314-315).
    Tweens already running are not stopped ([scene.children.removeAll()]
    only detaches the sprites), so their callbacks stay pending. *)
Definition resetGame g : Game R :=
  let b := board g in
  mkGame (mkMS empty_grid (resetScore (ms_score b)) false (ms_events b))
    [] [] None None false false (difficulty g) false (trashAnims g) (rng g).

Definition startNewGame g : Game R := spawnNextTile (replenish (resetGame g)).

(** [handleTrashDrop]: with trash left, save, spend one, and start the
    tween whose [onComplete] draws the next tile; otherwise the tile goes
    back to the stack. *)
Definition handleTrashDrop g : Game R :=
  if 0 <? trashCount (gscore g) then
    let g1 := saveState g in
    set_trashAnims (S (trashAnims g1))
      (set_hand (hand g1) false (set_trashCount (trashCount (gscore g1) - 1) g1))
  else g.

(** The trash tween's [onComplete]: destroy the tile, [spawnNextTile].
    The model keeps one hand tile, which [spawnNextTile] overwrites.  In
    the code, when [undo] ran during the tween it destroyed the thrown
    tile and created the snapshot's hand tile (lines 784-793); the
    callback then creates another one without destroying that one, so two
    draggable hand tiles are on the page, of which the model keeps the
    newer. *)
Definition trashAnimDone g : Game R :=
  spawnNextTile (set_trashAnims (trashAnims g - 1) g).

(** [handleHandToKeep] (called after [saveState]): an empty keep slot
    takes the hand tile and a new tile is drawn; otherwise the two are
    swapped and [checkGameOver] runs. *)
Definition handleHandToKeep g : Game R :=
  match hand g with
  | None => g
  | Some h =>
      match keepTileData g with
      | None => spawnNextTile (set_keep (Some h) g)
      | Some k => checkGameOver (set_hand (Some k) (handInteractive g) (set_keep (Some h) g))
      end
  end.

Definition undoPop g : Game R := set_undoStack (removelast (undoStack g)) g.

(** [tryDropOnGrid] for a tile: [createGridTile] at the drop cell. *)
Definition tryDropOnGrid (t : option TileData) (x y : Z) g : option (Game R) :=
  match t, dropTarget (value <$> t) (ggrid g) x y with
  | Some tile, Some i => Some (set_board (createGridTile i tile (board g)) g)
  | _, _ => None
  end.

(** [handleKeepDragEnd]: dropping the kept tile on an empty cell places
    it and empties the slot.  No new tile is drawn and [checkGameOver] is
    not called. *)
Definition handleKeepDragEnd (x y : Z) g : Game R :=
  if isValidDrop (value <$> keepTileData g) (ggrid g) x y then
    let g1 := saveState g in
    match tryDropOnGrid (keepTileData g1) x y g1 with
    | Some g2 => set_keep None g2
    | None => undoPop g1
    end
  else g.

(** Trash and keep slot centres (lines 44, 52). *)
Definition trashX : Z := 1045.
Definition trashY : Z := 860.
Definition keepSlotX : Z := 1045.
Definition keepSlotY : Z := 450.

(** The [dragend] handler for the hand tile dropped at [(x, y)]. *)
Definition dragEndHand (x y : Z) g : Game R :=
  if isGameOver g then g
  else if near x y trashX trashY 80 then handleTrashDrop g
  else if near x y keepSlotX keepSlotY 60 then handleHandToKeep (saveState g)
  else if isValidDrop (value <$> hand g) (ggrid g) x y then
    let g1 := saveState g in
    match tryDropOnGrid (hand g1) x y g1 with
    | Some g2 => spawnNextTile g2
    | None => undoPop g1
    end
  else checkGameOver g.

(** The [dragend] handler for the keep container. *)
Definition dragEndKeep (x y : Z) g : Game R :=
  if isGameOver g then g else handleKeepDragEnd x y g.

Definition toggleHints g : Game R :=
  mkGame (board g) (queue g) (undoStack g) (keepTileData g) (hand g) (handInteractive g)
    (negb (hintsActive g)) (difficulty g) (isGameOver g) (trashAnims g) (rng g).

Definition setDifficulty (d : nat) g : Game R :=
  mkGame (board g) (queue g) (undoStack g) (keepTileData g) (hand g) (handInteractive g)
    (hintsActive g) d (isGameOver g) (trashAnims g) (rng g).

(** ** Inputs and callbacks *)

Inductive Input :=
  | DragHand (x y : Z)        (** the hand tile dropped at (x, y) *)
  | DragKeep (x y : Z)        (** the keep container dropped at (x, y) *)
  | KeyUndo | KeyRestart | KeyHints
  | KeyDifficulty (d : nat)
  | MergeTweenEnd             (** the oldest merge tween completes *)
  | TrashTweenEnd.            (** a trash tween completes *)

(** One input or callback; [None] when it cannot happen (no interactive
    object to drag, no tween running, a key the bindings do not have). *)
Definition step (inp : Input) g : option (Game R) :=
  match inp with
  | DragHand x y => if handInteractive g then Some (dragEndHand x y g) else None
  | DragKeep x y =>
      match keepTileData g with Some _ => Some (dragEndKeep x y g) | None => None end
  | KeyUndo => Some (undo g)
  | KeyRestart => Some (startNewGame g)
  | KeyHints => Some (toggleHints g)
  | KeyDifficulty d =>
      if (1 <=? d) && (d <=? 3) then Some (setDifficulty d g) else None
  | MergeTweenEnd =>
      match ms_events (board g) with
      | [] => None
      | _ => Some (set_board (animationDone (board g)) g)
      end
  | TrashTweenEnd =>
      match trashAnims g with 0 => None | S _ => Some (trashAnimDone g) end
  end.

Inductive steps : Game R -> Game R -> Prop :=
  | steps_refl g : steps g g
  | steps_step g g' g'' inp : step inp g = Some g' -> steps g' g'' -> steps g g''.

(** The globals before the first game (lines 70-82), with whatever best
    score an earlier session left in storage. *)
Definition boot (saved : option nat) (r : R) : Game R :=
  mkGame (mkMS empty_grid (mkScore 0 0 1 10 saved) false []) [] [] None None false
    false 1 false 0 r.

(** Run a list of inputs; [None] if one of them cannot happen. *)
Fixpoint run (inps : list Input) g : option (Game R) :=
  match inps with
  | [] => Some g
  | i :: inps' => match step i g with Some g' => run inps' g' | None => None end
  end.

Definition reachable g : Prop := exists saved r, steps (boot saved r) g.
End Session.

(** ** The trash operation as an operation after [saveState] *)

Section TrashSaved.
Context {R : Type} `{RandomSource R}.

(** What [handleTrashDrop] does after its [saveState]. *)
Definition trashAfterSave (g : Game R) : Game R :=
  set_trashAnims (S (trashAnims g))
    (set_hand (hand g) false (set_trashCount (trashCount (gscore g) - 1) g)).

Lemma handleTrashDrop_saved (g : Game R) :
  0 < trashCount (gscore g) -> handleTrashDrop g = trashAfterSave (saveState g).
Proof.
  intros Ht. unfold handleTrashDrop. by rewrite (proj2 (Nat.ltb_lt _ _) Ht).
Qed.

Lemma trashAfterSave_keeps_history : keeps_history (R:=R) trashAfterSave.
Proof. intros g. reflexivity. Qed.
End TrashSaved.

Definition demo_game : Game N := startNewGame (boot None 7%N).

Lemma undo_roundtrip_witness :
  isGameOver demo_game = false /\ length (undoStack demo_game) <= 10 /\
  view (undoN 2 (runSaved [trashAfterSave; trashAfterSave] demo_game)) = view demo_game.
Proof.
  split; [reflexivity|]. split; [vm_compute; lia|].
  apply (undo_roundtrip [trashAfterSave; trashAfterSave] demo_game);
    [reflexivity|vm_compute; lia| |done|simpl; lia].
  repeat constructor; apply trashAfterSave_keeps_history.
Defined.

(** ** Interleavings of input and tween callbacks *)

Section Frames.
Context {R : Type} `{RandomSource R}.
Implicit Types g : Game R.

Lemma replenish_board g : board (replenish g) = board g.
Proof. unfold replenish. by destruct (replenishQueue _ _ _ _). Qed.

Lemma checkGameOver_board g : board (checkGameOver g) = board g.
Proof. unfold checkGameOver. by repeat case_match. Qed.

Lemma spawnNextTile_board g : board (spawnNextTile g) = board g.
Proof.
  unfold spawnNextTile. destruct (queueShift _) as [[t|] q].
  - rewrite checkGameOver_board. apply replenish_board.
  - apply replenish_board.
Qed.

Lemma replenish_undoStack g : undoStack (replenish g) = undoStack g.
Proof. unfold replenish. by destruct (replenishQueue _ _ _ _). Qed.

Lemma checkGameOver_undoStack g : undoStack (checkGameOver g) = undoStack g.
Proof. unfold checkGameOver. by repeat case_match. Qed.

Lemma spawnNextTile_undoStack g : undoStack (spawnNextTile g) = undoStack g.
Proof.
  unfold spawnNextTile. destruct (queueShift _) as [[t|] q].
  - rewrite checkGameOver_undoStack. apply replenish_undoStack.
  - apply replenish_undoStack.
Qed.

Lemma tryDropOnGrid_over t x y g g' : tryDropOnGrid t x y g = Some g' -> isGameOver g' = isGameOver g.
Proof. unfold tryDropOnGrid. by repeat case_match; intros [= <-]. Qed.

(** A restart keeps the merge animations in flight: the new game's board
    is the reset one, with the old game's pending callbacks. *)
Lemma startNewGame_board g :
  board (startNewGame g) =
    mkMS empty_grid (resetScore (gscore g)) false (ms_events (board g)).
Proof. unfold startNewGame. by rewrite spawnNextTile_board, replenish_board. Qed.
End Frames.

(** C33: a pending match callback pays after undo and after a restart.
    While the tween of a match is running ([MatchEvent] is the oldest
    pending animation), [undo] restores a snapshot but leaves the tween
    running, so its callback then adds 10 points to the restored game: the
    board, queue and hand of the snapshot, with its score plus 10 (when
    the snapshot is the one taken before the matching move, the same
    move pays twice).  After a restart instead, the callback of the old
    game's match adds its 10 points to the new, empty game. *)
Theorem pending_match_pays_after_reset {R} `{RandomSource R} (g : Game R) i j rest :
  ms_events (board g) = MatchEvent i j :: rest ->
  (forall st, last (undoStack g) = Some st ->
     exists g', run [KeyUndo; MergeTweenEnd] g = Some g' /\
       ggrid g' = snap_grid st /\ queue g' = snap_queue st /\ hand g' = snap_hand st /\
       score (gscore g') = snap_score st + 10) /\
  (exists g', run [KeyRestart; MergeTweenEnd] g = Some g' /\
     ggrid g' = empty_grid /\ score (gscore g') = 10).
Proof.
  destruct g as [[gr sc m evs] q u k h hi ha d o ta r]; cbn [board ms_events]; intros ->. split.
  - cbn [undoStack]. intros st Hst. cbn [run step]. unfold undo. cbn [undoStack]. rewrite Hst.
    eexists. split; [reflexivity|]. cbn. repeat split. apply addScore_score.
  - cbn [run step]. rewrite startNewGame_board. cbn [ms_events].
    eexists. split; [reflexivity|]. unfold ggrid, gscore; cbn [board set_board].
    cbn. split; [done|]. apply addScore_score.
Qed.

(** A game in progress: 5 at cell 5, a 5 in hand. *)
Definition match_game : Game N :=
  mkGame (mkMS (<[5:=Some (mkTile 5 tile_blue)]> empty_grid) (mkScore 0 0 1 10 None) false [])
    [mkTile 7 tile_pink; mkTile 9 tile_red; mkTile 11 tile_orange; mkTile 13 tile_blue]
    [] None (Some (mkTile 5 tile_red)) true false 1 false 0 7%N.

(** The hand 5 dropped on cell 1, above the 5 of cell 5: a match whose
    tween is still running. *)
Definition match_pending : Game N := dragEndHand (slotX 1) (slotY 1) match_game.

Lemma pending_match_pays_after_reset_witness :
  ms_events (board match_pending) = [MatchEvent 1 5] /\
  last (undoStack match_pending) = Some (snapshotOf match_game) /\
  exists g', run [KeyUndo; MergeTweenEnd] match_pending = Some g' /\
    ggrid g' = ggrid match_game /\ queue g' = queue match_game /\ hand g' = hand match_game /\
    score (gscore g') = score (gscore match_game) + 10.
Proof.
  assert (He : ms_events (board match_pending) = [MatchEvent 1 5]) by (vm_compute; reflexivity).
  assert (Hu : last (undoStack match_pending) = Some (snapshotOf match_game)) by (vm_compute; reflexivity).
  split; [exact He|]. split; [exact Hu|].
  exact (proj1 (pending_match_pays_after_reset match_pending 1 5 [] He) _ Hu).
Defined.

(** C34: the kept tile never ends the game.  [handleKeepDragEnd] places
    the kept tile but never calls [checkGameOver], so releasing the keep
    container leaves the game-over flag as it was, even when the tile
    fills the last empty cell and no merge is running; the game only ends
    at the next check. *)
Theorem keep_drop_never_ends_game {R} `{RandomSource R} (g g' : Game R) x y :
  step (DragKeep x y) g = Some g' -> isGameOver g' = isGameOver g.
Proof.
  cbn [step]. destruct (keepTileData g) eqn:Ek; [|done]. intros [= <-].
  unfold dragEndKeep, handleKeepDragEnd. destruct (isGameOver g) eqn:Eo; [done|].
  destruct (isValidDrop _ _ _ _); [|done].
  destruct (tryDropOnGrid _ _ _ (saveState g)) as [g2|] eqn:E; [|exact Eo].
  rewrite <- Eo. exact (tryDropOnGrid_over _ _ _ _ _ E).
Qed.

(** Fifteen cells of distinct primes (no two neighbours match or divide)
    and cell 15 empty; a 53 in the keep slot. *)
Definition primes15 : Grid :=
  map (fun v => Some (mkTile v tile_blue)) [2; 3; 5; 7; 11; 13; 17; 19; 23; 29; 31; 37; 41; 43; 47]
  ++ [None].

Definition almost_full_game : Game N :=
  mkGame (mkMS primes15 (mkScore 0 0 1 10 None) false [])
    [mkTile 4 tile_pink; mkTile 9 tile_red; mkTile 11 tile_orange; mkTile 13 tile_blue]
    [] (Some (mkTile 53 tile_red)) (Some (mkTile 59 tile_pink)) true false 1 false 0 7%N.

Definition keep_filled : Game N := dragEndKeep (slotX 15) (slotY 15) almost_full_game.

Lemma keep_drop_never_ends_game_witness :
  step (DragKeep (slotX 15) (slotY 15)) almost_full_game = Some keep_filled /\
  gridFull (ggrid keep_filled) = true /\ ms_merging (board keep_filled) = false /\
  isGameOver keep_filled = isGameOver almost_full_game.
Proof.
  assert (Hs : step (DragKeep (slotX 15) (slotY 15)) almost_full_game = Some keep_filled)
    by reflexivity.
  split; [exact Hs|]. split; [vm_compute; reflexivity|]. split; [vm_compute; reflexivity|].
  exact (keep_drop_never_ends_game almost_full_game keep_filled _ _ Hs).
Defined.
