(* ===== verification/Invariant.v ===== *)
(** * Invariants of reachable sessions

    [session_ok] collects what every state reachable by inputs and tween
    callbacks from the state before the first game satisfies: the board
    invariant of [Merge] (16 cells, values at least 2, no neighbouring
    pair that matches or divides), a trash count of at most 10, at most 10
    snapshots, each of them satisfying the same invariant, tiles of value
    at least 2 in the queue, the keep slot and the hand, and a game over
    only on a full board, [isMerging] only while a merge animation is
    pending, and a score at most the best score, itself at most the one in
    storage (snapshots included).  One lemma per operation of [Session] shows it
    is preserved; [reachable_session_ok] is their induction over [steps]. *)

From S2P Require Import Prelude Tile Grid Score Merge Undo Session.
From Stdlib Require Import ZArith.

Definition tile_ok (t : TileData) : Prop := 2 <= value t.

Definition opt_ok (o : option TileData) : Prop := forall t, o = Some t -> tile_ok t.

Definition snap_ok (s : Snapshot) : Prop :=
  board_ok (snap_grid s) /\ snap_trash s <= 10 /\ Forall tile_ok (snap_queue s) /\
  opt_ok (snap_keep s) /\ opt_ok (snap_hand s).

(** [isMerging] is only set while a merge animation is pending. *)
Definition merging_ok (s : MState) : Prop := ms_merging s = true -> ms_events s <> [].

Record session_ok {R} (g : Game R) : Prop := {
  ok_board : board_ok (ggrid g);
  ok_trash : trashCount (gscore g) <= 10;
  ok_history : length (undoStack g) <= 10;
  ok_queue : Forall tile_ok (queue g);
  ok_keep : opt_ok (keepTileData g);
  ok_hand : opt_ok (hand g);
  ok_snaps : Forall snap_ok (undoStack g);
  ok_over : isGameOver g = true -> gridFull (ggrid g) = true;
  ok_merging : merging_ok (board g);
  ok_scores : best_ok (gscore g);
  ok_snapscores : Forall (fun st => snap_score st <= bestScore (gscore g)) (undoStack g)
}.

Lemma opt_ok_None : opt_ok None.
Proof. by intros t [=]. Qed.

Lemma opt_ok_Some t : tile_ok t -> opt_ok (Some t).
Proof. by intros Ht t' [= <-]. Qed.

#[export] Hint Resolve opt_ok_None opt_ok_Some : jd.

Lemma merging_ok_idle g sc evs : merging_ok (mkMS g sc false evs).
Proof. by intros [=]. Qed.

Lemma mergeStep_merging i s : merging_ok s -> merging_ok (stepState (mergeStep i s)).
Proof.
  intros Hm.
  destruct (mergeStep_cases i s) as
    [[-> _]|[(? & ? & ? & _ & _ & _ & ->)|[(? & ? & ? & _ & _ & _ & _ & _ & ->)|
      (? & ? & ? & _ & _ & _ & _ & _ & ->)]]]; [done|..];
    intros _; cbn; by destruct (ms_events s).
Qed.

Lemma resolves_merging i s s' : resolves i s s' -> merging_ok s -> merging_ok s'.
Proof.
  induction 1 as [i s s' E|i j s s' s'' E _ IH]; intros Hm;
    pose proof (mergeStep_merging i s Hm) as H; rewrite E in H; auto.
Qed.

Lemma createGridTile_merging i t s :
  length (ms_grid s) = 16 -> merging_ok s -> merging_ok (createGridTile i t s).
Proof.
  intros Hl Hm. pose proof (createGridTile_resolves i t s Hl) as Hr. cbn zeta in Hr.
  apply resolves_merging in Hr; [|done]. exact Hr.
Qed.

Lemma animationDone_merging b : merging_ok b -> merging_ok (animationDone b).
Proof.
  intros Hm. unfold animationDone.
  destruct (ms_events b) as [|[] ?]; [exact Hm|apply merging_ok_idle..].
Qed.

#[export] Hint Resolve merging_ok_idle : jd.

(** The score updates of the cascade keep [best_ok] and never lower the
    best score. *)
Definition best_grows (s s' : ScoreState) : Prop :=
  best_ok s -> best_ok s' /\ bestScore s <= bestScore s'.

Lemma best_grows_refl s : best_grows s s.
Proof. by split. Qed.

Lemma best_grows_trans s1 s2 s3 : best_grows s1 s2 -> best_grows s2 s3 -> best_grows s1 s3.
Proof. intros H12 H23 H1. destruct (H12 H1) as [H2 ?]. destruct (H23 H2). split; [done|lia]. Qed.

Lemma mergeStep_best i s : best_grows (ms_score s) (ms_score (stepState (mergeStep i s))).
Proof.
  destruct (mergeStep_cases i s) as
    [[-> _]|[(? & ? & ? & _ & _ & _ & ->)|[(? & ? & ? & _ & _ & _ & _ & _ & ->)|
      (? & ? & ? & _ & _ & _ & _ & _ & ->)]]]; cbn;
    [apply best_grows_refl|apply best_grows_refl|intros ?; by apply addScore_best_ok..].
Qed.

Lemma resolves_best i s s' : resolves i s s' -> best_grows (ms_score s) (ms_score s').
Proof.
  induction 1 as [i s s' E|i j s s' s'' E _ IH];
    pose proof (mergeStep_best i s) as H; rewrite E in H; [done|].
  eapply best_grows_trans; [exact H|exact IH].
Qed.

Lemma createGridTile_best i t s :
  length (ms_grid s) = 16 -> best_grows (ms_score s) (ms_score (createGridTile i t s)).
Proof.
  intros Hl Hb. pose proof (createGridTile_resolves i t s Hl) as Hr. cbn zeta in Hr.
  destruct (resolves_best _ _ _ Hr Hb) as [H1 H2]. cbn [ms_score] in *.
  unfold createGridTile. cbn zeta. cbn [ms_score].
  split; [by apply checkLevelUp_best_ok|by rewrite checkLevelUp_best].
Qed.

Lemma animationDone_best b : best_grows (ms_score b) (ms_score (animationDone b)).
Proof.
  unfold animationDone. destruct (ms_events b) as [|[] ?]; [apply best_grows_refl|intros ?; by apply addScore_best_ok|apply best_grows_refl].
Qed.

Lemma snapscores_weaken (u : list Snapshot) b b' :
  b <= b' -> Forall (fun st => snap_score st <= b) u -> Forall (fun st => snap_score st <= b') u.
Proof. intros Hle Hf. eapply Forall_impl; [exact Hf|]. simpl; lia. Qed.

Section Preservation.
Context {R : Type} `{RandomSource R}.
Implicit Types g : Game R.

(** An update that leaves every field of the invariant alone. *)
Lemma session_ok_frame g g' :
  ggrid g' = ggrid g -> trashCount (gscore g') = trashCount (gscore g) ->
  undoStack g' = undoStack g -> queue g' = queue g -> keepTileData g' = keepTileData g ->
  hand g' = hand g -> isGameOver g' = isGameOver g ->
  (merging_ok (board g) -> merging_ok (board g')) -> best_grows (gscore g) (gscore g') ->
  session_ok g -> session_ok g'.
Proof.
  intros E1 E2 E3 E4 E5 E6 E7 E8 E9 [Hb Ht Hu Hq Hk Hh Hs Ho Hm Hsc Hss].
  destruct (E9 Hsc) as [Hsc' Hle].
  constructor; rewrite ?E1, ?E2, ?E3, ?E4, ?E5, ?E6, ?E7; auto. by apply (snapscores_weaken _ _ _ Hle).
Qed.

Lemma replenish_ok g : session_ok g -> session_ok (replenish g).
Proof.
  intros [Hb Ht Hu Hq Hk Hh Hs Ho Hm Hsc Hss]. unfold replenish, replenishQueue.
  destruct (fillQueue_spec 5 (maxVal (difficulty g) (level (gscore g))) (queue g) (rng g))
    as (fresh & Heq & _ & Hf); [pose proof (maxVal_ge (difficulty g) (level (gscore g))); lia|lia|].
  destruct (fillQueue _ _ _ _) as [q r]. simpl in Heq; subst q.
  constructor; try done. simpl. apply Forall_app. split; [done|].
  eapply Forall_impl; [exact Hf|]. intros t [[? ?] _]. unfold tile_ok; lia.
Qed.

Lemma checkGameOver_ok g : session_ok g -> session_ok (checkGameOver g).
Proof.
  intros Hok. unfold checkGameOver.
  destruct (ms_merging (board g)); [done|].
  destruct (gridFull (ggrid g)) eqn:Hf; [|done].
  destruct (isGameOver g); [done|].
  destruct Hok as [Hb Ht Hu Hq Hk Hh Hs Ho Hm Hsc Hss]. by constructor.
Qed.

(** [spawnNextTile] always draws: after [replenishQueue] the queue holds
    at least 5 tiles; the hand is its first tile and 4 or more remain. *)
Lemma spawnNextTile_draws g :
  exists t q, queue (replenish g) = t :: q /\ 4 <= length q /\
    spawnNextTile g = checkGameOver (set_hand (Some t) true (set_queue q (replenish g))).
Proof.
  unfold spawnNextTile. cbv zeta.
  assert (5 <= length (queue (replenish g))) as Hl.
  { unfold replenish, replenishQueue.
    destruct (fillQueue_spec 5 (maxVal (difficulty g) (level (gscore g))) (queue g) (rng g))
      as (fresh & Heq & Hlen & _); [pose proof (maxVal_ge (difficulty g) (level (gscore g))); lia|lia|].
    destruct (fillQueue _ _ _ _) as [q r]. simpl in *. subst q. lia. }
  destruct (queue (replenish g)) as [|t q] eqn:E; simpl in Hl; [lia|].
  exists t, q. split; [done|]. split; [lia|]. reflexivity.
Qed.

Lemma spawnNextTile_ok g : session_ok g -> session_ok (spawnNextTile g).
Proof.
  intros Hok. destruct (spawnNextTile_draws g) as (t & q & Hq & _ & ->).
  apply checkGameOver_ok. apply replenish_ok in Hok.
  destruct Hok as [Hb Ht Hu Hqok Hk Hh Hs Ho Hm Hsc Hss].
  rewrite Hq in Hqok. apply Forall_cons in Hqok as [Ht0 Hq0].
  constructor; simpl; auto with jd.
Qed.

Lemma saveState_ok g : session_ok g -> session_ok (saveState g).
Proof.
  intros [Hb Ht Hu Hq Hk Hh Hs Ho Hm Hsc Hss].
  constructor; try done.
  - by apply saveState_bounded.
  - unfold saveState, set_undoStack. cbn [undoStack]. apply Forall_app. split.
    + destruct (10 <=? length (undoStack g)); [|done].
      destruct (undoStack g); [constructor|simpl; by inversion Hs].
    + apply Forall_singleton. unfold snap_ok. simpl. auto.
  - unfold saveState, set_undoStack. cbn [undoStack]. apply Forall_app. split.
    + destruct (10 <=? length (undoStack g)); [|done].
      destruct (undoStack g); [constructor|simpl; by inversion Hss].
    + apply Forall_singleton. exact (proj1 Hsc).
Qed.

Lemma undo_ok g : session_ok g -> session_ok (undo g).
Proof.
  intros [Hb Ht Hu Hq Hk Hh Hs Ho Hm Hsc Hss]. unfold undo.
  destruct (last (undoStack g)) as [st|] eqn:E; [|by constructor].
  apply last_Some in E as [pre Epre]. rewrite Epre in Hs, Hu.
  apply Forall_app in Hs as [Hpre Hst]. apply Forall_cons in Hst as [(Hsb & Hst & Hsq & Hsk & Hsh) _].
  rewrite length_app in Hu. simpl in Hu. rewrite Epre in Hss.
  apply Forall_app in Hss as [Hss Hsts]. apply Forall_cons in Hsts as [Hsts _]. destruct Hsc as [_ Hbest].
  constructor; simpl; try done.
  - rewrite Epre, removelast_last. lia.
  - by rewrite Epre, removelast_last.
  - by rewrite Epre, removelast_last.
Qed.
End Preservation.

Section Handlers.
Context {R : Type} `{RandomSource R}.
Implicit Types g : Game R.

Lemma startNewGame_ok g : session_ok (startNewGame g).
Proof.
  unfold startNewGame, resetGame. apply spawnNextTile_ok, replenish_ok.
  constructor; simpl; auto with jd; try done;
    first [apply empty_board_ok|unfold best_ok, gscore, resetScore, storedBest; cbn; lia|lia].
Qed.

Lemma handleTrashDrop_ok g : session_ok g -> session_ok (handleTrashDrop g).
Proof.
  intros Hok. unfold handleTrashDrop. destruct (0 <? _); [|done].
  destruct (saveState_ok g Hok) as [Hb Ht Hu Hq Hk Hh Hs Ho Hm Hsc Hss].
  constructor; simpl; try done. etransitivity; [apply Nat.le_sub_l|exact Ht].
Qed.

Lemma trashAnimDone_ok g : session_ok g -> session_ok (trashAnimDone g).
Proof.
  intros Hok. unfold trashAnimDone. apply spawnNextTile_ok.
  by apply (session_ok_frame g).
Qed.

Lemma handleHandToKeep_ok g : session_ok g -> session_ok (handleHandToKeep g).
Proof.
  intros Hok. unfold handleHandToKeep.
  destruct (hand g) as [h|] eqn:Eh; [|done].
  pose proof Hok as [Hb Ht Hu Hq Hk Hh Hs Ho Hm Hsc Hss]. rewrite Eh in Hh.
  destruct (keepTileData g) as [k|] eqn:Ek.
  - apply checkGameOver_ok. constructor; simpl; auto.
  - apply spawnNextTile_ok. constructor; simpl; rewrite ?Eh; auto.
Qed.

Lemma undoPop_ok g : session_ok g -> session_ok (undoPop g).
Proof.
  intros [Hb Ht Hu Hq Hk Hh Hs Ho Hm Hsc Hss].
  destruct (removelast_prefix (undoStack g)) as [tl Etl].
  rewrite Etl in Hu, Hs, Hss. rewrite length_app in Hu.
  apply Forall_app in Hs as [Hs _]. apply Forall_app in Hss as [Hss _].
  constructor; simpl; try done. lia.
Qed.

Lemma tryDropOnGrid_ok t x y g g' :
  session_ok g -> opt_ok t -> isGameOver g = false -> tryDropOnGrid t x y g = Some g' ->
  session_ok g'.
Proof.
  intros [Hb Ht Hu Hq Hk Hh Hs Ho Hm Hsc Hss] Htile Hover. unfold tryDropOnGrid.
  destruct t as [tile|]; [|done].
  destruct (dropTarget _ _ _ _) as [i|] eqn:Ed; [|done]. intros [= <-].
  unfold dropTarget in Ed. destruct (valueTruthy _); [|done].
  apply firstDrop_Some in Ed as (_ & _ & He%isEmpty_lookup).
  pose proof Hb as [[Hl _] _].
  constructor; simpl; try done.
  - apply createGridTile_keeps_board; [done|done|by apply Htile].
  - by apply createGridTile_trash.
  - by rewrite Hover.
  - by apply createGridTile_merging.
  - by apply createGridTile_best.
  - apply (snapscores_weaken _ _ _ (proj2 (createGridTile_best i tile (board g) Hl Hsc)) Hss).
Qed.

Lemma handleKeepDragEnd_ok x y g :
  session_ok g -> isGameOver g = false -> session_ok (handleKeepDragEnd x y g).
Proof.
  intros Hok Hover. unfold handleKeepDragEnd.
  destruct (isValidDrop _ _ _ _); [|done].
  pose proof (saveState_ok g Hok) as Hok1.
  destruct (tryDropOnGrid _ _ _ _) as [g2|] eqn:Et; [|by apply undoPop_ok].
  apply (tryDropOnGrid_ok _ _ _ _ _ Hok1 (ok_keep _ Hok1) Hover) in Et as [Hb Ht Hu Hq Hk Hh Hs Ho Hm Hsc Hss].
  constructor; simpl; auto with jd.
Qed.

Lemma dragEndHand_ok x y g : session_ok g -> session_ok (dragEndHand x y g).
Proof.
  intros Hok. unfold dragEndHand.
  destruct (isGameOver g) eqn:Hover; [done|].
  destruct (near x y trashX trashY 80); [by apply handleTrashDrop_ok|].
  destruct (near x y keepSlotX keepSlotY 60); [by apply handleHandToKeep_ok, saveState_ok|].
  destruct (isValidDrop _ _ _ _); [|by apply checkGameOver_ok].
  pose proof (saveState_ok g Hok) as Hok1.
  destruct (tryDropOnGrid _ _ _ _) as [g2|] eqn:Et; [|by apply undoPop_ok].
  apply spawnNextTile_ok. exact (tryDropOnGrid_ok _ _ _ _ _ Hok1 (ok_hand _ Hok1) Hover Et).
Qed.

Lemma animationDone_grid b : ms_grid (animationDone b) = ms_grid b.
Proof. unfold animationDone. by destruct (ms_events b) as [|[] ?]. Qed.

Lemma animationDone_trash b :
  trashCount (ms_score (animationDone b)) = trashCount (ms_score b).
Proof.
  unfold animationDone. destruct (ms_events b) as [|[] ?]; simpl; rewrite ?addScore_trash; done.
Qed.

Lemma step_ok inp g g' : session_ok g -> step inp g = Some g' -> session_ok g'.
Proof.
  intros Hok. destruct inp; simpl.
  - destruct (handInteractive g); [intros [= <-]; by apply dragEndHand_ok|done].
  - destruct (keepTileData g); [intros [= <-]|done]. unfold dragEndKeep.
    destruct (isGameOver g) eqn:Ho; [done|by apply handleKeepDragEnd_ok].
  - intros [= <-]. by apply undo_ok.
  - intros [= <-]. apply startNewGame_ok.
  - intros [= <-]. by apply (session_ok_frame g).
  - destruct (_ && _); [intros [= <-]; by apply (session_ok_frame g)|done].
  - destruct (ms_events (board g)); [done|]. intros [= <-].
    apply (session_ok_frame g); try done.
    + apply animationDone_grid.
    + apply animationDone_trash.
    + apply animationDone_merging.
    + apply animationDone_best.
  - destruct (trashAnims g); [done|]. intros [= <-]. by apply trashAnimDone_ok.
Qed.

Lemma run_steps inps g g' : run inps g = Some g' -> steps g g'.
Proof.
  revert g. induction inps as [|i inps IH]; intros g; simpl; [intros [= <-]; constructor|].
  destruct (step i g) as [g1|] eqn:E; [|done]. intros Hr. econstructor; [exact E|by apply IH].
Qed.

Lemma steps_ok g g' : steps g g' -> session_ok g -> session_ok g'.
Proof.
  induction 1 as [g|g g' g'' inp Hst _ IH]; intros Hok; [done|].
  apply IH. by eapply step_ok.
Qed.

Lemma boot_ok saved (r : R) : session_ok (boot saved r).
Proof.
  constructor; simpl; auto with jd; try done;
    first [apply empty_board_ok|unfold best_ok, gscore, resetScore, storedBest; cbn; lia|lia].
Qed.
End Handlers.

(** ** Score, level and best score along a step *)

(** What a step may do to the scoring globals outside undo and restart:
    raise the score, raise the level at most to the score's level, and
    raise the best score. *)
Definition scores_grow (s s' : ScoreState) : Prop :=
  score s <= score s' /\ level s <= level s' <= Nat.max (level s) (levelOf (score s')) /\
  bestScore s <= bestScore s'.

Lemma scores_grow_refl s : scores_grow s s.
Proof. unfold scores_grow. lia. Qed.

Lemma animationDone_scores b : scores_grow (ms_score b) (ms_score (animationDone b)).
Proof.
  unfold animationDone, scores_grow.
  destruct (ms_events b) as [|[] ?]; cbn [ms_score]; rewrite ?addScore_score, ?addScore_level, ?addScore_best; lia.
Qed.

Lemma createGridTile_scores i t s :
  length (ms_grid s) = 16 -> best_ok (ms_score s) ->
  scores_grow (ms_score s) (ms_score (createGridTile i t s)).
Proof.
  intros Hl Hb. destruct (createGridTile_scoring i t s Hl) as [Hs Hlv].
  destruct (createGridTile_best i t s Hl Hb) as [_ Hbest]. unfold scores_grow. rewrite Hlv. lia.
Qed.

Lemma levelOf_mono a b : a <= b -> levelOf a <= levelOf b.
Proof. unfold levelOf. intros H. pose proof (Nat.Div0.div_le_mono a b 10 H). lia. Qed.

(** The snapshots a step leaves are snapshots it found, or the snapshot of
    the state it started from. *)
Definition history_from {R} (g g' : Game R) : Prop :=
  forall st, st ∈ undoStack g' -> st ∈ undoStack g \/ st = snapshotOf g.

(** The bound the level keeps: at least 1, never above the level of the
    score. *)
Definition level_ok (sc lv : nat) : Prop := 1 <= lv <= levelOf sc.

Definition levels_ok {R} (g : Game R) : Prop :=
  level_ok (score (gscore g)) (level (gscore g)) /\
  Forall (fun st => level_ok (snap_score st) (snap_level st)) (undoStack g).

Section Scoring.
Context {R : Type} `{RandomSource R}.
Implicit Types g : Game R.

Lemma history_from_same g g' : undoStack g' = undoStack g -> history_from g g'.
Proof. intros E st. rewrite E. by left. Qed.

Lemma history_from_saveState g g' : undoStack g' = undoStack (saveState g) -> history_from g g'.
Proof.
  intros E st. rewrite E. unfold saveState, set_undoStack. cbn [undoStack].
  rewrite elem_of_app, list_elem_of_singleton. intros [Hin| ->]; [left|by right].
  destruct (10 <=? _); [|done]. destruct (undoStack g); [inversion Hin|by right].
Qed.

Lemma history_from_undoPop g g1 : history_from g g1 -> history_from g (undoPop g1).
Proof.
  intros Hh st Hst. apply Hh. destruct (removelast_prefix (undoStack g1)) as [tl Etl].
  rewrite Etl, elem_of_app. by left.
Qed.

(** A step that keeps the board keeps the scoring globals. *)
Lemma board_scores g g' : board g' = board g -> scores_grow (gscore g) (gscore g').
Proof. intros E. unfold gscore. rewrite E. apply scores_grow_refl. Qed.

Lemma handleHandToKeep_frame g :
  board (handleHandToKeep g) = board g /\ undoStack (handleHandToKeep g) = undoStack g.
Proof.
  unfold handleHandToKeep. destruct (hand g); [|done]. destruct (keepTileData g).
  - by rewrite checkGameOver_board, checkGameOver_undoStack.
  - by rewrite spawnNextTile_board, spawnNextTile_undoStack.
Qed.

Lemma tryDropOnGrid_scores t x y g g' :
  session_ok g -> tryDropOnGrid t x y g = Some g' ->
  scores_grow (gscore g) (gscore g') /\ undoStack g' = undoStack g.
Proof.
  intros Hok. unfold tryDropOnGrid. destruct t as [tile|]; [|done].
  destruct (dropTarget _ _ _ _) as [i|]; [|done]. intros [= <-]. split; [|done].
  pose proof (ok_board _ Hok) as [[Hl _] _].
  exact (createGridTile_scores i tile (board g) Hl (ok_scores _ Hok)).
Qed.

(** The placement branch shared by both [dragend] handlers: [saveState],
    then [tryDropOnGrid], then [finish] on success, [undoPop] otherwise. *)
Lemma placement_scores t x y g (finish : Game R -> Game R) :
  session_ok g ->
  (forall g2, board (finish g2) = board g2 /\ undoStack (finish g2) = undoStack g2) ->
  let g' := match tryDropOnGrid t x y (saveState g) with
            | Some g2 => finish g2 | None => undoPop (saveState g) end in
  scores_grow (gscore g) (gscore g') /\ history_from g g'.
Proof.
  intros Hok Hf. cbn zeta. destruct (tryDropOnGrid _ _ _ _) as [g2|] eqn:Et.
  - destruct (tryDropOnGrid_scores _ _ _ _ _ (saveState_ok g Hok) Et) as [Hs Hu].
    destruct (Hf g2) as [Eb Eu]. split.
    + unfold gscore. rewrite Eb. exact Hs.
    + apply history_from_saveState. by rewrite Eu.
  - split; [by apply board_scores|]. by apply history_from_undoPop, history_from_saveState.
Qed.

Lemma dragEndHand_scores x y g :
  session_ok g ->
  scores_grow (gscore g) (gscore (dragEndHand x y g)) /\ history_from g (dragEndHand x y g).
Proof.
  intros Hok. unfold dragEndHand.
  destruct (isGameOver g); [split; [apply scores_grow_refl|by apply history_from_same]|].
  destruct (near x y trashX trashY 80).
  { unfold handleTrashDrop. destruct (0 <? _); [|split; [apply scores_grow_refl|by apply history_from_same]].
    split; [split; [apply le_n|split; [split; [apply le_n|apply Nat.le_max_l]|apply le_n]]|by apply history_from_saveState]. }
  destruct (near x y keepSlotX keepSlotY 60).
  { destruct (handleHandToKeep_frame (saveState g)) as [Eb Eu].
    split; [by apply board_scores|by apply history_from_saveState]. }
  destruct (isValidDrop _ _ _ _).
  - apply placement_scores; [done|]. intros g2. by rewrite spawnNextTile_board, spawnNextTile_undoStack.
  - split; [apply board_scores, checkGameOver_board|apply history_from_same, checkGameOver_undoStack].
Qed.

Lemma dragEndKeep_scores x y g :
  session_ok g ->
  scores_grow (gscore g) (gscore (dragEndKeep x y g)) /\ history_from g (dragEndKeep x y g).
Proof.
  intros Hok. unfold dragEndKeep, handleKeepDragEnd.
  destruct (isGameOver g); [split; [apply scores_grow_refl|by apply history_from_same]|].
  destruct (isValidDrop _ _ _ _); [|split; [apply scores_grow_refl|by apply history_from_same]].
  by apply placement_scores.
Qed.

(** Every input but undo and restart raises the scoring globals and
    leaves only snapshots it found or took. *)
Lemma step_scores inp g g' :
  session_ok g -> step inp g = Some g' -> inp <> KeyUndo -> inp <> KeyRestart ->
  scores_grow (gscore g) (gscore g') /\ history_from g g'.
Proof.
  intros Hok. destruct inp; cbn [step]; intros Hs Hu Hr; try congruence.
  - destruct (handInteractive g); [|done]. injection Hs as <-. by apply dragEndHand_scores.
  - destruct (keepTileData g); [|done]. injection Hs as <-. by apply dragEndKeep_scores.
  - injection Hs as <-. split; [by apply board_scores|by apply history_from_same].
  - destruct (_ && _); [|done]. injection Hs as <-.
    split; [by apply board_scores|by apply history_from_same].
  - destruct (ms_events (board g)); [done|]. injection Hs as <-.
    split; [apply animationDone_scores|by apply history_from_same].
  - destruct (trashAnims g); [done|]. injection Hs as <-. unfold trashAnimDone.
    split; [apply board_scores; by rewrite spawnNextTile_board
           |apply history_from_same; by rewrite spawnNextTile_undoStack].
Qed.

Lemma startNewGame_gscore g : gscore (startNewGame g) = resetScore (gscore g).
Proof. unfold gscore. by rewrite startNewGame_board. Qed.

Lemma startNewGame_undoStack g : undoStack (startNewGame g) = [].
Proof. unfold startNewGame. by rewrite spawnNextTile_undoStack, replenish_undoStack. Qed.

Lemma undo_best g : bestScore (gscore (undo g)) = bestScore (gscore g).
Proof. unfold undo. by destruct (last (undoStack g)). Qed.

Lemma step_levels inp g g' : session_ok g -> levels_ok g -> step inp g = Some g' -> levels_ok g'.
Proof.
  intros Hok [Hl Hu] Hs.
  assert (Hgen : scores_grow (gscore g) (gscore g') /\ history_from g g' -> levels_ok g').
  { intros [(Hsc & Hlv & _) Hh]. split.
    - unfold level_ok in *. pose proof (levelOf_mono _ _ Hsc). lia.
    - apply Forall_forall. intros st Hst.
      destruct (Hh st Hst) as [Hin| ->]; [exact (proj1 (Forall_forall _ _) Hu st Hin)|exact Hl]. }
  destruct inp; try (apply Hgen; apply (step_scores _ g g' Hok Hs); discriminate).
  - injection Hs as <-. unfold undo. destruct (last (undoStack g)) as [st|] eqn:E; [|done].
    apply last_Some in E as [pre Epre]. rewrite Epre in Hu.
    apply Forall_app in Hu as [Hpre Hst]. apply Forall_cons in Hst as [Hst _].
    split; [exact Hst|]. cbn [undoStack]. by rewrite Epre, removelast_last.
  - injection Hs as <-. unfold levels_ok. rewrite startNewGame_gscore, startNewGame_undoStack.
    split; [unfold level_ok, levelOf, resetScore; cbn; lia|constructor].
Qed.

Lemma steps_levels g g' : steps g g' -> session_ok g -> levels_ok g -> levels_ok g'.
Proof.
  induction 1 as [g|g g1 g2 inp Hst _ IH]; intros Hok Hl; [done|].
  apply IH; [by eapply step_ok|by eapply step_levels].
Qed.

Lemma boot_levels saved (r : R) : levels_ok (boot saved r).
Proof. split; [unfold level_ok, levelOf; cbn; lia|constructor]. Qed.
End Scoring.

(** C8: every reachable state of a session satisfies the invariant: the
    board has 16 cells, values at least 2 and no neighbouring pair that
    matches or divides; the trash count is at most 10; the history holds
    at most 10 snapshots, each of a state with the same properties and a
    score at most the current best score; the queue, the keep slot and the
    hand hold tiles of value at least 2; the game is over only on a full
    board; [isMerging] is set only while a merge animation is pending; and
    the score is at most the best score, which is at most the best score
    held in storage. *)
Theorem reachable_session_ok {R} `{RandomSource R} (g : Game R) :
  reachable g -> session_ok g.
Proof. intros (saved & r & Hs). exact (steps_ok _ _ Hs (boot_ok saved r)). Qed.

(** A game from the first seed: start, throw the first tile away, let the
    trash animation finish, drop the next tile on cell 5, undo it, and
    drop it again. *)
Definition played_inputs : list Input :=
  [KeyRestart; DragHand trashX trashY; TrashTweenEnd;
   DragHand (slotX 5) (slotY 5); KeyUndo; DragHand (slotX 5) (slotY 5)].

Definition played : option (Game N) := run played_inputs (boot None 7%N).

Definition played_game : Game N :=
  match played with Some g => g | None => boot None 7%N end.

Lemma reachable_session_ok_witness : reachable played_game /\ session_ok played_game.
Proof.
  assert (reachable played_game) as Hr.
  { exists None, 7%N. apply (run_steps played_inputs). vm_compute. reflexivity. }
  split; [exact Hr|exact (reachable_session_ok played_game Hr)].
Defined.

(** C15: the scoring globals only grow.  From any state satisfying the
    invariant, no input and no callback lowers the best score, not even
    undo (which keeps it) or a restart (which reads back the stored best
    score, at least the current one); every input other than undo and
    restart also never lowers the score or the level. *)
Theorem scoring_monotone {R} `{RandomSource R} inp (g g' : Game R) :
  session_ok g -> step inp g = Some g' ->
  bestScore (gscore g) <= bestScore (gscore g') /\
  (inp <> KeyUndo -> inp <> KeyRestart ->
   score (gscore g) <= score (gscore g') /\ level (gscore g) <= level (gscore g')).
Proof.
  intros Hok Hs. destruct inp;
    try (destruct (step_scores _ g g' Hok Hs ltac:(discriminate) ltac:(discriminate))
           as [(? & ? & ?) _]; split; [done|intros _ _; lia]).
  - injection Hs as <-. rewrite undo_best. split; [done|by intros []].
  - injection Hs as <-. rewrite startNewGame_gscore. split; [|by intros _ []].
    pose proof (ok_scores _ Hok) as Hb. unfold best_ok in Hb. unfold resetScore. cbn. lia.
Qed.

Lemma scoring_monotone_witness :
  session_ok played_game /\ step KeyRestart played_game = Some (startNewGame played_game) /\
  bestScore (gscore played_game) <= bestScore (gscore (startNewGame played_game)).
Proof.
  assert (Hok : session_ok played_game).
  { apply (steps_ok (boot None 7%N)); [|apply boot_ok].
    apply (run_steps played_inputs). vm_compute. reflexivity. }
  split; [exact Hok|]. split; [reflexivity|].
  exact (proj1 (scoring_monotone KeyRestart played_game _ Hok eq_refl)).
Defined.

(** C16: the level is never ahead of the score.  In every reachable state,
    and in every snapshot of its history, the level is at least 1 and at
    most [floor(score/10) + 1].  It can be behind: the 10 points of a
    match are added by the tween's callback, which does not run
    [checkLevelUp]. *)
Theorem level_never_ahead {R} `{RandomSource R} (g : Game R) :
  reachable g ->
  level_ok (score (gscore g)) (level (gscore g)) /\
  Forall (fun st => level_ok (snap_score st) (snap_level st)) (undoStack g).
Proof.
  intros (saved & r & Hs). exact (steps_levels _ _ Hs (boot_ok saved r) (boot_levels saved r)).
Qed.

Lemma level_never_ahead_witness :
  reachable played_game /\ level_ok (score (gscore played_game)) (level (gscore played_game)).
Proof.
  assert (reachable played_game) as Hr.
  { exists None, 7%N. apply (run_steps played_inputs). vm_compute. reflexivity. }
  split; [exact Hr|exact (proj1 (level_never_ahead played_game Hr))].
Defined.



