(* ===== verification/Contracts.v ===== *)
(** * The session operations against the spec's contracts

    Section 4.7 of the spec describes the operations of the game session:
    [placeTile], [moveHandToKeep] and [discardHand] each take a snapshot,
    change the state, and draw the next hand tile where they consume the
    hand.  In [src/main.js] these are the three branches of the [dragend]
    handler for the hand tile (lines 138-173) with [tryDropOnGrid]
    (lines 692-708), [handleHandToKeep] (lines 438-455) and
    [handleTrashDrop] (lines 411-436), and [spawnNextTile] (lines
    358-389).  The theorems here state what each branch does, as an
    equation on the whole game record or field by field. *)

From S2P Require Import Prelude Tile Grid Score Merge Undo Session Invariant.
From Stdlib Require Import ZArith.

(** The operations of the spec a release of the hand tile can request. *)
Inductive Intent := PlaceTile (index : nat) | MoveHandToKeep | DiscardHand.

(** How the [dragend] handler reads a release of the hand tile at
    [(x, y)], in the order of its tests (lines 139-171): nothing once the
    game is over, then the trash, then the keep slot, then the slot that
    [tryDropOnGrid] would fill; [None] when the tile is sent back. *)
Definition intentOf {R} (x y : Z) (g : Game R) : option Intent :=
  if isGameOver g then None
  else if near x y trashX trashY 80 then Some DiscardHand
  else if near x y keepSlotX keepSlotY 60 then Some MoveHandToKeep
  else option_map PlaceTile (dropTarget (value <$> hand g) (ggrid g) x y).

Section Drop.
Context {R : Type} `{RandomSource R}.
Implicit Types g : Game R.

(** [checkGameOver] only sets the game-over flag and disables the hand. *)
Lemma checkGameOver_fields g :
  board (checkGameOver g) = board g /\ queue (checkGameOver g) = queue g /\
  undoStack (checkGameOver g) = undoStack g /\ keepTileData (checkGameOver g) = keepTileData g /\
  hand (checkGameOver g) = hand g /\ hintsActive (checkGameOver g) = hintsActive g /\
  difficulty (checkGameOver g) = difficulty g /\ trashAnims (checkGameOver g) = trashAnims g /\
  rng (checkGameOver g) = rng g.
Proof.
  unfold checkGameOver. destruct (ms_merging _); [done|]. destruct (gridFull _); [|done].
  by destruct (isGameOver g).
Qed.

Lemma intentOf_cases x y g it :
  intentOf x y g = Some it ->
  isGameOver g = false /\
  match it with
  | DiscardHand => near x y trashX trashY 80 = true
  | MoveHandToKeep => near x y trashX trashY 80 = false /\ near x y keepSlotX keepSlotY 60 = true
  | PlaceTile i => near x y trashX trashY 80 = false /\ near x y keepSlotX keepSlotY 60 = false /\
      dropTarget (value <$> hand g) (ggrid g) x y = Some i
  end.
Proof.
  unfold intentOf. destruct (isGameOver g); [done|].
  destruct (near x y trashX trashY 80); [intros [= <-]; done|].
  destruct (near x y keepSlotX keepSlotY 60); [intros [= <-]; done|].
  destruct (dropTarget _ _ _ _) eqn:E; [intros [= <-]; done|done].
Qed.

(** A slot [tryDropOnGrid] would fill is one [isValidDrop] accepts. *)
Lemma dropTarget_valid v grid x y i :
  dropTarget v grid x y = Some i -> isValidDrop v grid x y = true.
Proof.
  unfold dropTarget, isValidDrop. destruct (valueTruthy v); [|done].
  intros Hd. apply firstDrop_existsb. by rewrite Hd.
Qed.

(** What the handler does for each reading of the release. *)
Lemma dragEndHand_intent x y g :
  isGameOver g = false ->
  match intentOf x y g with
  | None => dragEndHand x y g = checkGameOver g
  | Some DiscardHand => dragEndHand x y g = handleTrashDrop g
  | Some MoveHandToKeep => dragEndHand x y g = handleHandToKeep (saveState g)
  | Some (PlaceTile i) => exists t, hand g = Some t /\
      dragEndHand x y g = spawnNextTile (set_board (createGridTile i t (board g)) (saveState g))
  end.
Proof.
  intros Ho. unfold intentOf, dragEndHand. rewrite Ho.
  destruct (near x y trashX trashY 80); [done|]. destruct (near x y keepSlotX keepSlotY 60); [done|].
  destruct (dropTarget _ _ _ _) as [i|] eqn:Hd; cbn [option_map].
  - rewrite (dropTarget_valid _ _ _ _ _ Hd). unfold tryDropOnGrid.
    destruct (hand g) as [t|] eqn:Hh; [|done]. exists t. split; [done|].
    cbn [hand saveState set_undoStack]. rewrite Hh.
    unfold ggrid in *. cbn [board set_undoStack saveState]. by rewrite Hd.
  - destruct (isValidDrop _ _ _ _) eqn:Hv; [|done].
    unfold isValidDrop, dropTarget in *. destruct (valueTruthy _); [|done].
    apply firstDrop_existsb in Hv as [j Hj]. unfold ggrid in *. congruence.
Qed.

(** [spawnNextTile]: the hand becomes the first tile of the replenished
    queue, the rest stays queued; board, history, keep slot and trash
    animations are untouched. *)
Lemma spawnNextTile_fields g :
  exists t q, (replenishQueue (difficulty g) (level (gscore g)) (queue g) (rng g)).1 = t :: q /\
    hand (spawnNextTile g) = Some t /\ queue (spawnNextTile g) = q /\
    board (spawnNextTile g) = board g /\ undoStack (spawnNextTile g) = undoStack g /\
    keepTileData (spawnNextTile g) = keepTileData g /\ trashAnims (spawnNextTile g) = trashAnims g.
Proof.
  destruct (spawnNextTile_draws g) as (t & q & Hq & _ & ->). exists t, q.
  destruct (checkGameOver_fields (set_hand (Some t) true (set_queue q (replenish g))))
    as (Eb & Eq & Eu & Ek & Eh & _ & _ & Et & _).
  rewrite Eb, Eq, Eu, Ek, Eh, Et. unfold replenish in *.
  destruct (replenishQueue _ _ _ _) as [q0 r0]. by cbn in *.
Qed.
End Drop.

(** C17: [placeTile].  A release of the hand tile [t] that the handler
    reads as a placement on cell [i] targets an empty cell of the board,
    and is handled as: [saveState], [createGridTile] of [t] at [i] (the
    tile placed and the cascade resolved), then [spawnNextTile] (the next
    hand tile drawn and game over checked), and nothing else. *)
Theorem placeTile_contract {R} `{RandomSource R} (g : Game R) x y i t :
  intentOf x y g = Some (PlaceTile i) -> hand g = Some t ->
  i < 16 /\ ggrid g !! i = Some None /\
  dragEndHand x y g = spawnNextTile (set_board (createGridTile i t (board g)) (saveState g)).
Proof.
  intros (Ho & Htr & Hk & Hd)%intentOf_cases Hh.
  pose proof Hd as Hd'. unfold dropTarget in Hd'. destruct (valueTruthy _); [|done].
  apply firstDrop_Some in Hd' as (Hin%list_elem_of_In%in_seq & _ & He%isEmpty_lookup).
  split; [lia|]. split; [done|].
  unfold dragEndHand. rewrite Ho, Htr, Hk, (dropTarget_valid _ _ _ _ _ Hd).
  unfold tryDropOnGrid. cbn [hand saveState set_undoStack]. rewrite Hh.
  rewrite Hh in Hd. unfold ggrid in *. cbn [board set_undoStack saveState].
  by rewrite Hd.
Qed.

(** The first tile of the seed-7 game in hand. *)
Definition demo_hand : TileData :=
  match hand demo_game with Some t => t | None => mkTile 2 tile_blue end.

Lemma placeTile_contract_witness :
  intentOf (slotX 5) (slotY 5) demo_game = Some (PlaceTile 5) /\ hand demo_game = Some demo_hand /\
  dragEndHand (slotX 5) (slotY 5) demo_game =
    spawnNextTile (set_board (createGridTile 5 demo_hand (board demo_game)) (saveState demo_game)).
Proof.
  assert (intentOf (slotX 5) (slotY 5) demo_game = Some (PlaceTile 5)) as Hi by (vm_compute; reflexivity).
  assert (hand demo_game = Some demo_hand) as Hh by (vm_compute; reflexivity).
  split; [exact Hi|]. split; [exact Hh|].
  exact (proj2 (proj2 (placeTile_contract demo_game _ _ 5 demo_hand Hi Hh))).
Defined.

(** C18: [moveHandToKeep].  A release of the hand tile [h] that the
    handler reads as a move to the keep slot: a snapshot is pushed, the hand
    tile goes to the keep slot, and the board and score are untouched.
    With the slot empty the next tile is drawn from the replenished queue;
    with the slot holding [k], [k] becomes the hand and no tile is
    drawn. *)
Theorem moveHandToKeep_contract {R} `{RandomSource R} (g : Game R) x y h :
  intentOf x y g = Some MoveHandToKeep -> hand g = Some h ->
  let g' := dragEndHand x y g in
  undoStack g' = undoStack (saveState g) /\ keepTileData g' = Some h /\ board g' = board g /\
  match keepTileData g with
  | None => exists t q,
      (replenishQueue (difficulty g) (level (gscore g)) (queue g) (rng g)).1 = t :: q /\
      hand g' = Some t /\ queue g' = q
  | Some k => hand g' = Some k /\ queue g' = queue g
  end.
Proof.
  intros (Ho & Ht & Hk)%intentOf_cases Hh. cbn zeta. unfold dragEndHand. rewrite Ho, Ht, Hk.
  unfold handleHandToKeep. cbn [hand saveState set_undoStack]. rewrite Hh.
  cbn [keepTileData saveState set_undoStack].
  destruct (keepTileData g) as [k|] eqn:Ek.
  - destruct (checkGameOver_fields (set_hand (Some k) (handInteractive (saveState g))
      (set_keep (Some h) (saveState g)))) as (Eb & Eq & Eu & Ek' & Eh & _).
    rewrite Eb, Eq, Eu, Ek', Eh. by cbn.
  - destruct (spawnNextTile_fields (set_keep (Some h) (saveState g)))
      as (t & q & Hq & Eh & Eq & Eb & Eu & Ek' & _).
    rewrite Eh, Eq, Eb, Eu, Ek'. cbn. split; [done|]. split; [done|]. split; [done|].
    by exists t, q.
Qed.

Lemma moveHandToKeep_contract_witness :
  intentOf keepSlotX keepSlotY demo_game = Some MoveHandToKeep /\ hand demo_game = Some demo_hand /\
  keepTileData (dragEndHand keepSlotX keepSlotY demo_game) = Some demo_hand.
Proof.
  assert (hand demo_game = Some demo_hand) as Hh by (vm_compute; reflexivity).
  split; [reflexivity|]. split; [exact Hh|].
  exact (proj1 (proj2 (moveHandToKeep_contract demo_game keepSlotX keepSlotY demo_hand
    eq_refl Hh))).
Defined.

(** C19: [discardHand].  A release of the hand tile that the handler
    reads as a discard, with trash left: a snapshot is pushed, one trash is spent,
    the hand tile can no longer be dragged, board and score are untouched
    and a trash animation starts.  When it ends, the next tile of the
    replenished queue is the hand. *)
Theorem discardHand_contract {R} `{RandomSource R} (g : Game R) x y :
  intentOf x y g = Some DiscardHand -> 0 < trashCount (gscore g) ->
  let g' := dragEndHand x y g in
  undoStack g' = undoStack (saveState g) /\ trashCount (gscore g') = trashCount (gscore g) - 1 /\
  ggrid g' = ggrid g /\ score (gscore g') = score (gscore g) /\ handInteractive g' = false /\
  trashAnims g' = S (trashAnims g) /\
  exists g'' t q, step TrashTweenEnd g' = Some g'' /\
    (replenishQueue (difficulty g) (level (gscore g)) (queue g) (rng g)).1 = t :: q /\
    hand g'' = Some t /\ queue g'' = q /\ undoStack g'' = undoStack g'.
Proof.
  intros (Ho & Ht)%intentOf_cases Hc. cbn zeta. unfold dragEndHand. rewrite Ho, Ht.
  unfold handleTrashDrop. rewrite (proj2 (Nat.ltb_lt _ _) Hc).
  do 6 (split; [done|]). cbn [step trashAnims set_trashAnims].
  unfold trashAnimDone.
  match goal with |- context [spawnNextTile ?x] =>
    destruct (spawnNextTile_fields x) as (t & q & Hq & Eh & Eq & _ & Eu & _);
    exists (spawnNextTile x), t, q end.
  rewrite Eh, Eq, Eu. by split.
Qed.

Lemma discardHand_contract_witness :
  intentOf trashX trashY demo_game = Some DiscardHand /\ 0 < trashCount (gscore demo_game) /\
  trashCount (gscore (dragEndHand trashX trashY demo_game)) = 9.
Proof.
  assert (0 < trashCount (gscore demo_game)) as Hc by (vm_compute; lia).
  split; [reflexivity|]. split; [exact Hc|].
  exact (proj1 (proj2 (discardHand_contract demo_game trashX trashY eq_refl Hc))).
Defined.
