(* ===== verification/Errors.v ===== *)
(** * Rejected actions

    Section 7 of the spec lists the errors of the rules engine
    ([TrashExhausted], [GameAlreadyOver], [InvalidPlacement],
    [NothingToUndo], [EmptyKeepSlot]) and requires that a rejected action
    leave the state unchanged, the undo history included.  The code has no
    error values: each rejection is a branch of a handler of
    [src/main.js] that only moves the sprite back
    ([returnToStack], lines 722-731, or resetting the keep container's
    position) and redraws hints.  This file states, for each branch, what
    the handler leaves of the state. *)

From S2P Require Import Prelude Tile Grid Score Merge Undo Session Invariant Contracts.
From Stdlib Require Import ZArith.

(** The error kinds of the spec that the handlers of the code can meet. *)
Inductive ErrorKind :=
  | TrashExhausted | GameAlreadyOver | InvalidPlacement | NothingToUndo | EmptyKeepSlot.

Section Errors.
Context {R : Type} `{RandomSource R}.
Implicit Types g : Game R.

(** The spec's error for a release of the hand tile at [(x, y)], decided
    by the tests of the [dragend] handler and of [handleTrashDrop]. *)
Definition handDropError x y g : option ErrorKind :=
  if isGameOver g then Some GameAlreadyOver
  else match intentOf x y g with
       | Some DiscardHand => if 0 <? trashCount (gscore g) then None else Some TrashExhausted
       | Some _ => None
       | None => Some InvalidPlacement
       end.

(** The same for the keep container ([handleKeepDragEnd]) and for the
    undo key ([undo]). *)
Definition keepDropError x y g : option ErrorKind :=
  if isGameOver g then Some GameAlreadyOver
  else match keepTileData g with
       | None => Some EmptyKeepSlot
       | Some k => if isValidDrop (Some (value k)) (ggrid g) x y then None else Some InvalidPlacement
       end.

Definition undoError g : option ErrorKind :=
  match undoStack g with [] => Some NothingToUndo | _ :: _ => None end.

(** The part of the state a rejected drop may not touch: everything but
    the game-over flag and whether the hand can be dragged, which
    [checkGameOver] sets. *)
Definition unchanged_but_over g g' : Prop :=
  board g' = board g /\ queue g' = queue g /\ undoStack g' = undoStack g /\
  keepTileData g' = keepTileData g /\ hand g' = hand g /\
  hintsActive g' = hintsActive g /\ difficulty g' = difficulty g /\
  trashAnims g' = trashAnims g /\ rng g' = rng g.

Lemma checkGameOver_unchanged g : unchanged_but_over g (checkGameOver g).
Proof. apply checkGameOver_fields. Qed.

(** No slot is within 60 pixels of the origin. *)
Lemma isValidDrop_origin v grid : isValidDrop v grid 0 0 = false.
Proof. unfold isValidDrop. destruct (valueTruthy v); reflexivity. Qed.

Lemma near_origin_trash : near 0 0 trashX trashY 80 = false.
Proof. reflexivity. Qed.

Lemma near_origin_keep : near 0 0 keepSlotX keepSlotY 60 = false.
Proof. reflexivity. Qed.

Lemma saveState_last g : last (undoStack (saveState g)) = Some (snapshotOf g).
Proof. unfold saveState, set_undoStack. cbn [undoStack]. apply last_snoc. Qed.

Lemma handleHandToKeep_history g : undoStack (handleHandToKeep g) = undoStack g.
Proof.
  unfold handleHandToKeep. destruct (hand g); [|done]. destruct (keepTileData g).
  - by rewrite (proj1 (proj2 (proj2 (checkGameOver_fields _)))).
  - destruct (spawnNextTile_fields (set_keep (Some t) g)) as (? & ? & _ & _ & _ & _ & -> & _). done.
Qed.

(** With no trash left the trash branch changes nothing. *)
Lemma handleTrashDrop_exhausted g : trashCount (gscore g) = 0 -> handleTrashDrop g = g.
Proof. intros Ht. unfold handleTrashDrop. by rewrite Ht. Qed.
End Errors.

(** C20: Scenario D, [TrashExhausted].  With no trash left, a release of
    the hand tile on the trash changes nothing at all: hand, queue, undo
    history, board, score and every other field are as before. *)
Theorem trash_exhausted {R} `{RandomSource R} (g : Game R) x y :
  handDropError x y g = Some TrashExhausted -> dragEndHand x y g = g.
Proof.
  unfold handDropError. destruct (isGameOver g) eqn:Ho; [done|].
  pose proof (dragEndHand_intent x y g Ho) as Hd.
  destruct (intentOf x y g) as [[]|]; [done|done| |done].
  destruct (0 <? _) eqn:Ht; [done|]. intros _. apply Nat.ltb_ge in Ht.
  rewrite Hd. apply handleTrashDrop_exhausted. lia.
Qed.

(** With one tile in hand and no trash left, the drop on the trash is
    rejected. *)
Definition no_trash_game : Game N := set_trashCount 0 demo_game.

Lemma trash_exhausted_witness :
  handDropError trashX trashY no_trash_game = Some TrashExhausted /\
  dragEndHand trashX trashY no_trash_game = no_trash_game.
Proof.
  assert (handDropError trashX trashY no_trash_game = Some TrashExhausted) as He
    by (vm_compute; reflexivity).
  split; [exact He|]. exact (trash_exhausted no_trash_game trashX trashY He).
Defined.

(** C21: [GameAlreadyOver].  Once the game is over, a release of the hand
    tile or of the keep container is [GameAlreadyOver] and changes
    nothing, while undo and a new game stay available. *)
Theorem game_over_rejects_moves {R} `{RandomSource R} (g : Game R) x y :
  isGameOver g = true ->
  handDropError x y g = Some GameAlreadyOver /\ keepDropError x y g = Some GameAlreadyOver /\
  dragEndHand x y g = g /\ dragEndKeep x y g = g /\
  step KeyUndo g = Some (undo g) /\ step KeyRestart g = Some (startNewGame g).
Proof. intros Ho. unfold handDropError, keepDropError, dragEndHand, dragEndKeep. by rewrite Ho. Qed.

Definition over_game : Game N :=
  mkGame (board demo_game) (queue demo_game) (undoStack demo_game) (keepTileData demo_game)
    (hand demo_game) false (hintsActive demo_game) (difficulty demo_game) true
    (trashAnims demo_game) (rng demo_game).

Lemma game_over_rejects_moves_witness :
  isGameOver over_game = true /\ dragEndHand (slotX 0) (slotY 0) over_game = over_game.
Proof.
  split; [reflexivity|].
  exact (proj1 (proj2 (proj2 (game_over_rejects_moves over_game (slotX 0) (slotY 0) eq_refl)))).
Defined.

(** C22: [InvalidPlacement], [EmptyKeepSlot], [NothingToUndo].  A release
    of the hand tile that is an invalid placement only runs the game-over
    check: board, score, queue, keep slot, hand and undo history are
    unchanged.  An invalid release of the keep container changes nothing;
    without a kept tile there is nothing to drag; undo with an empty
    history changes nothing. *)
Theorem rejected_actions {R} `{RandomSource R} (g : Game R) x y :
  (handDropError x y g = Some InvalidPlacement ->
   dragEndHand x y g = checkGameOver g /\ unchanged_but_over g (dragEndHand x y g)) /\
  (keepDropError x y g = Some InvalidPlacement -> dragEndKeep x y g = g) /\
  (keepDropError x y g = Some EmptyKeepSlot -> step (DragKeep x y) g = None) /\
  (undoError g = Some NothingToUndo -> undo g = g).
Proof.
  unfold handDropError, keepDropError, undoError, dragEndKeep, handleKeepDragEnd, undo.
  split; [|split; [|split]].
  - destruct (isGameOver g) eqn:Ho; [done|]. pose proof (dragEndHand_intent x y g Ho) as Hd.
    destruct (intentOf x y g) as [[| |]|]; [intros [=]..|by destruct (0 <? _); intros [=]|].
    intros _. rewrite Hd. split; [done|apply checkGameOver_unchanged].
  - destruct (isGameOver g); [done|]. destruct (keepTileData g) as [k|]; [|done].
    cbn [fmap option_fmap option_map]. by destruct (isValidDrop _ _ _ _).
  - destruct (isGameOver g); [intros [=]|]. simpl.
    destruct (keepTileData g); [by destruct (isValidDrop _ _ _ _)|done].
  - by destruct (undoStack g).
Qed.

Lemma rejected_actions_witness :
  handDropError 0 0 demo_game = Some InvalidPlacement /\
  dragEndHand 0 0 demo_game = checkGameOver demo_game /\
  unchanged_but_over demo_game (dragEndHand 0 0 demo_game).
Proof.
  assert (handDropError 0 0 demo_game = Some InvalidPlacement) as He by (vm_compute; reflexivity).
  split; [exact He|]. exact (proj1 (rejected_actions demo_game 0 0) He).
Defined.

(** C23: validation comes before the snapshot.  A release of the hand tile
    that is no error pushes a snapshot of the state it started from; one
    that is an error leaves the undo history and the board as they were. *)
Theorem validation_before_snapshot {R} `{RandomSource R} (g : Game R) x y :
  match handDropError x y g with
  | None => last (undoStack (dragEndHand x y g)) = Some (snapshotOf g)
  | Some _ => undoStack (dragEndHand x y g) = undoStack g /\ board (dragEndHand x y g) = board g
  end.
Proof.
  unfold handDropError. destruct (isGameOver g) eqn:Ho; [unfold dragEndHand; by rewrite Ho|].
  pose proof (dragEndHand_intent x y g Ho) as Hd.
  destruct (intentOf x y g) as [[i| |]|]; rewrite ?Hd.
  - destruct Hd as (t & _ & ->).
    destruct (spawnNextTile_fields (set_board (createGridTile i t (board g)) (saveState g)))
      as (? & ? & _ & _ & _ & _ & -> & _). apply saveState_last.
  - rewrite handleHandToKeep_history. apply saveState_last.
  - unfold handleTrashDrop. destruct (0 <? _) eqn:Ht; [apply saveState_last|done].
  - destruct (checkGameOver_fields g) as (Eb & _ & Eu & _). by rewrite Eb, Eu.
Qed.
