(* ===== verification/Liveness.v ===== *)
(** * Progress of a session

    The tweens of [src/main.js] run their callbacks after a delay; the
    model lets them run as the inputs [MergeTweenEnd] and [TrashTweenEnd]
    of [Session.step].  This file shows that the pending callbacks can
    always all run, and what they leave: the merge callbacks (lines
    507-514, 526-544) pay the points the abstraction of [MergeSpec]
    credits, and the trash callbacks (lines 427-430) each draw a tile.

    Game over is evaluated by [checkGameOver] (lines 327-335), which
    returns at once while [isMerging] is set and is not called by the
    merge callbacks.  A board filled during a merge animation therefore
    stays playable for a while; the theorem [full_board_eventually_over]
    shows that a full board is always declared over after the pending
    animations end and the hand tile is next released. *)

From S2P Require Import Prelude Tile Grid Score Merge MergeSpec Undo Session Invariant Errors.
From Stdlib Require Import ZArith.

Section Drain.
Context {R : Type} `{RandomSource R}.
Implicit Types g : Game R.

(** The callbacks of every pending merge animation, and of every pending
    trash animation. *)
Definition drain_merges g : list Input := repeat MergeTweenEnd (length (ms_events (board g))).
Definition drain_trash g : list Input := repeat TrashTweenEnd (trashAnims g).

Lemma run_app inps1 inps2 g :
  run (inps1 ++ inps2) g = match run inps1 g with Some g' => run inps2 g' | None => None end.
Proof.
  revert g. induction inps1 as [|i inps1 IH]; intros g; [done|]. simpl.
  destruct (step i g); [apply IH|done].
Qed.

(** Running one merge callback per pending animation. *)
Lemma run_merge_tweens g :
  run (drain_merges g) g =
  Some (set_board (animationsDone (length (ms_events (board g))) (board g)) g).
Proof.
  unfold drain_merges. remember (length (ms_events (board g))) as n eqn:En. revert g En.
  induction n as [|n IH]; intros g En.
  - destruct g as [b ? ? ? ? ? ? ? ? ? ?]. reflexivity.
  - cbn [repeat run step]. destruct (ms_events (board g)) as [|e evs] eqn:E; [done|].
    rewrite IH; [reflexivity|]. cbn [board set_board]. unfold animationDone. rewrite E.
    simpl in En. destruct e; simpl; lia.
Qed.

Lemma animationsDone_idle b :
  merging_ok b -> ms_merging (animationsDone (length (ms_events b)) b) = false.
Proof.
  remember (length (ms_events b)) as n eqn:En. revert b En.
  induction n as [|n IH]; intros b En Hm.
  - destruct (ms_merging b) eqn:E; [|done]. destruct (Hm E). by destruct (ms_events b).
  - cbn [animationsDone]. apply IH; [|by apply animationDone_merging].
    unfold animationDone. destruct (ms_events b) as [|[] evs]; simpl in *; lia.
Qed.

Lemma replenish_trashAnims g : trashAnims (replenish g) = trashAnims g.
Proof. unfold replenish. by destruct (replenishQueue _ _ _ _). Qed.

Lemma checkGameOver_trashAnims g : trashAnims (checkGameOver g) = trashAnims g.
Proof. unfold checkGameOver. by repeat case_match. Qed.

Lemma spawnNextTile_trashAnims g : trashAnims (spawnNextTile g) = trashAnims g.
Proof.
  destruct (spawnNextTile_draws g) as (t & q & _ & _ & ->).
  rewrite checkGameOver_trashAnims. apply replenish_trashAnims.
Qed.

(** The trash callbacks, one per pending trash animation. *)
Lemma run_trash_tweens g :
  exists g', run (drain_trash g) g = Some g' /\ trashAnims g' = 0.
Proof.
  unfold drain_trash. remember (trashAnims g) as n eqn:En. revert g En.
  induction n as [|n IH]; intros g En; [by exists g|].
  cbn [repeat run step]. rewrite <- En.
  destruct (IH (trashAnimDone g)) as (g' & Hr & Ht).
  - unfold trashAnimDone. rewrite spawnNextTile_trashAnims. simpl. lia.
  - exists g'. by split.
Qed.
End Drain.

(** C13: every pending animation completes.  From any state, one merge
    callback per pending merge animation runs, after which none is
    pending, the board and everything but the score and [isMerging] are
    as before, and the score has gained exactly 10 per pending match; and
    one trash callback per pending trash animation runs, after which none
    is pending. *)
Theorem pending_animations_complete {R} `{RandomSource R} (g : Game R) :
  (exists g', run (drain_merges g) g = Some g' /\
     ms_events (board g') = [] /\ ggrid g' = ggrid g /\
     score (gscore g') = score (gscore g) + sum_by matchCredit (ms_events (board g)) /\
     undoStack g' = undoStack g /\ queue g' = queue g /\ hand g' = hand g /\
     keepTileData g' = keepTileData g) /\
  (exists g', run (drain_trash g) g = Some g' /\ trashAnims g' = 0).
Proof.
  split; [|apply run_trash_tweens].
  eexists. split; [apply run_merge_tweens|]. cbn [board set_board].
  pose proof (animationsDone_abs (length (ms_events (board g))) (board g)) as E.
  unfold abs in E. injection E as Eg Es.
  rewrite animationsDone_events, drop_all in *. unfold ggrid, gscore. cbn [board set_board].
  cbn [sum_by foldr] in Es. split; [done|]. split; [done|]. split; [lia|done].
Qed.

(** C14: a full board is always declared over.  In a reachable state with
    a full board and a hand tile that can be dragged, letting the pending
    merge animations end and then releasing the hand tile away from the
    trash, the keep slot and the board ends the game. *)
Theorem full_board_eventually_over {R} `{RandomSource R} (g : Game R) :
  reachable g -> gridFull (ggrid g) = true -> handInteractive g = true ->
  exists g', run (drain_merges g ++ [DragHand 0 0]) g = Some g' /\
    isGameOver g' = true.
Proof.
  intros (saved & r & Hs) Hf Hi. pose proof (steps_ok _ _ Hs (boot_ok saved r)) as Hok.
  rewrite run_app, run_merge_tweens. cbn [run step set_board handInteractive]. rewrite Hi.
  eexists. split; [reflexivity|].
  pose proof (animationsDone_idle (board g) (ok_merging _ Hok)) as Hm.
  pose proof (animationsDone_abs (length (ms_events (board g))) (board g)) as E.
  unfold abs in E. injection E as Eg _.
  unfold dragEndHand. cbn [isGameOver set_board]. destruct (isGameOver g) eqn:Ho; [done|].
  rewrite near_origin_trash, near_origin_keep, isValidDrop_origin.
  unfold checkGameOver, ggrid in *. cbn [board set_board isGameOver].
  rewrite Hm, Eg, Hf, Ho. reflexivity.
Qed.

(** A random source that replays a script of draws (then draws 0). *)
#[local, refine] Instance script_source : RandomSource (list nat) := {
  random_below r n := match r with [] => (0, []) | x :: r' => (x mod n, r') end
}.
Proof. intros [|x r] n Hn; simpl; [lia|apply Nat.mod_upper_bound; lia]. Defined.

(** Checkerboard values 2 and 3 (neighbours never match or divide), one
    texture draw per tile. *)
Definition checker_draws : list nat :=
  flat_map (fun k => [(k / 4 + k mod 4) mod 2; 0]) (seq 0 16).

(** A new game; tiles 0-14 dropped on cells 0-14, tile 15 put in the keep
    slot and then dropped from there on cell 15. *)
Definition fill_inputs : list Input :=
  KeyRestart :: map (fun c => DragHand (slotX c) (slotY c)) (seq 0 15) ++
  [DragHand keepSlotX keepSlotY; DragKeep (slotX 15) (slotY 15)].

Definition full_game : Game (list nat) :=
  match run fill_inputs (boot None checker_draws) with Some g => g | None => boot None [] end.

Lemma full_board_eventually_over_witness :
  reachable full_game /\ gridFull (ggrid full_game) = true /\
  handInteractive full_game = true /\ isGameOver full_game = false /\
  exists g', run (drain_merges full_game ++ [DragHand 0 0]) full_game = Some g' /\
    isGameOver g' = true.
Proof.
  assert (reachable full_game) as Hr.
  { exists None, checker_draws. apply (run_steps fill_inputs). vm_compute. reflexivity. }
  assert (gridFull (ggrid full_game) = true) as Hf by (vm_compute; reflexivity).
  assert (handInteractive full_game = true) as Hi by (vm_compute; reflexivity).
  split; [exact Hr|]. split; [exact Hf|]. split; [exact Hi|]. split; [vm_compute; reflexivity|].
  exact (full_board_eventually_over full_game Hr Hf Hi).
Defined.
