(* ===== verification/Sounds.v ===== *)
(** * The sound traces of the handlers

    Every handler of [src/main.js] plays sound effects with [playSound]
    (lines 250-252) and some start or stop the background music [bgm].
    This file gives, for each handler of [Session], the list of audio
    operations it performs, in the order the code performs them, computed
    on the same intermediate states as the handler itself:
    - [createGridTile] plays [drop] (line 458) and [checkMerges] plays
      [merge] each time it finds a partner (line 500);
    - [triggerGameOver] (lines 337-343), reached from [checkGameOver],
      stops the music and plays [gameover];
    - [handleTrashDrop] plays [drop] (line 414), [handleHandToKeep] plays
      [keep] after everything else (line 454);
    - [startNewGame] plays [restart] (line 281) and starts the music
      (lines 309-312), [undo] plays [undo] and restarts the music when the
      game was over (lines 758-765), [toggleHints] and [setDifficulty]
      play [click] (lines 801, 735), the [dragstart] handler plays [drag]
      (lines 126-130).
    The traces are interpreted on the audio state in [Shell].

    The theorem [createGridTile_sounds] shows that placing a tile plays
    [drop] and then exactly one [merge] per animation the cascade
    schedules. *)

From S2P Require Import Prelude Tile Grid Score Merge Undo Session Invariant.
From Stdlib Require Import ZArith.

(** The sound effects registered by [setupAudio]. *)
Inductive Sound := SDrag | SDrop | SKeep | SMerge | SGameOver | SRestart | SUndo | SClick.

#[export] Instance Sound_eq_dec : EqDecision Sound.
Proof. solve_decision. Defined.

(** [sfx[key]] after [setupAudio] (lines 240-247): the volume, in percent,
    each effect was added with. *)
Definition sfx (k : Sound) : option nat :=
  match k with
  | SDrag => Some 60 | SDrop => Some 80 | SKeep => Some 80 | SMerge => Some 100
  | SGameOver => Some 80 | SRestart => Some 80 | SUndo => Some 80 | SClick => Some 80
  end.

(** What a handler does to the audio. *)
Inductive AudioOp :=
  | PlaySfx (k : Sound)   (** [playSound(key)] *)
  | BgmStop               (** [bgm.stop()] *)
  | BgmPlay               (** [if (!bgm.isPlaying) bgm.play()] *)
  | BgmSyncMute.          (** [bgm.setMute(isMuted)] *)

Definition Trace := list AudioOp.

(** The [merge] sound of one call of [checkMerges]: played when the tile
    at [index] has a partner. *)
Definition mergeStepT (index : nat) (s : MState) : Trace :=
  match ms_grid s !! index with
  | Some (Some cur) =>
      match findPartner cur (ms_grid s) (neighborPositions index) with
      | Some _ => [PlaySfx SMerge]
      | None => []
      end
  | _ => []
  end.

(** The sounds of [checkMerges], along the same recursion. *)
Fixpoint checkMergesT (fuel index : nat) (s : MState) : Trace :=
  match fuel with
  | 0 => []
  | S fuel' =>
      mergeStepT index s ++
      match mergeStep index s with
      | Stop _ => []
      | Continue j s' => checkMergesT fuel' j s'
      end
  end.

(** [createGridTile]: [drop], then the sounds of [checkMerges] on the
    board with the tile placed. *)
Definition createGridTileT (index : nat) (t : TileData) (s : MState) : Trace :=
  let s1 := mkMS (<[index:=Some t]> (ms_grid s)) (ms_score s) (ms_merging s) (ms_events s) in
  PlaySfx SDrop :: checkMergesT 16 index s1.

(** The music a trace leaves: [Some true] when its last music operation
    starts it, [Some false] when it stops it, [None] when it has none. *)
Fixpoint lastMusic (T : Trace) : option bool :=
  match T with
  | [] => None
  | op :: T' =>
      match lastMusic T' with
      | Some b => Some b
      | None => match op with BgmStop => Some false | BgmPlay => Some true | _ => None end
      end
  end.

Section Traces.
Context {R : Type} `{RandomSource R}.
Implicit Types g : Game R.

(** [checkGameOver] with [triggerGameOver]: the music stops and
    [gameover] plays when the board is found full and the game was not
    over yet. *)
Definition checkGameOverT g : Trace :=
  if ms_merging (board g) then []
  else if gridFull (ggrid g) then
    if isGameOver g then [] else [BgmStop; PlaySfx SGameOver]
  else [].

Definition spawnNextTileT g : Trace :=
  let g1 := replenish g in
  match queueShift (queue g1) with
  | (Some t, q) => checkGameOverT (set_hand (Some t) true (set_queue q g1))
  | (None, _) => []
  end.

Definition startNewGameT g : Trace :=
  [PlaySfx SRestart; BgmPlay; BgmSyncMute] ++ spawnNextTileT (replenish (resetGame g)).

Definition handleTrashDropT g : Trace :=
  if 0 <? trashCount (gscore g) then [PlaySfx SDrop] else [].

Definition trashAnimDoneT g : Trace := spawnNextTileT (set_trashAnims (trashAnims g - 1) g).

Definition handleHandToKeepT g : Trace :=
  match hand g with
  | None => []
  | Some h =>
      match keepTileData g with
      | None => spawnNextTileT (set_keep (Some h) g)
      | Some k => checkGameOverT (set_hand (Some k) (handInteractive g) (set_keep (Some h) g))
      end ++ [PlaySfx SKeep]
  end.

Definition tryDropOnGridT (t : option TileData) (x y : Z) g : Trace :=
  match t, dropTarget (value <$> t) (ggrid g) x y with
  | Some tile, Some i => createGridTileT i tile (board g)
  | _, _ => []
  end.

Definition handleKeepDragEndT (x y : Z) g : Trace :=
  if isValidDrop (value <$> keepTileData g) (ggrid g) x y then
    let g1 := saveState g in tryDropOnGridT (keepTileData g1) x y g1
  else [].

Definition dragEndHandT (x y : Z) g : Trace :=
  if isGameOver g then []
  else if near x y trashX trashY 80 then handleTrashDropT g
  else if near x y keepSlotX keepSlotY 60 then handleHandToKeepT (saveState g)
  else if isValidDrop (value <$> hand g) (ggrid g) x y then
    let g1 := saveState g in
    match tryDropOnGrid (hand g1) x y g1 with
    | Some g2 => tryDropOnGridT (hand g1) x y g1 ++ spawnNextTileT g2
    | None => []
    end
  else checkGameOverT g.

Definition dragEndKeepT (x y : Z) g : Trace :=
  if isGameOver g then [] else handleKeepDragEndT x y g.

(** [undo]: nothing on an empty history; otherwise [undo], and the music
    again if the game was over. *)
Definition undoT g : Trace :=
  match last (undoStack g) with
  | None => []
  | Some _ => PlaySfx SUndo :: (if isGameOver g then [BgmPlay] else [])
  end.

(** The [dragstart] handler: [if (!isGameOver && currentDraggable)
    playSound('drag')]; [currentDraggable] is set by the first
    [spawnNextTile], before anything can be dragged. *)
Definition dragStartT g : Trace := if isGameOver g then [] else [PlaySfx SDrag].

(** The trace of one input, along [Session.step]. *)
Definition stepT (inp : Input) g : Trace :=
  match inp with
  | DragHand x y => if handInteractive g then dragEndHandT x y g else []
  | DragKeep x y => match keepTileData g with Some _ => dragEndKeepT x y g | None => [] end
  | KeyUndo => undoT g
  | KeyRestart => startNewGameT g
  | KeyHints => [PlaySfx SClick]
  | KeyDifficulty d => if (1 <=? d) && (d <=? 3) then [PlaySfx SClick] else []
  | MergeTweenEnd => []
  | TrashTweenEnd => match trashAnims g with 0 => [] | S _ => trashAnimDoneT g end
  end.
End Traces.

(** ** Lemmas *)

Lemma lastMusic_app T1 T2 :
  lastMusic (T1 ++ T2) = match lastMusic T2 with Some b => Some b | None => lastMusic T1 end.
Proof.
  induction T1 as [|op T1 IH]; cbn [app lastMusic]; [by destruct (lastMusic T2)|].
  rewrite IH. by destruct (lastMusic T2), (lastMusic T1).
Qed.

Lemma lastMusic_sfx {A} (f : A -> Sound) (l : list A) : lastMusic (map (fun x => PlaySfx (f x)) l) = None.
Proof. induction l as [|x l IH]; [done|]. by cbn; rewrite IH. Qed.

Lemma mergeStepT_events i s :
  exists ev, ms_events (stepState (mergeStep i s)) = ms_events s ++ ev /\
    mergeStepT i s = map (fun _ => PlaySfx SMerge) ev.
Proof.
  unfold mergeStepT.
  destruct (mergeStep_cases i s) as [[-> Hn]|[(cur & j & nb & Hg & Hf & _ & ->)|
    [(cur & j & nb & Hg & Hf & _ & _ & _ & ->)|(cur & j & nb & Hg & Hf & _ & _ & _ & ->)]]].
  - exists []. rewrite app_nil_r. split; [done|].
    destruct (ms_grid s !! i) as [[cur|]|] eqn:Hg; [|done..]. by rewrite Hn.
  - eexists. split; [done|]. by rewrite Hg, Hf.
  - eexists. split; [done|]. by rewrite Hg, Hf.
  - eexists. split; [done|]. by rewrite Hg, Hf.
Qed.

(** The [merge] sounds of [checkMerges] are its animation events. *)
Lemma checkMergesT_events fuel i s :
  exists ev, ms_events (checkMerges fuel i s) = ms_events s ++ ev /\
    checkMergesT fuel i s = map (fun _ => PlaySfx SMerge) ev.
Proof.
  revert i s. induction fuel as [|fuel IH]; intros i s; [exists []; by rewrite app_nil_r|].
  destruct (mergeStepT_events i s) as (ev1 & E1 & T1). cbn [checkMerges checkMergesT].
  rewrite T1. destruct (mergeStep i s) as [s'|j s'] eqn:Em; cbn [stepState] in E1.
  - exists ev1. by rewrite app_nil_r.
  - destruct (IH j s') as (ev2 & E2 & T2). exists (ev1 ++ ev2).
    rewrite E2, E1, T2, map_app. by rewrite app_assoc.
Qed.

Section Music.
Context {R : Type} `{RandomSource R}.
Implicit Types g : Game R.

(** The game has just ended. *)
Definition rising g g' : bool := negb (isGameOver g) && isGameOver g'.

Lemma createGridTileT_music i t s : lastMusic (createGridTileT i t s) = None.
Proof.
  unfold createGridTileT. match goal with |- context [checkMergesT 16 i ?s1] =>
    destruct (checkMergesT_events 16 i s1) as (ev & _ & ->) end.
  cbn [lastMusic]. by rewrite (lastMusic_sfx (fun _ => SMerge)).
Qed.

Lemma tryDropOnGridT_music t x y g : lastMusic (tryDropOnGridT t x y g) = None.
Proof. unfold tryDropOnGridT. repeat case_match; [apply createGridTileT_music|done..]. Qed.

Lemma checkGameOverT_music g : lastMusic (checkGameOverT g) = if rising g (checkGameOver g) then Some false else None.
Proof.
  unfold checkGameOverT, checkGameOver, rising.
  destruct (ms_merging (board g)); [by destruct (isGameOver g)|].
  destruct (gridFull (ggrid g)); by destruct (isGameOver g).
Qed.

Lemma checkGameOver_over g : isGameOver g = true -> isGameOver (checkGameOver g) = true.
Proof. unfold checkGameOver. by repeat case_match. Qed.

Lemma spawnNextTileT_music g :
  lastMusic (spawnNextTileT g) = if rising g (spawnNextTile g) then Some false else None.
Proof.
  destruct (spawnNextTile_draws g) as (t & q & Hq & _ & E). rewrite E.
  unfold spawnNextTileT. rewrite Hq. cbn [queueShift]. rewrite checkGameOverT_music.
  unfold rising. f_equal. unfold replenish. by destruct (replenishQueue _ _ _ _).
Qed.

Lemma spawnNextTile_over g : isGameOver g = true -> isGameOver (spawnNextTile g) = true.
Proof.
  intros Ho. destruct (spawnNextTile_draws g) as (t & q & _ & _ & ->). apply checkGameOver_over.
  unfold replenish. by destruct (replenishQueue _ _ _ _).
Qed.

(** A new game is never over: its board is empty. *)
Lemma startNewGame_not_over g : isGameOver (startNewGame g) = false.
Proof.
  unfold startNewGame, resetGame. match goal with |- context [spawnNextTile ?x] =>
    destruct (spawnNextTile_draws x) as (t & q & _ & _ & ->) end.
  unfold checkGameOver, replenish. by repeat destruct (replenishQueue _ _ _ _).
Qed.

Lemma undo_not_over g : undoStack g <> [] -> isGameOver (undo g) = false.
Proof. intros Hu. unfold undo. destruct (last (undoStack g)) eqn:E; [done|]. by apply last_None in E. Qed.

Lemma rising_same g g' : isGameOver g' = isGameOver g -> rising g g' = false.
Proof. unfold rising. intros ->. by destruct (isGameOver g). Qed.

Lemma rising_congr g1 g2 g' : isGameOver g1 = isGameOver g2 -> rising g1 g' = rising g2 g'.
Proof. unfold rising. by intros ->. Qed.

Lemma handleTrashDrop_over g : isGameOver (handleTrashDrop g) = isGameOver g.
Proof. unfold handleTrashDrop. by case_match. Qed.

Lemma handleKeepDragEnd_over x y g : isGameOver (handleKeepDragEnd x y g) = isGameOver g.
Proof.
  unfold handleKeepDragEnd. case_match; [|done].
  destruct (tryDropOnGrid _ _ _ _) eqn:E; [|done]. by apply tryDropOnGrid_over in E.
Qed.

Lemma handleHandToKeepT_music g :
  lastMusic (handleHandToKeepT g) = if rising g (handleHandToKeep g) then Some false else None.
Proof.
  unfold handleHandToKeepT, handleHandToKeep. destruct (hand g) as [h|]; [|by rewrite rising_same].
  rewrite lastMusic_app. cbn [lastMusic].
  destruct (keepTileData g); [rewrite checkGameOverT_music|rewrite spawnNextTileT_music]; done.
Qed.

(** The music operations of one input: a restart, and an undo of a
    finished game, start the music; any other input stops it exactly when
    it ends the game. *)
Lemma stepT_music i g g' :
  step i g = Some g' ->
  lastMusic (stepT i g) =
    match i with
    | KeyRestart => Some true
    | KeyUndo => match undoStack g with [] => None | _ => if isGameOver g then Some true else None end
    | _ => if rising g g' then Some false else None
    end.
Proof.
  intros Hs. destruct i; cbn [step stepT] in *.
  - (* the hand tile released *)
    destruct (handInteractive g); simplify_eq.
    unfold dragEndHandT, dragEndHand. destruct (isGameOver g) eqn:Eo; [by rewrite rising_same|].
    destruct (near x y trashX trashY 80).
    { unfold handleTrashDropT. rewrite rising_same by apply handleTrashDrop_over. by case_match. }
    destruct (near x y keepSlotX keepSlotY 60).
    { by rewrite handleHandToKeepT_music, (rising_congr g (saveState g)). }
    destruct (isValidDrop _ _ _ _); [|apply checkGameOverT_music].
    destruct (tryDropOnGrid _ _ _ _) as [g2|] eqn:Ed; [|by rewrite rising_same].
    rewrite lastMusic_app, spawnNextTileT_music, tryDropOnGridT_music.
    apply tryDropOnGrid_over in Ed. rewrite (rising_congr g g2) by by rewrite Ed.
    by destruct (rising g2 _).
  - (* the keep container released *)
    destruct (keepTileData g); simplify_eq.
    unfold dragEndKeepT, dragEndKeep. destruct (isGameOver g); [by rewrite rising_same|].
    rewrite rising_same by apply handleKeepDragEnd_over.
    unfold handleKeepDragEndT. case_match; [apply tryDropOnGridT_music|done].
  - (* undo *)
    simplify_eq. unfold undoT. destruct (undoStack g) as [|x u] eqn:Eu; [done|].
    destruct (last (x :: u)) eqn:El; [|by apply last_None in El].
    by destruct (isGameOver g).
  - (* a new game *)
    simplify_eq. unfold startNewGameT. rewrite lastMusic_app, spawnNextTileT_music.
    rewrite rising_same; [done|]. change (spawnNextTile (replenish (resetGame g))) with (startNewGame g).
    rewrite startNewGame_not_over. unfold replenish. by destruct (replenishQueue _ _ _ _).
  - simplify_eq. by rewrite rising_same.
  - destruct (_ && _); simplify_eq. by rewrite rising_same.
  - destruct (ms_events (board g)); simplify_eq. by rewrite rising_same.
  - (* the trash tween ends *)
    destruct (trashAnims g); simplify_eq.
    unfold trashAnimDoneT, trashAnimDone. rewrite spawnNextTileT_music.
    by rewrite (rising_congr _ g).
Qed.
End Music.

(** C30: the sounds of a placement are its animations.  Placing a tile
    plays [drop] and then one [merge] per resolution event the cascade
    records, in the same order: the trace of [createGridTile] is [drop]
    followed by one [merge] for each event it appends. *)
Theorem createGridTile_sounds i t s :
  createGridTileT i t s =
    PlaySfx SDrop :: map (fun _ => PlaySfx SMerge) (drop (length (ms_events s)) (ms_events (createGridTile i t s))).
Proof.
  unfold createGridTileT, createGridTile. cbn [ms_events].
  match goal with |- context [checkMergesT 16 i ?s1] =>
    destruct (checkMergesT_events 16 i s1) as (ev & -> & ->) end.
  cbn [ms_events]. by rewrite drop_app_length.
Qed.
