(* ===== verification/Display.v ===== *)
(** * What the page shows

    The sidebar of [src/main.js] shows the score, the level and the trash
    allowance as texts ([scoreText], [levelText], [trashText], created by
    [drawTextLayers], lines 982-998, and set by [addScore], line 320,
    [checkLevelUp], lines 717-718, [handleTrashDrop], line 416, and
    [undo], line 771), grey copies of the next two queued tiles
    ([updateStackVisuals], lines 622-627), the kept tile
    ([updateKeepVisuals], lines 651-677) and, once the game is over, the
    game-over panel ([triggerGameOver], lines 348-355, hidden by [undo]
    and [startNewGame]).  The record [View] holds what these show; each
    handler's calls to them are its display trace, in program order,
    computed on the handler's own intermediate states, as the sound traces
    of [Sounds].

    The theorem [page_display_current] of [Shell] shows that in every
    reachable state the texts, the queue preview, the keep slot and the
    panel's visibility show the current state.  The board's sprites are
    not part of [View]: they are destroyed by the merge animations'
    callbacks, after the grid has changed, so they follow the
    animations, not the state. *)

From S2P Require Import Prelude Tile Grid Score Storage Merge Undo Session Invariant.
From Stdlib Require Import ZArith Ascii String.

(** ['SCORE ' + score], ['LEVEL ' + level], ['x' + trashCount]. *)
Definition scoreLabel (n : nat) : string := ("SCORE " ++ showNat n)%string.
Definition levelLabel (n : nat) : string := ("LEVEL " ++ showNat n)%string.
Definition trashLabel (n : nat) : string := ("x" ++ showNat n)%string.

(** ["SCORE: " + score + "\nBEST: " + bestScore] (line 349). *)
Definition panelLabel (s b : nat) : string :=
  ("SCORE: " ++ showNat s ++ String (ascii_of_nat 10) ("BEST: " ++ showNat b))%string.

(** [updateStackVisuals]: a grey copy of [queue[0]] and of [queue[1]],
    each when present. *)
Definition stackView (q : list TileData) : list TileData :=
  match q !! 0 with Some t => [t] | None => [] end ++
  match q !! 1 with Some t => [t] | None => [] end.

Record View := mkView {
  scoreText : string;
  levelText : string;
  trashText : string;
  stackShown : list TileData;   (** the grey queue tiles *)
  keepShown : option TileData;  (** the tile drawn in the keep container *)
  panelVisible : bool;          (** [gameOverContainer.visible] *)
  panelText : string            (** [finalScoreText] *)
}.

(** A call of the page's display code. *)
Inductive DisplayOp :=
  | SetScoreText (n : nat)        (** [scoreText.setText('SCORE ' + n)] *)
  | SetLevelText (n : nat)        (** [levelText.setText('LEVEL ' + n)] *)
  | SetTrashText (n : nat)        (** [trashText.setText('x' + n)] *)
  | ShowStack (q : list TileData) (** [updateStackVisuals] with queue [q] *)
  | ClearStack                    (** [stackVisuals.forEach(o => o.destroy())] *)
  | ShowKeep (k : option TileData)(** [updateKeepVisuals] with [keepTileData = k] *)
  | ShowPanel (s b : nat)         (** [triggerGameOver]: text, then visible *)
  | HidePanel                     (** [gameOverContainer.setVisible(false)] *)
  | BuildUI (s l t : nat)         (** [setupUI]: new texts, empty keep container *)
  | BuildPanel.                   (** [createGameOverUI]: hidden, ["SCORE: 0"] *)

Definition applyDisplay (op : DisplayOp) (v : View) : View :=
  match op with
  | SetScoreText n =>
      mkView (scoreLabel n) (levelText v) (trashText v) (stackShown v) (keepShown v)
        (panelVisible v) (panelText v)
  | SetLevelText n =>
      mkView (scoreText v) (levelLabel n) (trashText v) (stackShown v) (keepShown v)
        (panelVisible v) (panelText v)
  | SetTrashText n =>
      mkView (scoreText v) (levelText v) (trashLabel n) (stackShown v) (keepShown v)
        (panelVisible v) (panelText v)
  | ShowStack q =>
      mkView (scoreText v) (levelText v) (trashText v) (stackView q) (keepShown v)
        (panelVisible v) (panelText v)
  | ClearStack =>
      mkView (scoreText v) (levelText v) (trashText v) [] (keepShown v)
        (panelVisible v) (panelText v)
  | ShowKeep k =>
      mkView (scoreText v) (levelText v) (trashText v) (stackShown v) k
        (panelVisible v) (panelText v)
  | ShowPanel s b =>
      mkView (scoreText v) (levelText v) (trashText v) (stackShown v) (keepShown v)
        true (panelLabel s b)
  | HidePanel =>
      mkView (scoreText v) (levelText v) (trashText v) (stackShown v) (keepShown v)
        false (panelText v)
  | BuildUI s l t =>
      mkView (scoreLabel s) (levelLabel l) (trashLabel t) (stackShown v) None
        (panelVisible v) (panelText v)
  | BuildPanel =>
      mkView (scoreText v) (levelText v) (trashText v) (stackShown v) (keepShown v)
        false "SCORE: 0"
  end.

Definition DTrace := list DisplayOp.

Definition runDisplay (T : DTrace) (v : View) : View := fold_left (fun v op => applyDisplay op v) T v.

(** The texts [create]'s [setupUI] draws before any game: no panel yet
    ([createGameOverUI] first runs in [startNewGame]). *)
Definition createView (sc : ScoreState) : View :=
  mkView (scoreLabel (score sc)) (levelLabel (level sc)) (trashLabel (trashCount sc)) [] None
    false EmptyString.

(** ** The display traces of the rules engine *)

(** [addScore(points)]: the new score's text. *)
Definition addScoreD (points : nat) (sc : ScoreState) : DTrace := [SetScoreText (score sc + points)].

(** [checkLevelUp]: both texts when the level rises. *)
Definition checkLevelUpD (sc : ScoreState) : DTrace :=
  if level sc <? score sc / 10 + 1 then
    [SetLevelText (level (checkLevelUp sc)); SetTrashText (trashCount (checkLevelUp sc))]
  else [].

(** A call of [checkMerges] that divides calls [addScore(20)] (line 563);
    a match adds its points in its callback. *)
Definition mergeStepD (index : nat) (s : MState) : DTrace :=
  match mergeStep index s with
  | Continue _ _ => addScoreD 20 (ms_score s)
  | Stop _ => []
  end.

Fixpoint checkMergesD (fuel index : nat) (s : MState) : DTrace :=
  match fuel with
  | 0 => []
  | S fuel' =>
      mergeStepD index s ++
      match mergeStep index s with
      | Stop _ => []
      | Continue j s' => checkMergesD fuel' j s'
      end
  end.

Definition createGridTileD (index : nat) (t : TileData) (s : MState) : DTrace :=
  let s1 := mkMS (<[index:=Some t]> (ms_grid s)) (ms_score s) (ms_merging s) (ms_events s) in
  checkMergesD 16 index s1 ++ checkLevelUpD (ms_score (checkMerges 16 index s1)).

(** The match callback's [addScore(10)] (line 510). *)
Definition animationDoneD (s : MState) : DTrace :=
  match ms_events s with
  | MatchEvent _ _ :: _ => addScoreD 10 (ms_score s)
  | _ => []
  end.

Section Traces.
Context {R : Type} `{RandomSource R}.
Implicit Types g : Game R.

(** [checkGameOver] with [triggerGameOver]: the panel shows the score and
    the best score, then becomes visible. *)
Definition checkGameOverD g : DTrace :=
  if ms_merging (board g) then []
  else if gridFull (ggrid g) then
    if isGameOver g then [] else [ShowPanel (score (gscore g)) (bestScore (gscore g))]
  else [].

(** [spawnNextTile]: [updateStackVisuals] right after the shift (line
    361), then [checkGameOver]. *)
Definition spawnNextTileD g : DTrace :=
  let g1 := replenish g in
  match queueShift (queue g1) with
  | (Some t, q) => ShowStack q :: checkGameOverD (set_hand (Some t) true (set_queue q g1))
  | (None, q) => [ShowStack q]
  end.

(** [startNewGame]: the panel hidden (line 274), the globals reset, the
    grey tiles destroyed (lines 299-300), [setupUI] and
    [createGameOverUI] (lines 306-307), then [spawnNextTile]. *)
Definition startNewGameD g : DTrace :=
  let sc := gscore (resetGame g) in
  [HidePanel; ClearStack; BuildUI (score sc) (level sc) (trashCount sc); BuildPanel] ++
  spawnNextTileD (replenish (resetGame g)).

Definition handleTrashDropD g : DTrace :=
  if 0 <? trashCount (gscore g) then [SetTrashText (trashCount (gscore g) - 1)] else [].

Definition trashAnimDoneD g : DTrace := spawnNextTileD (set_trashAnims (trashAnims g - 1) g).

(** [handleHandToKeep]: [updateKeepVisuals] (lines 442, 448), then
    [spawnNextTile] or [checkGameOver]. *)
Definition handleHandToKeepD g : DTrace :=
  match hand g with
  | None => []
  | Some h =>
      ShowKeep (Some h) ::
      match keepTileData g with
      | None => spawnNextTileD (set_keep (Some h) g)
      | Some k => checkGameOverD (set_hand (Some k) (handInteractive g) (set_keep (Some h) g))
      end
  end.

Definition tryDropOnGridD (t : option TileData) (x y : Z) g : DTrace :=
  match t, dropTarget (value <$> t) (ggrid g) x y with
  | Some tile, Some i => createGridTileD i tile (board g)
  | _, _ => []
  end.

(** [handleKeepDragEnd]: after a placement the keep container is emptied
    (lines 395-396). *)
Definition handleKeepDragEndD (x y : Z) g : DTrace :=
  if isValidDrop (value <$> keepTileData g) (ggrid g) x y then
    let g1 := saveState g in
    match tryDropOnGrid (keepTileData g1) x y g1 with
    | Some _ => tryDropOnGridD (keepTileData g1) x y g1 ++ [ShowKeep None]
    | None => []
    end
  else [].

Definition dragEndHandD (x y : Z) g : DTrace :=
  if isGameOver g then []
  else if near x y trashX trashY 80 then handleTrashDropD g
  else if near x y keepSlotX keepSlotY 60 then handleHandToKeepD (saveState g)
  else if isValidDrop (value <$> hand g) (ggrid g) x y then
    let g1 := saveState g in
    match tryDropOnGrid (hand g1) x y g1 with
    | Some g2 => tryDropOnGridD (hand g1) x y g1 ++ spawnNextTileD g2
    | None => []
    end
  else checkGameOverD g.

Definition dragEndKeepD (x y : Z) g : DTrace :=
  if isGameOver g then [] else handleKeepDragEndD x y g.

(** [undo]: the panel hidden when the game was over (line 762), the
    three texts (line 771), [updateKeepVisuals] (line 779) and
    [updateStackVisuals] (line 781) from the restored values. *)
Definition undoD g : DTrace :=
  match last (undoStack g) with
  | None => []
  | Some st =>
      (if isGameOver g then [HidePanel] else []) ++
      [SetScoreText (snap_score st); SetLevelText (snap_level st); SetTrashText (snap_trash st);
       ShowKeep (snap_keep st); ShowStack (snap_queue st)]
  end.

(** The display trace of one input, along [Session.step]; the hint layer
    redrawn by [toggleHints] and the callbacks is not part of [View]. *)
Definition stepD (inp : Input) g : DTrace :=
  match inp with
  | DragHand x y => if handInteractive g then dragEndHandD x y g else []
  | DragKeep x y => match keepTileData g with Some _ => dragEndKeepD x y g | None => [] end
  | KeyUndo => undoD g
  | KeyRestart => startNewGameD g
  | KeyHints | KeyDifficulty _ => []
  | MergeTweenEnd => match ms_events (board g) with [] => [] | _ => animationDoneD (board g) end
  | TrashTweenEnd => match trashAnims g with 0 => [] | S _ => trashAnimDoneD g end
  end.

(** The page shows the state: the three texts, the two grey queue tiles,
    the kept tile, and the panel exactly when the game is over. *)
Definition display_ok g (v : View) : Prop :=
  scoreText v = scoreLabel (score (gscore g)) /\ levelText v = levelLabel (level (gscore g)) /\
  trashText v = trashLabel (trashCount (gscore g)) /\ stackShown v = stackView (queue g) /\
  keepShown v = keepTileData g /\ panelVisible v = isGameOver g.
End Traces.

(** ** Lemmas *)

(** The three texts show a score state. *)
Definition labels_ok (sc : ScoreState) (v : View) : Prop :=
  scoreText v = scoreLabel (score sc) /\ levelText v = levelLabel (level sc) /\
  trashText v = trashLabel (trashCount sc).

(** An operation on the texts only. *)
Definition isText (op : DisplayOp) : bool :=
  match op with SetScoreText _ | SetLevelText _ | SetTrashText _ => true | _ => false end.

Lemma runDisplay_app T1 T2 v : runDisplay (T1 ++ T2) v = runDisplay T2 (runDisplay T1 v).
Proof. apply fold_left_app. Qed.

Lemma runDisplay_text_frame T v :
  forallb isText T = true ->
  stackShown (runDisplay T v) = stackShown v /\ keepShown (runDisplay T v) = keepShown v /\
  panelVisible (runDisplay T v) = panelVisible v.
Proof.
  revert v. induction T as [|op T IH]; intros v; [done|]. cbn [forallb]. intros [Ho HT]%andb_true_iff.
  change (runDisplay (op :: T) v) with (runDisplay T (applyDisplay op v)).
  destruct (IH (applyDisplay op v) HT) as (-> & -> & ->). by destruct op.
Qed.

Lemma mergeStepD_ok i s v :
  labels_ok (ms_score s) v ->
  labels_ok (ms_score (stepState (mergeStep i s))) (runDisplay (mergeStepD i s) v) /\
  forallb isText (mergeStepD i s) = true.
Proof.
  intros (Es & El & Et). unfold mergeStepD.
  destruct (mergeStep_cases i s) as [[-> _]|[(? & ? & ? & _ & _ & _ & ->)|
    [(? & ? & ? & _ & _ & _ & _ & _ & ->)|(? & ? & ? & _ & _ & _ & _ & _ & ->)]]];
    unfold labels_ok; cbn [runDisplay fold_left applyDisplay stepState ms_score scoreText levelText
      trashText forallb isText addScoreD]; autorewrite with jd_rw; done.
Qed.

Lemma checkMergesD_ok fuel i s v :
  labels_ok (ms_score s) v ->
  labels_ok (ms_score (checkMerges fuel i s)) (runDisplay (checkMergesD fuel i s) v) /\
  forallb isText (checkMergesD fuel i s) = true.
Proof.
  revert i s v. induction fuel as [|fuel IH]; intros i s v Hl; [done|].
  destruct (mergeStepD_ok i s v Hl) as [Hl1 Ht1]. cbn [checkMerges checkMergesD].
  rewrite runDisplay_app, forallb_app, Ht1.
  destruct (mergeStep i s) as [s'|j s']; cbn [stepState] in Hl1; [done|]. by apply IH.
Qed.

Lemma checkLevelUpD_ok sc v :
  labels_ok sc v -> labels_ok (checkLevelUp sc) (runDisplay (checkLevelUpD sc) v) /\
  forallb isText (checkLevelUpD sc) = true.
Proof.
  intros (Es & El & Et). unfold checkLevelUpD.
  destruct (level sc <? score sc / 10 + 1) eqn:E.
  - unfold labels_ok. cbn [runDisplay fold_left applyDisplay scoreText levelText trashText forallb isText].
    rewrite checkLevelUp_score. done.
  - unfold checkLevelUp. rewrite E. done.
Qed.

Lemma createGridTileD_ok i t s v :
  labels_ok (ms_score s) v ->
  labels_ok (ms_score (createGridTile i t s)) (runDisplay (createGridTileD i t s) v) /\
  forallb isText (createGridTileD i t s) = true.
Proof.
  intros Hl. unfold createGridTileD, createGridTile. cbn [ms_score].
  match goal with |- context [checkMergesD 16 i ?s1] =>
    destruct (checkMergesD_ok 16 i s1 v Hl) as [Hl1 Ht1] end.
  destruct (checkLevelUpD_ok _ _ Hl1) as [Hl2 Ht2].
  rewrite runDisplay_app, forallb_app, Ht1, Ht2. done.
Qed.

Lemma animationDoneD_ok s v :
  labels_ok (ms_score s) v ->
  labels_ok (ms_score (animationDone s)) (runDisplay (animationDoneD s) v) /\
  forallb isText (animationDoneD s) = true.
Proof.
  intros (Es & El & Et). unfold animationDone, animationDoneD.
  destruct (ms_events s) as [|[] evs]; unfold labels_ok; cbn [runDisplay fold_left applyDisplay
    ms_score scoreText levelText trashText forallb isText addScoreD]; autorewrite with jd_rw; done.
Qed.

Section GameDisplay.
Context {R : Type} `{RandomSource R}.
Implicit Types g : Game R.

(** Unfold the display invariant and one view computed by concrete
    operations. *)
Ltac display_simpl :=
  unfold display_ok, labels_ok in *;
  cbn [runDisplay fold_left app applyDisplay scoreText levelText trashText stackShown keepShown
    panelVisible panelText board queue keepTileData isGameOver hand undoStack set_board set_queue
    set_hand set_keep set_trashAnims set_trashCount set_undoStack gscore ms_score] in *.

(** A text-only trace on the score of a new board. *)
Lemma display_ok_board g b T v :
  display_ok g v -> forallb isText T = true -> labels_ok (ms_score b) (runDisplay T v) ->
  display_ok (set_board b g) (runDisplay T v).
Proof.
  intros (_ & _ & _ & Hs & Hk & Ho) HT Hl. destruct (runDisplay_text_frame T v HT) as (Es & Ek & Eo).
  destruct Hl as (? & ? & ?). display_simpl. rewrite Es, Ek, Eo. done.
Qed.

Lemma saveState_display g v : display_ok g v -> display_ok (saveState g) v.
Proof. done. Qed.

Lemma checkGameOverD_ok g v : display_ok g v -> display_ok (checkGameOver g) (runDisplay (checkGameOverD g) v).
Proof.
  intros Hd. unfold checkGameOver, checkGameOverD.
  destruct (ms_merging (board g)); [done|]. destruct (gridFull (ggrid g)); [|done].
  destruct (isGameOver g) eqn:Eo; [done|]. destruct Hd as (? & ? & ? & ? & ? & ?). by display_simpl.
Qed.

(** [spawnNextTile] redraws the grey tiles: the view needs to show the
    rest of the state only. *)
Lemma spawnNextTileD_ok g v :
  labels_ok (gscore g) v -> keepShown v = keepTileData g -> panelVisible v = isGameOver g ->
  display_ok (spawnNextTile g) (runDisplay (spawnNextTileD g) v).
Proof.
  intros Hl Hk Ho. destruct (spawnNextTile_draws g) as (t & q & Hq & _ & ->).
  unfold spawnNextTileD. rewrite Hq. cbn [queueShift]. change (runDisplay (ShowStack q :: ?T) v)
    with (runDisplay T (applyDisplay (ShowStack q) v)).
  apply checkGameOverD_ok. unfold replenish in *. destruct (replenishQueue _ _ _ _) as [q0 r0].
  destruct Hl as (? & ? & ?). by display_simpl.
Qed.

Lemma startNewGameD_ok g v : display_ok (startNewGame g) (runDisplay (startNewGameD g) v).
Proof.
  unfold startNewGame, startNewGameD. rewrite runDisplay_app.
  apply spawnNextTileD_ok; unfold replenish; destruct (replenishQueue _ _ _ _); by display_simpl.
Qed.

Lemma handleTrashDropD_ok g v :
  display_ok g v -> display_ok (handleTrashDrop g) (runDisplay (handleTrashDropD g) v).
Proof.
  intros Hd. unfold handleTrashDrop, handleTrashDropD. destruct (0 <? _); [|done].
  destruct Hd as (? & ? & ? & ? & ? & ?). by display_simpl.
Qed.

Lemma trashAnimDoneD_ok g v :
  display_ok g v -> display_ok (trashAnimDone g) (runDisplay (trashAnimDoneD g) v).
Proof. intros (? & ? & ? & _ & ? & ?). apply spawnNextTileD_ok; by display_simpl. Qed.

Lemma handleHandToKeepD_ok g v :
  display_ok g v -> display_ok (handleHandToKeep g) (runDisplay (handleHandToKeepD g) v).
Proof.
  intros Hd. unfold handleHandToKeep, handleHandToKeepD. destruct (hand g) as [h|]; [|done].
  change (runDisplay (ShowKeep (Some h) :: ?T) v) with (runDisplay T (applyDisplay (ShowKeep (Some h)) v)).
  destruct Hd as (? & ? & ? & ? & ? & ?). destruct (keepTileData g).
  - apply checkGameOverD_ok. by display_simpl.
  - apply spawnNextTileD_ok; by display_simpl.
Qed.

Lemma tryDropOnGridD_ok t x y g g2 v :
  display_ok g v -> tryDropOnGrid t x y g = Some g2 ->
  display_ok g2 (runDisplay (tryDropOnGridD t x y g) v).
Proof.
  intros Hd. unfold tryDropOnGrid, tryDropOnGridD.
  destruct t as [tile|]; [|done]. destruct (dropTarget _ _ _ _) as [i|]; [|done]. intros [= <-].
  destruct Hd as (? & ? & ? & ? & ? & ?) eqn:Hd'.
  destruct (createGridTileD_ok i tile (board g) v) as [Hl HT]; [done|].
  by apply display_ok_board.
Qed.

Lemma handleKeepDragEndD_ok x y g v :
  display_ok g v -> display_ok (handleKeepDragEnd x y g) (runDisplay (handleKeepDragEndD x y g) v).
Proof.
  intros Hd. unfold handleKeepDragEnd, handleKeepDragEndD. destruct (isValidDrop _ _ _ _); [|done].
  destruct (tryDropOnGrid _ _ _ _) as [g2|] eqn:E; [|done].
  rewrite runDisplay_app. pose proof (tryDropOnGridD_ok _ _ _ _ _ v (saveState_display g v Hd) E) as Hd2.
  destruct Hd2 as (? & ? & ? & ? & ? & ?). by display_simpl.
Qed.

Lemma dragEndHandD_ok x y g v :
  display_ok g v -> display_ok (dragEndHand x y g) (runDisplay (dragEndHandD x y g) v).
Proof.
  intros Hd. unfold dragEndHand, dragEndHandD. destruct (isGameOver g); [done|].
  destruct (near x y trashX trashY 80); [by apply handleTrashDropD_ok|].
  destruct (near x y keepSlotX keepSlotY 60); [by apply handleHandToKeepD_ok|].
  destruct (isValidDrop _ _ _ _); [|by apply checkGameOverD_ok].
  destruct (tryDropOnGrid _ _ _ _) as [g2|] eqn:E; [|done].
  rewrite runDisplay_app. pose proof (tryDropOnGridD_ok _ _ _ _ _ v (saveState_display g v Hd) E) as Hd2.
  destruct Hd2 as (? & ? & ? & _ & ? & ?). apply spawnNextTileD_ok; done.
Qed.

Lemma undoD_ok g v : display_ok g v -> display_ok (undo g) (runDisplay (undoD g) v).
Proof.
  intros Hd. unfold undo, undoD. destruct (last (undoStack g)) as [st|]; [|done].
  destruct Hd as (? & ? & ? & ? & ? & Ho). rewrite runDisplay_app.
  destruct (isGameOver g); by display_simpl.
Qed.

(** Every input keeps the page showing the state. *)
Lemma stepD_ok i g g' v :
  step i g = Some g' -> display_ok g v -> display_ok g' (runDisplay (stepD i g) v).
Proof.
  intros Hs Hd. destruct i; cbn [step stepD] in *.
  - destruct (handInteractive g); simplify_eq. by apply dragEndHandD_ok.
  - destruct (keepTileData g); simplify_eq. unfold dragEndKeep, dragEndKeepD.
    destruct (isGameOver g); [done|]. by apply handleKeepDragEndD_ok.
  - simplify_eq. by apply undoD_ok.
  - simplify_eq. apply startNewGameD_ok.
  - simplify_eq. destruct Hd as (? & ? & ? & ? & ? & ?). by display_simpl.
  - destruct (_ && _); simplify_eq. destruct Hd as (? & ? & ? & ? & ? & ?). by display_simpl.
  - destruct (ms_events (board g)) eqn:E; simplify_eq.
    destruct (animationDoneD_ok (board g) v) as [Hl HT]; [by destruct Hd as (? & ? & ? & _)|].
    by apply display_ok_board.
  - destruct (trashAnims g); simplify_eq. by apply trashAnimDoneD_ok.
Qed.
End GameDisplay.
