(* ===== verification/Shell.v ===== *)
(** * The shell around the rules engine: start screen and audio

    [create] (lines 119-131 of [src/main.js]) loads the sounds
    ([setupAudio], lines 238-248), binds the inputs and shows the start
    screen ([createStartScreen], lines 187-236), whose button, once
    pressed, fades the popup out and then calls [startNewGame].  The audio
    state is the background music [bgm] (playing or not, muted or not),
    the global [isMuted] (line 81) that [toggleSoundGlobal] (lines 254-271,
    key M and the speaker button) flips, and the sound effects played by
    [playSound] (lines 250-252).

    The record [App] puts the [Game] of [Session] together with the audio
    state, what the page shows ([Display.View]) and the start popup;
    [appStep] runs an input of the page: a game input runs [Session.step],
    plays its sound trace ([Sounds.stepT]) on the audio state with
    [runOps] and its display trace ([Display.stepD]) on the view with
    [runDisplay]; the [dragstart] handler, the mute toggle, the play
    button and the end of the popup's fade are inputs of their own.

    The theorem [music_follows_game] is the invariant of the music: it is
    muted exactly when [isMuted] is set, and once a game has been started
    it plays exactly while the game is not over.  [page_display_current]
    is the invariant of the view: the texts, the grey queue tiles, the
    keep container and the game-over panel show the current state.
    [mute_keeps_effects] shows that [isMuted] silences the music only. *)

From S2P Require Import Prelude Tile Grid Score Merge Undo Session Invariant Sounds Display.
From Stdlib Require Import ZArith.

Record Audio := mkAudio {
  bgmPlaying : bool;    (** [bgm.isPlaying] *)
  bgmMuted : bool;      (** [bgm.mute] *)
  isMuted : bool;       (** the global [isMuted] *)
  played : list Sound   (** the effects played so far, oldest first *)
}.

(** [setupAudio]: the looping music is added, not started; [isMuted]
    starts false (line 81). *)
Definition setupAudio : Audio := mkAudio false false false [].

(** [playSound(key)]: [if (sfx[key]) sfx[key].play()]; [isMuted] is not
    read. *)
Definition playSound (k : Sound) (a : Audio) : Audio :=
  match sfx k with
  | Some _ => mkAudio (bgmPlaying a) (bgmMuted a) (isMuted a) (played a ++ [k])
  | None => a
  end.

(** [toggleSoundGlobal]: flip [isMuted], [bgm.setMute(isMuted)] ([bgm]
    exists from [create] on), swap the speaker icon (drawing), click. *)
Definition toggleSoundGlobal (a : Audio) : Audio :=
  let m := negb (isMuted a) in
  playSound SClick (mkAudio (bgmPlaying a) m m (played a)).

(** One audio operation of a handler on the audio state. *)
Definition applyOp (op : AudioOp) (a : Audio) : Audio :=
  match op with
  | PlaySfx k => playSound k a
  | BgmStop => mkAudio false (bgmMuted a) (isMuted a) (played a)
  | BgmPlay => if bgmPlaying a then a else mkAudio true (bgmMuted a) (isMuted a) (played a)
  | BgmSyncMute => mkAudio (bgmPlaying a) (isMuted a) (isMuted a) (played a)
  end.

(** A trace, operation after operation. *)
Definition runOps (T : Trace) (a : Audio) : Audio := fold_left (fun a op => applyOp op a) T a.

Section Shell.
Context {R : Type} `{RandomSource R}.
Implicit Types g : Game R.

(** The start popup: its button armed, fading out after the press (the
    listener was registered with [once]), or destroyed. *)
Inductive Popup := PopupArmed | PopupFading | PopupGone.

Record App := mkApp { game : Game R; audio : Audio; view : View; popup : Popup }.

Inductive AppInput :=
  | GameInput (i : Input)   (** an input of the rules engine *)
  | DragStart               (** a drag begins ([dragstart]) *)
  | ToggleSound             (** key M or the speaker button *)
  | PlayClick               (** a press on the start popup's button *)
  | PopupFadeEnd.           (** the popup's 300 ms fade completes *)

(** [create]: the globals, [setupAudio], and [createStartScreen]. *)
Definition appBoot (saved : option nat) (r : R) : App :=
  mkApp (boot saved r) setupAudio (createView (gscore (boot saved r))) PopupArmed.

(** One input of the whole page.  A drag can start on the hand tile when
    it is interactive and on the keep container when it holds a tile. *)
Definition appStep (i : AppInput) (s : App) : option App :=
  match i with
  | GameInput inp =>
      match step inp (game s) with
      | Some g' =>
          Some (mkApp g' (runOps (stepT inp (game s)) (audio s))
                  (runDisplay (stepD inp (game s)) (view s)) (popup s))
      | None => None
      end
  | DragStart =>
      if handInteractive (game s) || bool_decide (is_Some (keepTileData (game s)))
      then Some (mkApp (game s) (runOps (dragStartT (game s)) (audio s)) (view s) (popup s))
      else None
  | ToggleSound => Some (mkApp (game s) (toggleSoundGlobal (audio s)) (view s) (popup s))
  | PlayClick =>
      match popup s with
      | PopupArmed => Some (mkApp (game s) (playSound SClick (audio s)) (view s) PopupFading)
      | PopupFading => Some s
      | PopupGone => None
      end
  | PopupFadeEnd =>
      match popup s with
      | PopupFading =>
          Some (mkApp (startNewGame (game s)) (runOps (startNewGameT (game s)) (audio s))
                  (runDisplay (startNewGameD (game s)) (view s)) PopupGone)
      | _ => None
      end
  end.

Fixpoint appRun (inps : list AppInput) (s : App) : option App :=
  match inps with
  | [] => Some s
  | i :: inps' => match appStep i s with Some s' => appRun inps' s' | None => None end
  end.

Definition appReachable (s : App) : Prop :=
  exists saved r inps, appRun inps (appBoot saved r) = Some s.

(** A game that has not been started: nothing can be dragged, no
    animation is pending, the history is empty. *)
Definition fresh g : Prop :=
  isGameOver g = false /\ handInteractive g = false /\ keepTileData g = None /\
  undoStack g = [] /\ ms_events (board g) = [] /\ trashAnims g = 0.

(** The invariant of the music. *)
Definition music_ok (s : App) : Prop :=
  bgmMuted (audio s) = isMuted (audio s) /\
  (bgmPlaying (audio s) = negb (isGameOver (game s)) \/
   (bgmPlaying (audio s) = false /\ fresh (game s))).

(** ** Lemmas *)

Lemma playSound_fields k a :
  bgmPlaying (playSound k a) = bgmPlaying a /\ bgmMuted (playSound k a) = bgmMuted a /\
  isMuted (playSound k a) = isMuted a.
Proof. unfold playSound. by destruct (sfx k). Qed.

Lemma runOps_muted T a : bgmMuted a = isMuted a -> bgmMuted (runOps T a) = isMuted (runOps T a).
Proof.
  unfold runOps. revert a. induction T as [|op T IH]; intros a E; [done|]. cbn [fold_left].
  apply IH. destruct op as [k| | |]; cbn; [|done|by destruct (bgmPlaying a)|done].
  destruct (playSound_fields k a) as (_ & -> & ->). done.
Qed.

Lemma runOps_playing T a :
  bgmPlaying (runOps T a) = match lastMusic T with Some b => b | None => bgmPlaying a end.
Proof.
  unfold runOps. revert a. induction T as [|op T IH]; intros a; [done|]. cbn [fold_left lastMusic].
  rewrite IH. destruct (lastMusic T); [done|].
  destruct op as [k| | |]; cbn; [apply playSound_fields|done|by destruct (bgmPlaying a) eqn:E|done].
Qed.

(** Only undo (with a snapshot) and a restart end a game-over state. *)
Lemma step_over_falls i g g' :
  step i g = Some g' -> isGameOver g = true -> isGameOver g' = false ->
  (i = KeyUndo /\ undoStack g <> []) \/ i = KeyRestart.
Proof.
  intros Hs Ho Ho'. destruct i; cbn [step] in Hs; repeat case_match; simplify_eq; try by right.
  all: try (unfold dragEndHand, dragEndKeep in Ho'; rewrite Ho in Ho'; congruence).
  all: try (cbn in Ho'; congruence).
  - left. split; [done|]. intros E. unfold undo in Ho'. rewrite E in Ho'. cbn in Ho'. congruence.
  - unfold trashAnimDone in Ho'. rewrite spawnNextTile_over in Ho'; [done|]. by cbn.
Qed.

(** Before the first game only the hints and difficulty keys and undo
    (which does nothing) can run, apart from a restart. *)
Lemma fresh_step i g g' : fresh g -> step i g = Some g' -> i = KeyRestart \/ fresh g'.
Proof.
  intros (Ho & Hi & Hk & Hu & He & Ht) Hs. destruct i; cbn [step] in Hs;
    rewrite ?Hi, ?Hk, ?He, ?Ht in Hs; repeat case_match; simplify_eq; try by left.
  - right. unfold undo. rewrite Hu. done.
  - by right.
  - by right.
Qed.

(** The music after an input other than undo and restart: stopped when
    the input ends the game, unchanged otherwise. *)
Lemma other_playing i g g' (pa : bool) :
  step i g = Some g' -> i <> KeyUndo -> i <> KeyRestart ->
  pa = negb (isGameOver g) \/ (pa = false /\ fresh g) ->
  let pa' := match (if rising g g' then Some false else None) with Some b => b | None => pa end in
  pa' = negb (isGameOver g') \/ (pa' = false /\ fresh g').
Proof.
  intros Hs Hu Hr Hp. cbv zeta. unfold rising.
  destruct (isGameOver g) eqn:Eo, (isGameOver g') eqn:Eo'; cbn [negb andb].
  - left. destruct Hp as [->|(_ & Hf & _)]; [done|congruence].
  - by destruct (step_over_falls i g g' Hs Eo Eo') as [[? _] | ?].
  - by left.
  - destruct Hp as [Hp|(Hp & Hf)]; [by left|].
    destruct (fresh_step i g g' Hf Hs) as [? | Hf']; [done|by right].
Qed.

(** The music after a game input, from the two cases of [music_ok]. *)
Lemma stepAudio_playing i g g' a :
  step i g = Some g' ->
  bgmPlaying a = negb (isGameOver g) \/ (bgmPlaying a = false /\ fresh g) ->
  bgmPlaying (runOps (stepT i g) a) = negb (isGameOver g') \/
  (bgmPlaying (runOps (stepT i g) a) = false /\ fresh g').
Proof.
  intros Hs Hp. rewrite runOps_playing, (stepT_music i g g' Hs).
  destruct i; try (apply (other_playing _ g g' _ Hs); done).
  - cbn [step] in Hs. simplify_eq. destruct (undoStack g) as [|x u] eqn:Eu.
    + unfold undo. rewrite Eu. exact Hp.
    + rewrite undo_not_over by (rewrite Eu; done). left.
      destruct (isGameOver g); [done|]. destruct Hp as [->|(_ & _ & _ & _ & Hu & _)]; [done|congruence].
  - cbn [step] in Hs. simplify_eq. left. by rewrite startNewGame_not_over.
Qed.

Lemma appStep_music_ok i s s' : music_ok s -> appStep i s = Some s' -> music_ok s'.
Proof.
  intros [Hm Hp] Hs. destruct i as [inp| | | |]; cbn [appStep] in Hs.
  - destruct (step inp (game s)) as [g'|] eqn:Es; [|done]. simplify_eq. split.
    + by apply runOps_muted.
    + by apply stepAudio_playing.
  - destruct (_ || _); simplify_eq. split; [by apply runOps_muted|]. cbn [game audio].
    rewrite runOps_playing. unfold dragStartT. by destruct (isGameOver (game s)).
  - simplify_eq. unfold music_ok, toggleSoundGlobal, playSound. by cbn.
  - destruct (popup s); simplify_eq; [|done]. unfold music_ok, playSound. by cbn.
  - destruct (popup s); simplify_eq. split; [by apply runOps_muted|]. cbn [game audio].
    rewrite runOps_playing, startNewGame_not_over. left.
    change (startNewGameT (game s)) with (stepT KeyRestart (game s)).
    by rewrite (stepT_music KeyRestart (game s) (startNewGame (game s)) eq_refl).
Qed.

Lemma appRun_music_ok inps s s' : music_ok s -> appRun inps s = Some s' -> music_ok s'.
Proof.
  revert s. induction inps as [|i inps IH]; intros s Hok Hr; cbn [appRun] in Hr; [by simplify_eq|].
  destruct (appStep i s) as [s1|] eqn:E; [|done]. exact (IH s1 (appStep_music_ok i s s1 Hok E) Hr).
Qed.

Lemma appBoot_music_ok saved r : music_ok (appBoot saved r).
Proof. split; [done|]. right. split; [done|]. by repeat split. Qed.

Lemma appStep_display_ok i s s' :
  display_ok (game s) (view s) -> appStep i s = Some s' -> display_ok (game s') (view s').
Proof.
  intros Hd Hs. destruct i as [inp| | | |]; cbn [appStep] in Hs.
  - destruct (step inp (game s)) as [g'|] eqn:Es; [|done]. simplify_eq. by apply stepD_ok.
  - by destruct (_ || _); simplify_eq.
  - by simplify_eq.
  - by destruct (popup s); simplify_eq.
  - destruct (popup s); simplify_eq. apply startNewGameD_ok.
Qed.

Lemma appRun_display_ok inps s s' :
  display_ok (game s) (view s) -> appRun inps s = Some s' -> display_ok (game s') (view s').
Proof.
  revert s. induction inps as [|i inps IH]; intros s Hok Hr; cbn [appRun] in Hr; [by simplify_eq|].
  destruct (appStep i s) as [s1|] eqn:E; [|done]. exact (IH s1 (appStep_display_ok i s s1 Hok E) Hr).
Qed.

Lemma appBoot_display_ok saved r : display_ok (game (appBoot saved r)) (view (appBoot saved r)).
Proof. done. Qed.
End Shell.

(** C29: the music follows the game.  In every state of the page reachable
    from [create], the music is muted exactly when [isMuted] is set; it
    plays only while the game is not over ([triggerGameOver] stops it);
    and when it is silent although the game is not over, no game has been
    started yet: nothing can be dragged, no animation is pending and the
    history is empty (undo and a new game both restart it). *)
Theorem music_follows_game {R} `{RandomSource R} (s : @App R) :
  appReachable s ->
  bgmMuted (audio s) = isMuted (audio s) /\
  (bgmPlaying (audio s) = true -> isGameOver (game s) = false) /\
  (isGameOver (game s) = false -> bgmPlaying (audio s) = false -> fresh (game s)).
Proof.
  intros (saved & r & inps & Hr).
  destruct (appRun_music_ok inps _ s (appBoot_music_ok saved r) Hr) as [Hm [Hp|[Hp Hf]]].
  - split; [done|]. split; intros; destruct (isGameOver (game s)); simpl in *; congruence.
  - split; [done|]. split; [congruence|done].
Qed.

(** The start button pressed, the fade over, then key M and key G. *)
Definition muted_inputs : list AppInput := [PlayClick; PopupFadeEnd; ToggleSound; GameInput KeyHints].

Definition muted_app : @App N :=
  match appRun muted_inputs (appBoot None 1%N) with Some s => s | None => appBoot None 1%N end.

Lemma music_follows_game_witness :
  appReachable muted_app /\ bgmPlaying (audio muted_app) = true /\
  isGameOver (game muted_app) = false /\ bgmMuted (audio muted_app) = isMuted (audio muted_app).
Proof.
  assert (appReachable muted_app) as Hr by (exists None, 1%N, muted_inputs; vm_compute; reflexivity).
  split; [exact Hr|]. split; [vm_compute; reflexivity|].
  destruct (music_follows_game muted_app Hr) as (Hm & Hp & _).
  split; [apply Hp; vm_compute; reflexivity|exact Hm].
Defined.

(** Mute silences the music only.  After the start button, key M and key
    G, [isMuted] is set and the music is muted, yet the click of the
    toggle itself and the click of the hints key were played: [playSound]
    never reads [isMuted]. *)
Example mute_keeps_effects :
  isMuted (audio muted_app) = true /\ bgmMuted (audio muted_app) = true /\
  played (audio muted_app) = [SClick; SRestart; SClick; SClick].
Proof. vm_compute. repeat split. Qed.

(** C31: the page shows the current state.  In every state reachable from
    [create], the score, level and trash texts show the current score,
    level and trash allowance, the grey tiles are the next two tiles of
    the queue, the keep container holds the kept tile, and the game-over
    panel is visible exactly when the game is over: no handler leaves a
    stale display. *)
Theorem page_display_current {R} `{RandomSource R} (s : @App R) :
  appReachable s ->
  scoreText (view s) = scoreLabel (score (gscore (game s))) /\
  levelText (view s) = levelLabel (level (gscore (game s))) /\
  trashText (view s) = trashLabel (trashCount (gscore (game s))) /\
  stackShown (view s) = stackView (queue (game s)) /\
  keepShown (view s) = keepTileData (game s) /\
  panelVisible (view s) = isGameOver (game s).
Proof.
  intros (saved & r & inps & Hr). exact (appRun_display_ok inps _ s (appBoot_display_ok saved r) Hr).
Qed.

Lemma page_display_current_witness :
  appReachable muted_app /\ stackView (queue (game muted_app)) <> [] /\
  stackShown (view muted_app) = stackView (queue (game muted_app)).
Proof.
  assert (appReachable muted_app) as Hr by (exists None, 1%N, muted_inputs; vm_compute; reflexivity).
  split; [exact Hr|]. split; [vm_compute; discriminate|].
  exact (proj1 (proj2 (proj2 (proj2 (page_display_current muted_app Hr))))).
Defined.
